(** * Inventory and sales console application (simulacro.py)

    A shallow embedding of the ledger kept by [simulacro.py]: the product
    catalog ([inventory]), the append-only sales log ([sales]), the two id
    counters, the operations of the main menu and the four reports.

    Conventions of the embedding:
    - Python [int] is [Z]; Python [float] is an IEEE-754 binary64 number,
      represented with the Standard Library's [spec_float] at precision 53;
    - Python [str] is [string]; the catalog (a dict keyed by product id) is a
      [gmap Z product]; the dict built by the reports, whose insertion order
      is observable, is an association list;
    - the module-level globals are the fields of one [ledger] record that
      every operation takes and returns;
    - [input(...).strip()] is an argument of the operation that reads it; a
      numeric prompt that retries is given the list of the lines typed at it
      (already converted, [None] for a blank or malformed line), and running
      out of lines stands for the user interrupting the prompt;
    - [datetime.now()] is an argument ([Z], a timestamp);
    - [print] is the value returned next to the new ledger;
    - the catalog is only ever extended with the value of a growing counter,
      so the order in which the dict yields its products is the ascending
      order of their ids;
    - the builtin [sum] adds floats from left to right up to CPython 3.11
      and with compensation from CPython 3.12 on: the income report takes
      the summation of the interpreter as an argument. *)

From Stdlib Require Import ZArith SpecFloat Ascii String.
From stdpp Require Import gmap strings list sorting pretty.

Local Open Scope Z_scope.

(** ** Python floats *)

Module PyFloat.

Definition float : Type := spec_float.

Definition prec : Z := 53.
Definition emax : Z := 1024.

Definition add : float -> float -> float := SFadd prec emax.
Definition sub : float -> float -> float := SFsub prec emax.
Definition mul : float -> float -> float := SFmul prec emax.
Definition div : float -> float -> float := SFdiv prec emax.

(** [x < y] and [x > y] on floats; both are false when a NaN is involved. *)
Definition ltb (x y : float) : bool := SFltb x y.
Definition gtb (x y : float) : bool := SFltb y x.

Definition is_finite (x : float) : bool :=
  match x with
  | S754_zero _ | S754_finite _ _ _ => true
  | _ => false
  end.

(** The double nearest to the fraction [a / b] (ties to even). Division of
    the two integers seen as floats with exponent 0 rounds only once,
    whatever their size. *)
Definition ratio (a : Z) (b : positive) : float :=
  match a with
  | Z0 => S754_zero false
  | Zpos m => div (S754_finite false m 0) (S754_finite false b 0)
  | Zneg m => div (S754_finite true m 0) (S754_finite false b 0)
  end.

(** A decimal literal of the source: [decimal 7999 2] is [79.99]. *)
Definition decimal (digits : Z) (places : nat) : float :=
  ratio digits (Z.to_pos (10 ^ Z.of_nat places)).

(** [float(n)] for an [int]: the nearest double, and [OverflowError]
    ([None]) when [n] is too large to convert. *)
Definition of_int (n : Z) : option float :=
  let f := binary_normalize prec emax n 0 false in
  if is_finite f then Some f else None.

(** [a / b] on two [int]s: the correctly rounded quotient, a zero taking
    the sign of the divisor; [ZeroDivisionError] or [OverflowError] is
    [None]. *)
Definition int_true_divide (a b : Z) : option float :=
  match b with
  | Z0 => None
  | Zpos d => let f := ratio a d in if is_finite f then Some f else None
  | Zneg d =>
      let f := match a with Z0 => S754_zero true | _ => ratio (- a) d end in
      if is_finite f then Some f else None
  end.

(** The integer nearest to [m * 2^e], ties to even. *)
Definition round_half_even (m e : Z) : Z :=
  match e with
  | Zneg p =>
      let d := Z.pow_pos 2 p in
      let q := m / d in
      match 2 * (m mod d) ?= d with
      | Lt => q
      | Gt => q + 1
      | Eq => if Z.even q then q else q + 1
      end
  | _ => m * 2 ^ e
  end.

(** [round(x, 2)]: the decimal with two places nearest to the exact value
    of [x] (ties to even), converted back to the nearest double. NaN,
    infinities and zeros are returned as they are; the sign is kept. *)
Definition round2 (x : float) : float :=
  match x with
  | S754_finite s m e =>
      match round_half_even (Zpos m * 100) e with
      | Zpos n => div (S754_finite s n 0) (S754_finite false 100 0)
      | _ => S754_zero s
      end
  | _ => x
  end.

(** [format(x, ".2f")]. *)
Definition two_digits (n : Z) : string :=
  (if n <? 10 then "0" else "") +:+ pretty n.

Definition format_2f (x : float) : string :=
  match x with
  | S754_nan => "nan"
  | S754_infinity s => if s then "-inf" else "inf"
  | S754_zero s => if s then "-0.00" else "0.00"
  | S754_finite s m e =>
      let n := round_half_even (Zpos m * 100) e in
      (if s then "-" else "") +:+ pretty (n / 100) +:+ "." +:+ two_digits (n mod 100)
  end.

End PyFloat.

Abbreviation float := PyFloat.float.

(** ** Python strings *)

(** [str.lower] on the ASCII letters. The only strings it is compared with
    are ASCII words, and no other character lower-cases to one of their
    letters. *)
Definition lower_ascii (c : ascii) : ascii :=
  let n := N_of_ascii c in
  if ((65 <=? n) && (n <=? 90))%N then ascii_of_N (n + 32) else c.

Definition upper_ascii (c : ascii) : ascii :=
  let n := N_of_ascii c in
  if ((97 <=? n) && (n <=? 122))%N then ascii_of_N (n - 32) else c.

Fixpoint lower (s : string) : string :=
  match s with
  | EmptyString => EmptyString
  | String c s' => String (lower_ascii c) (lower s')
  end.

(** [s] spells the word [w] up to the case of its letters. *)
Fixpoint casing_of (s w : string) : Prop :=
  match s, w with
  | EmptyString, EmptyString => True
  | String a s', String b w' => (a = b \/ a = upper_ascii b) /\ casing_of s' w'
  | _, _ => False
  end.

#[global] Instance casing_of_dec (s w : string) : Decision (casing_of s w).
Proof.
  revert w; induction s as [|a s IH]; intros [|b w]; simpl;
    try (left; exact I); try (right; tauto).
  destruct (IH w); [|right; tauto].
  destruct (decide (a = b)); [left; tauto|].
  destruct (decide (a = upper_ascii b)); [left; tauto | right; tauto].
Defined.

(** ** Data structures *)

Record product := Product {
  name : string;
  brand : string;
  category : string;
  price : float;
  stock : Z;
  warranty_months : Z;
  initial_stock : Z
}.

Record sale := Sale {
  sale_id : Z;
  client : string;
  client_type : string;
  product_id : Z;
  product_name : string;
  sale_brand : string;          (* key "brand" of the sale record *)
  quantity : Z;
  unit_price : float;
  discount_pct : float;
  date : Z;
  gross : float;
  net : float
}.

(** The module-level state: [inventory], [sales], [_next_product_id] and
    [_next_sale_id]. *)
Record ledger := Ledger {
  inventory : gmap Z product;
  sales : list sale;
  next_product_id : Z;
  next_sale_id : Z
}.

Definition seed_inventory : gmap Z product :=
  list_to_map
    [ (1, Product "Aurora Headphones" "Soundix" "Audio" (PyFloat.decimal 7999 2) 25 12 25);
      (2, Product "Volt Charger 65W" "Ampere" "Power" (PyFloat.decimal 3950 2) 40 24 40);
      (3, Product "Nexus 10 Tablet" "NovaTech" "Computers" (PyFloat.decimal 24900 2) 10 12 10);
      (4, Product "PixelCam 4K" "OptiSight" "Cameras" (PyFloat.decimal 49900 2) 6 24 6);
      (5, Product "HomeSyx SmartPlug" "HomeSyx" "SmartHome" (PyFloat.decimal 1999 2) 60 6 60) ].

(** The state when the module has been loaded: [max(inventory.keys()) + 1]
    is 6. *)
Definition initial_ledger : ledger :=
  Ledger seed_inventory [] 6 1.

(** In-place assignments to one key of a product dict. *)
Definition set_name (v : string) (p : product) : product :=
  Product v (brand p) (category p) (price p) (stock p) (warranty_months p) (initial_stock p).
Definition set_brand (v : string) (p : product) : product :=
  Product (name p) v (category p) (price p) (stock p) (warranty_months p) (initial_stock p).
Definition set_category (v : string) (p : product) : product :=
  Product (name p) (brand p) v (price p) (stock p) (warranty_months p) (initial_stock p).
Definition set_price (v : float) (p : product) : product :=
  Product (name p) (brand p) (category p) v (stock p) (warranty_months p) (initial_stock p).
Definition set_stock (v : Z) (p : product) : product :=
  Product (name p) (brand p) (category p) (price p) v (warranty_months p) (initial_stock p).
Definition set_warranty_months (v : Z) (p : product) : product :=
  Product (name p) (brand p) (category p) (price p) (stock p) v (initial_stock p).

(** What an operation prints, as far as the ledger is concerned. *)
Inductive exn := OverflowError | KeyError.

Inductive outcome :=
  | Cancelled                       (* KeyboardInterrupt caught by the operation *)
  | Interrupted                     (* KeyboardInterrupt caught by the main menu *)
  | Raised (e : exn)                (* caught by the catch-all of the main menu *)
  | NameEmpty
  | BrandEmpty
  | ClientRequired
  | ProductRegistered (pid : Z)
  | ProductUpdated
  | ProductDeleted
  | Conflict                        (* "Cannot delete product with historical sales records" *)
  | DeletionCancelled
  | InsufficientStock (available : Z)
  | SaleRecorded (s : sale)
  | Preloaded.

(** ** Helper / validation *)

(** [safe_int]: the first line that is an integer within the bounds, with
    the lines typed after it. *)
Definition int_below (n : Z) (bound : option Z) : bool :=
  match bound with
  | Some m => n <? m
  | None => false
  end.

Definition int_above (n : Z) (bound : option Z) : bool :=
  match bound with
  | Some m => n >? m
  | None => false
  end.

Fixpoint safe_int (min_val max_val : option Z) (lines : list (option Z))
  : option (Z * list (option Z)) :=
  match lines with
  | [] => None
  | None :: rest => safe_int min_val max_val rest
  | Some n :: rest =>
      if int_below n min_val then safe_int min_val max_val rest
      else if int_above n max_val then safe_int min_val max_val rest
      else Some (n, rest)
  end.

Definition below (f : float) (bound : option float) : bool :=
  match bound with
  | Some m => PyFloat.ltb f m
  | None => false
  end.

Definition above (f : float) (bound : option float) : bool :=
  match bound with
  | Some m => PyFloat.gtb f m
  | None => false
  end.

Fixpoint safe_float (min_val max_val : option float) (lines : list (option float))
  : option (float * list (option float)) :=
  match lines with
  | [] => None
  | None :: rest => safe_float min_val max_val rest
  | Some f :: rest =>
      if below f min_val then safe_float min_val max_val rest
      else if above f max_val then safe_float min_val max_val rest
      else Some (f, rest)
  end.

(** [choose_product_id]: [safe_int] without bounds, asked again until the
    id is a key of the catalog. *)
Fixpoint choose_product_id (inv : gmap Z product) (lines : list (option Z))
  : option (Z * list (option Z)) :=
  match lines with
  | [] => None
  | None :: rest => choose_product_id inv rest
  | Some prod_id :: rest =>
      if bool_decide (is_Some (inv !! prod_id)) then Some (prod_id, rest)
      else choose_product_id inv rest
  end.

(** ** Inventory CRUD *)

(** [register_product]. [name], [brand] and [category] are the stripped
    answers; each numeric prompt has its own lines. *)
Definition register_product (st : ledger) (name brand category : string)
    (price_lines : list (option float)) (stock_lines warranty_lines : list (option Z))
  : ledger * outcome :=
  if decide (name = "") then (st, NameEmpty)
  else if decide (brand = "") then (st, BrandEmpty)
  else
    let category := if decide (category = "") then "General" else category in
    match safe_float (Some (PyFloat.decimal 0 0)) None price_lines with
    | None => (st, Cancelled)
    | Some (price, _) =>
        match safe_int (Some 0) None stock_lines with
        | None => (st, Cancelled)
        | Some (stock, _) =>
            match safe_int (Some 0) None warranty_lines with
            | None => (st, Cancelled)
            | Some (warranty, _) =>
                let p := Product name brand category (PyFloat.round2 price)
                                 stock warranty stock in
                (Ledger (<[next_product_id st := p]> (inventory st)) (sales st)
                        (next_product_id st + 1) (next_sale_id st),
                 ProductRegistered (next_product_id st))
            end
        end
    end.

(** A line typed at a prompt of [update_product] that converts its answer
    itself: left blank, rejected by [float(...)] or [int(...)], or a value. *)
Inductive field_input (A : Type) :=
  | Blank
  | Malformed
  | Value (a : A).
Arguments Blank {A}.
Arguments Malformed {A}.
Arguments Value {A} a.

Definition update_text (setter : string -> product -> product) (v : string)
    (p : product) : product :=
  if decide (v = "") then p else setter v p.

Definition update_price (price_input : field_input float) (p : product) : product :=
  match price_input with
  | Value price => if PyFloat.ltb price (PyFloat.decimal 0 0) then p
                   else set_price (PyFloat.round2 price) p
  | _ => p
  end.

Definition update_stock (stock_input : field_input Z) (p : product) : product :=
  match stock_input with
  | Value stock => if stock <? 0 then p else set_stock stock p
  | _ => p
  end.

Definition update_warranty (warranty_input : field_input Z) (p : product) : product :=
  match warranty_input with
  | Value w => if w <? 0 then p else set_warranty_months w p
  | _ => p
  end.

(** The assignments of [update_product] to the chosen product, in the order
    of the source. *)
Definition apply_update (name brand category : string) (price_input : field_input float)
    (stock_input warranty_input : field_input Z) (p : product) : product :=
  update_warranty warranty_input
    (update_stock stock_input
      (update_price price_input
        (update_text set_category category
          (update_text set_brand brand
            (update_text set_name name p))))).

Definition update_product (st : ledger) (pid_lines : list (option Z))
    (name brand category : string) (price_input : field_input float)
    (stock_input warranty_input : field_input Z) : ledger * outcome :=
  match choose_product_id (inventory st) pid_lines with
  | None => (st, Interrupted)
  | Some (pid, _) =>
      match inventory st !! pid with
      | None => (st, Raised KeyError)
      | Some p =>
          let p' := apply_update name brand category price_input stock_input
                                 warranty_input p in
          (Ledger (<[pid := p']> (inventory st)) (sales st)
                  (next_product_id st) (next_sale_id st),
           ProductUpdated)
      end
  end.

(** [any(s['product_id'] == pid for s in sales)]. *)
Definition referenced (pid : Z) (log : list sale) : bool :=
  existsb (fun s => product_id s =? pid) log.

(** [delete_product]; [confirm] is the stripped answer to the confirmation
    prompt. *)
Definition delete_product (st : ledger) (pid_lines : list (option Z)) (confirm : string)
  : ledger * outcome :=
  match choose_product_id (inventory st) pid_lines with
  | None => (st, Interrupted)
  | Some (pid, _) =>
      if decide (lower confirm = "y") then
        if referenced pid (sales st) then (st, Conflict)
        else (Ledger (delete pid (inventory st)) (sales st)
                     (next_product_id st) (next_sale_id st),
              ProductDeleted)
      else (st, DeletionCancelled)
  end.

(** ** Sales *)

Definition calculate_discount_pct (client_type : string) : float :=
  let client_type := lower client_type in
  if decide (client_type = "vip") then PyFloat.decimal 10 0
  else if decide (client_type = "employee") then PyFloat.decimal 30 0
  else if decide (client_type = "wholesale") then PyFloat.decimal 15 0
  else PyFloat.decimal 0 0.

(** [revenue_calc = lambda unit_price, qty: round(unit_price * qty, 2)]; the
    product converts [qty] to a float first. *)
Definition revenue_calc (unit_price : float) (qty : Z) : option float :=
  match PyFloat.of_int qty with
  | Some q => Some (PyFloat.round2 (PyFloat.mul unit_price q))
  | None => None
  end.

Definition hundred : float := PyFloat.decimal 100 0.
Definition one : float := PyFloat.decimal 1 0.

Definition register_sale (st : ledger) (client raw_client_type : string)
    (pid_lines qty_lines : list (option Z)) (now : Z) : ledger * outcome :=
  if decide (client = "") then (st, ClientRequired)
  else
    let client_type :=
      if decide (lower raw_client_type = "") then "regular" else lower raw_client_type in
    match choose_product_id (inventory st) pid_lines with
    | None => (st, Cancelled)
    | Some (pid, _) =>
        match inventory st !! pid with
        | None => (st, Raised KeyError)
        | Some product =>
            match safe_int (Some 1) None qty_lines with
            | None => (st, Cancelled)
            | Some (qty, _) =>
                if qty >? stock product then (st, InsufficientStock (stock product))
                else
                  let discount_pct := calculate_discount_pct client_type in
                  let unit_price := price product in
                  match revenue_calc unit_price qty with
                  | None => (st, Raised OverflowError)
                  | Some gross =>
                      let discount_amount :=
                        PyFloat.round2 (PyFloat.mul gross (PyFloat.div discount_pct hundred)) in
                      let net := PyFloat.round2 (PyFloat.sub gross discount_amount) in
                      let product' := set_stock (stock product - qty) product in
                      let sale :=
                        Sale (next_sale_id st) client client_type pid (name product')
                             (brand product') qty unit_price discount_pct now gross net in
                      (Ledger (<[pid := product']> (inventory st)) (sales st ++ [sale])
                              (next_product_id st) (next_sale_id st + 1),
                       SaleRecorded sale)
                  end
            end
        end
    end.

(** ** Reports *)

(** [sold = defaultdict(int)] with [sold[k] += q]: a dict keeps its keys in
    the order in which they were first inserted. *)
Fixpoint dict_add (k q : Z) (d : list (Z * Z)) : list (Z * Z) :=
  match d with
  | [] => [(k, 0 + q)]
  | (k', v) :: d' =>
      if decide (k' = k) then (k', v + q) :: d' else (k', v) :: dict_add k q d'
  end.

Definition count_sold (log : list sale) : list (Z * Z) :=
  fold_left (fun d s => dict_add (product_id s) (quantity s) d) log [].

(** [sold.get(pid, 0)]. *)
Fixpoint dict_get (d : list (Z * Z)) (k : Z) (default : Z) : Z :=
  match d with
  | [] => default
  | (k', v) :: d' => if decide (k' = k) then v else dict_get d' k default
  end.

(** [sorted(items, key=lambda kv: kv[1], reverse=True)]: a stable sort, the
    larger value first; items of equal value keep their order. *)
Fixpoint insert_desc (x : Z * Z) (l : list (Z * Z)) : list (Z * Z) :=
  match l with
  | [] => [x]
  | y :: l' => if x.2 >=? y.2 then x :: y :: l' else y :: insert_desc x l'
  end.

Definition sorted_desc (items : list (Z * Z)) : list (Z * Z) :=
  foldr insert_desc [] items.

(** A line of the Top-N report: rank, product name, product id, units. *)
Record top_line := TopLine {
  top_rank : Z;
  top_name : string;
  top_pid : Z;
  top_qty : Z
}.

Definition label_of (inv : gmap Z product) (pid : Z) : string :=
  match inv !! pid with
  | Some prod => name prod
  | None => "Deleted product"
  end.

Fixpoint enumerate_top (inv : gmap Z product) (rank : Z) (l : list (Z * Z))
  : list top_line :=
  match l with
  | [] => []
  | (pid, qty) :: l' => TopLine rank (label_of inv pid) pid qty :: enumerate_top inv (rank + 1) l'
  end.

(** [top_n_products]: [None] is "No sales to report." *)
Definition top_n_products (n : nat) (st : ledger) : option (list top_line) :=
  let sold := count_sold (sales st) in
  match sold with
  | [] => None
  | _ => Some (enumerate_top (inventory st) 1 (take n (sorted_desc sold)))
  end.

(** Floats added from left to right, starting from the integer 0: what
    [acc += x] in a loop computes, and the builtin [sum] up to CPython
    3.11. *)
Definition py_sum (l : list float) : float :=
  fold_left PyFloat.add l (PyFloat.decimal 0 0).

(** The builtin [sum] of CPython 3.12 and later, once the running sum [f] is
    a float: Neumaier's compensated summation. Next to [f] a correction [c]
    collects the rounding error of every addition, [(f - t) + x] when
    [fabs(f) >= fabs(x)] and [(x - t) + f] otherwise; at the end the
    correction is added to the sum when it is a finite number other than
    zero. *)
Fixpoint neumaier (f c : float) (l : list float) : float :=
  match l with
  | [] => match c with
          | S754_finite _ _ _ => PyFloat.add f c
          | _ => f
          end
  | x :: l' =>
      let t := PyFloat.add f x in
      let d := if SFleb (SFabs x) (SFabs f)
               then PyFloat.add (PyFloat.sub f t) x
               else PyFloat.add (PyFloat.sub x t) f in
      neumaier t (PyFloat.add c d) l'
  end.

(** The builtin [sum] belongs to the interpreter, not to the program: it
    adds floats from left to right up to CPython 3.11 and with compensation
    from CPython 3.12 on. In both the first item is added to the integer 0
    like any two numbers. *)
Inductive summation := LeftToRight | Compensated.

Definition builtin_sum (v : summation) (l : list float) : float :=
  match v with
  | LeftToRight => py_sum l
  | Compensated =>
      match l with
      | [] => PyFloat.decimal 0 0
      | x :: l' => neumaier (PyFloat.add (PyFloat.decimal 0 0) x) (PyFloat.decimal 0 0) l'
      end
  end.

Record income := Income {
  total_gross : float;
  total_discount : float;
  total_net : float
}.

(** [income_report]: the three totals and the three lines printed from
    them; [None] is "No sales to report." *)
Definition income_totals (v : summation) (log : list sale) : income :=
  let total_gross := builtin_sum v (gross <$> log) in
  let total_net := builtin_sum v (net <$> log) in
  Income total_gross (PyFloat.round2 (PyFloat.sub total_gross total_net)) total_net.

Definition income_lines (r : income) : list string :=
  [ " - Total gross revenue: $" +:+ PyFloat.format_2f (total_gross r);
    " - Total discounts:     $" +:+ PyFloat.format_2f (total_discount r);
    " - Total net revenue:   $" +:+ PyFloat.format_2f (total_net r) ].

Definition income_report (v : summation) (st : ledger) : option (income * list string) :=
  match sales st with
  | [] => None
  | _ => let r := income_totals v (sales st) in Some (r, income_lines r)
  end.

(** A line of the inventory-performance report. *)
Record perf_line := PerfLine {
  perf_name : string;
  perf_sold : Z;
  perf_initial : Z;
  perf_left : Z;
  perf_turnover : float;
  perf_status : string
}.

(** [(sold_qty / initial * 100) if initial > 0 else 0.0]; [None] when the
    division overflows. *)
Definition turnover_pct (sold_qty initial : Z) : option float :=
  if initial >? 0 then
    match PyFloat.int_true_divide sold_qty initial with
    | Some q => Some (PyFloat.mul q hundred)
    | None => None
    end
  else Some (PyFloat.decimal 0 0).

Definition status_of (remaining : Z) (turnover : float) : string :=
  if remaining =? 0 then "OUT OF STOCK"
  else if PyFloat.gtb turnover (PyFloat.decimal 50 0) then "FAST MOVING"
  else if PyFloat.ltb turnover (PyFloat.decimal 10 0) then "SLOW MOVING"
  else "OK".

Definition performance_line (sold : list (Z * Z)) (pid : Z) (p : product)
  : option perf_line :=
  let initial := initial_stock p in
  let sold_qty := dict_get sold pid 0 in
  let remaining := stock p in
  match turnover_pct sold_qty initial with
  | Some t => Some (PerfLine (name p) sold_qty initial remaining t (status_of remaining t))
  | None => None
  end.

(** The products of the catalog in the order in which [inventory.items()]
    yields them. A dict yields its keys in the order of their insertion:
    the seed is written by ascending id, a registration inserts the value of
    a counter that only grows, a deletion keeps the order of the other keys
    and an update assigns to the fields of a product in place. The catalog
    is therefore visited by ascending id. *)
Definition id_le (a b : Z * product) : Prop := a.1 <= b.1.

#[global] Instance id_le_dec (a b : Z * product) : Decision (id_le a b) :=
  decide (a.1 <= b.1).

Definition catalog_items (inv : gmap Z product) : list (Z * product) :=
  merge_sort id_le (map_to_list inv).

(** The loop of [inventory_performance]: the lines printed, and the
    exception that ended the loop if there is one. The division is not
    guarded: when it raises for a product, no line is printed for that
    product nor for the ones after it. *)
Fixpoint performance_loop (sold : list (Z * Z)) (items : list (Z * product))
  : list (Z * perf_line) * option exn :=
  match items with
  | [] => ([], None)
  | (pid, p) :: rest =>
      match performance_line sold pid p with
      | None => ([], Some OverflowError)
      | Some l =>
          let r := performance_loop sold rest in
          ((pid, l) :: r.1, r.2)
      end
  end.

(** [inventory_performance]: "No inventory.", or the lines printed, by
    product id, and the exception that reaches the caller. *)
Inductive performance_report :=
  | NoInventory
  | Performance (lines : list (Z * perf_line)) (raised : option exn).

Definition inventory_performance (st : ledger) : performance_report :=
  if decide (inventory st = ∅) then NoInventory
  else
    let r := performance_loop (count_sold (sales st)) (catalog_items (inventory st)) in
    Performance r.1 r.2.

(** ** Utilities and menu *)

Record demo_sale := Demo {
  demo_client : string;
  demo_client_type : string;
  demo_product_id : Z;
  demo_quantity : Z
}.

Definition demo : list demo_sale :=
  [ Demo "Alice" "vip" 1 3;
    Demo "Bob" "regular" 2 5;
    Demo "Charlie Co." "wholesale" 5 20;
    Demo "Diana" "employee" 3 1;
    Demo "Eve" "regular" 4 2 ].

(** The loop of [preload_demo_sales] over the entries that are left.
    [clock] gives the time at which the sale of a given id is recorded. *)
Fixpoint preload_loop (clock : Z -> Z) (entries : list demo_sale) (st : ledger)
  : ledger * outcome :=
  match entries with
  | [] => (st, Preloaded)
  | d :: rest =>
      let pid := demo_product_id d in
      match inventory st !! pid with
      | None => preload_loop clock rest st
      | Some p =>
          let qty := Z.min (demo_quantity d) (stock p) in
          if qty <=? 0 then preload_loop clock rest st
          else
            let discount_pct := calculate_discount_pct (demo_client_type d) in
            match revenue_calc (price p) qty with
            | None => (st, Raised OverflowError)
            | Some gross =>
                let net :=
                  PyFloat.round2
                    (PyFloat.mul gross (PyFloat.sub one (PyFloat.div discount_pct hundred))) in
                let p' := set_stock (stock p - qty) p in
                let sale :=
                  Sale (next_sale_id st) (demo_client d) (demo_client_type d) pid (name p')
                       (brand p') qty (price p') discount_pct (clock (next_sale_id st))
                       gross net in
                preload_loop clock rest
                  (Ledger (<[pid := p']> (inventory st)) (sales st ++ [sale])
                          (next_product_id st) (next_sale_id st + 1))
            end
      end
  end.

Definition preload_demo_sales (clock : Z -> Z) (st : ledger) : ledger * outcome :=
  preload_loop clock demo st.

(** A choice of the main menu that can change the ledger, with what the
    user types for it. *)
Inductive command :=
  | RegisterProduct (name brand category : string) (price_lines : list (option float))
                    (stock_lines warranty_lines : list (option Z))
  | UpdateProduct (pid_lines : list (option Z)) (name brand category : string)
                  (price_input : field_input float)
                  (stock_input warranty_input : field_input Z)
  | DeleteProduct (pid_lines : list (option Z)) (confirm : string)
  | RegisterSale (client raw_client_type : string) (pid_lines qty_lines : list (option Z))
                 (now : Z)
  | PreloadDemoSales (clock : Z -> Z).

Definition run (st : ledger) (c : command) : ledger * outcome :=
  match c with
  | RegisterProduct n b c pl sl wl => register_product st n b c pl sl wl
  | UpdateProduct il n b c pi si wi => update_product st il n b c pi si wi
  | DeleteProduct il confirm => delete_product st il confirm
  | RegisterSale cl ct il ql now => register_sale st cl ct il ql now
  | PreloadDemoSales clock => preload_demo_sales clock st
  end.

(** The ledger after a sequence of commands. *)
Definition run_all (st : ledger) (cmds : list command) : ledger :=
  fold_left (fun st c => (run st c).1) cmds st.

(** [main_menu]: the demo sales are recorded before the first menu is
    shown; [startup] is the ledger at that point. *)
Definition startup (clock : Z -> Z) : ledger :=
  (preload_demo_sales clock initial_ledger).1.

Definition main_menu (clock : Z -> Z) (cmds : list command) : ledger :=
  run_all (startup clock) cmds.

(** ** Vocabulary of the statements

    Reference notions the properties below are stated with; none of them is
    used by the operations above. *)

(** The units of product [pid] sold in a sales log. *)
Fixpoint units_sold (pid : Z) (log : list sale) : Z :=
  match log with
  | [] => 0
  | s :: log' => (if decide (product_id s = pid) then quantity s else 0) + units_sold pid log'
  end.

(** The distinct elements of a list in the order in which they first occur. *)
Definition first_seen (l : list Z) : list Z :=
  fold_left (fun seen x => if decide (x ∈ seen) then seen else seen ++ [x]) l [].

(** The larger total first. *)
Definition by_quantity_desc (x y : Z * Z) : Prop := y.2 <= x.2.

(** The quantity a demo entry sells from a catalog: the requested one capped
    by the stock, and nothing when the product is missing or nothing is left. *)
Definition demo_units (inv : gmap Z product) (d : demo_sale) : option Z :=
  match inv !! demo_product_id d with
  | Some p =>
      let q := Z.min (demo_quantity d) (stock p) in
      if q <=? 0 then None else Some q
  | None => None
  end.

(** What a demo entry puts in the log: client, client type, product id and
    the units sold, when something is sold at all. *)
Definition demo_record (inv : gmap Z product) (d : demo_sale)
  : option (string * string * Z * Z) :=
  match demo_units inv d with
  | Some q => Some (demo_client d, demo_client_type d, demo_product_id d, q)
  | None => None
  end.

Definition sale_record (s : sale) : string * string * Z * Z :=
  (client s, client_type s, product_id s, quantity s).

(** Every product of the catalog has a stock of at least zero. *)
Definition stock_nonneg (st : ledger) : Prop :=
  forall pid p, inventory st !! pid = Some p -> 0 <= stock p.

(** The amounts of a sale as [register_sale] computes them. *)
Definition sale_amounts (s : sale) : Prop :=
  exists q,
    PyFloat.of_int (quantity s) = Some q /\
    discount_pct s = calculate_discount_pct (client_type s) /\
    gross s = PyFloat.round2 (PyFloat.mul (unit_price s) q) /\
    net s = PyFloat.round2
              (PyFloat.sub (gross s)
                 (PyFloat.round2
                    (PyFloat.mul (gross s) (PyFloat.div (discount_pct s) hundred)))).

(** The amounts of a sale as [preload_demo_sales] computes them. *)
Definition demo_amounts (s : sale) : Prop :=
  exists q,
    PyFloat.of_int (quantity s) = Some q /\
    discount_pct s = calculate_discount_pct (client_type s) /\
    gross s = PyFloat.round2 (PyFloat.mul (unit_price s) q) /\
    net s = PyFloat.round2
              (PyFloat.mul (gross s)
                 (PyFloat.sub one (PyFloat.div (discount_pct s) hundred))).

(** The net amount as the formula [round(gross * (1 - discount/100), 2)]. *)
Definition net_by_factor (s : sale) : float :=
  PyFloat.round2
    (PyFloat.mul (gross s) (PyFloat.sub one (PyFloat.div (discount_pct s) hundred))).

(** The division [sold_qty / initial] of the turnover of a product raises
    [OverflowError]. *)
Definition turnover_overflows (log : list sale) (pid : Z) (p : product) : Prop :=
  initial_stock p > 0 /\
  PyFloat.int_true_divide (units_sold pid log) (initial_stock p) = None.


(** *** Exact values of floats

    The notions the numerical properties are stated with. *)

(** The position of [N / D] between the integers around it. *)
Definition loc_of (N D : Z) : location :=
  if N mod D =? 0 then loc_Exact else loc_Inexact (2 * (N mod D) ?= D).

(** The value of a finite float counted in units of [2^-1074], the smallest
    positive binary64 number; zeros count for nothing. *)
Definition units (x : float) : Z :=
  match x with
  | S754_finite s m e => cond_Zopp s (Zpos m * 2 ^ (e + 1074))
  | _ => 0
  end.

(** A zero or a finite number that is a whole number of units. *)
Definition representable (x : float) : Prop :=
  match x with
  | S754_zero _ => True
  | S754_finite _ _ e => -1074 <= e
  | _ => False
  end.

Definition nonneg_float (x : float) : Prop :=
  match x with
  | S754_zero s => s = false
  | S754_finite s _ e => s = false /\ -1074 <= e
  | _ => False
  end.

Definition total_units (xs : list float) : Z :=
  foldr (fun x acc => units x + acc) 0 xs.

(** The amount of [c] cents as the program holds it: the double nearest to
    [c / 100], which is what [round(x, 2)] returns and what the literal
    reads as. *)
Definition of_cents (c : Z) : float := PyFloat.decimal c 2.

(** An amount of [c] cents written with two decimals. *)
Definition cents_text (c : Z) : string :=
  pretty (c / 100) +:+ "." +:+ (if c mod 100 <? 10 then "0" else "") +:+ pretty (c mod 100).

Definition sum_cents (cs : list Z) : Z := foldr Z.add 0 cs.


(** ** Sales by brand *)

(** [revenue = defaultdict(float)] with [revenue[k] += x]: a missing key
    starts at [0.0]; the keys stay in the order of their first insertion. *)
Fixpoint revenue_add (k : string) (x : float) (d : list (string * float))
  : list (string * float) :=
  match d with
  | [] => [(k, PyFloat.add (PyFloat.decimal 0 0) x)]
  | (k', v) :: d' =>
      if decide (k' = k) then (k', PyFloat.add v x) :: d' else (k', v) :: revenue_add k x d'
  end.

Definition revenue_by_brand (log : list sale) : list (string * float) :=
  fold_left (fun d s => revenue_add (sale_brand s) (net s) d) log [].

Definition is_nan (x : float) : bool :=
  match x with
  | S754_nan => true
  | _ => false
  end.

(** [sorted(revenue.items(), key=lambda kv: kv[1], reverse=True)] on float
    totals. The sort only asks whether one total is less than another; when
    no total is a NaN this is a total preorder and the result is the stable
    descending order computed here. *)
Fixpoint insert_amount_desc (x : string * float) (l : list (string * float))
  : list (string * float) :=
  match l with
  | [] => [x]
  | y :: l' => if PyFloat.ltb x.2 y.2 then y :: insert_amount_desc x l' else x :: y :: l'
  end.

Definition sorted_amount_desc (items : list (string * float)) : list (string * float) :=
  foldr insert_amount_desc [] items.

(** What [sales_by_brand] prints: "No sales to report.", or the brands
    with their totals. With a NaN among the totals the order of the lines
    depends on the steps of the sorting algorithm and is left out. *)
Inductive brand_report :=
  | NoSales
  | TotalsWithNaN (revenue : list (string * float))
  | BrandTotals (lines : list (string * float)).

Definition sales_by_brand (st : ledger) : brand_report :=
  let revenue := revenue_by_brand (sales st) in
  match revenue with
  | [] => NoSales
  | _ => if existsb (fun kv => is_nan kv.2) revenue then TotalsWithNaN revenue
         else BrandTotals (sorted_amount_desc revenue)
  end.

(** ** Vocabulary of the invariants *)

(** The fields of a product that registration and update validate. *)
Definition product_ok (p : product) : Prop :=
  name p <> "" /\ brand p <> "" /\ category p <> "" /\
  PyFloat.ltb (price p) (PyFloat.decimal 0 0) = false /\
  0 <= warranty_months p /\ 0 <= initial_stock p.

(** One change of the ledger: a product registered, a product updated, a
    product deleted, or one sale recorded. *)
Inductive change (st : ledger) : ledger -> Prop :=
  | change_registered (p : product) :
      product_ok p -> stock p = initial_stock p ->
      change st (Ledger (<[next_product_id st := p]> (inventory st)) (sales st)
                        (next_product_id st + 1) (next_sale_id st))
  | change_updated (pid : Z) (p : product) (n b c : string)
                   (price_input : field_input float)
                   (stock_input warranty_input : field_input Z) :
      inventory st !! pid = Some p ->
      change st (Ledger (<[pid := apply_update n b c price_input stock_input warranty_input p]>
                           (inventory st))
                        (sales st) (next_product_id st) (next_sale_id st))
  | change_deleted (pid : Z) :
      is_Some (inventory st !! pid) -> referenced pid (sales st) = false ->
      change st (Ledger (delete pid (inventory st)) (sales st)
                        (next_product_id st) (next_sale_id st))
  | change_sold (pid : Z) (p : product) (s : sale) :
      inventory st !! pid = Some p ->
      product_id s = pid -> sale_id s = next_sale_id st ->
      1 <= quantity s <= stock p -> client s <> "" ->
      discount_pct s = calculate_discount_pct (client_type s) ->
      unit_price s = price p -> product_name s = name p -> sale_brand s = brand p ->
      change st (Ledger (<[pid := set_stock (stock p - quantity s) p]> (inventory st))
                        (sales st ++ [s]) (next_product_id st) (next_sale_id st + 1)).

(** A command that can set the stock of a product directly. *)
Definition edits_stock (c : command) : bool :=
  match c with
  | UpdateProduct _ _ _ _ _ (Value _) _ => true
  | _ => false
  end.

(** The total of the quantities of a sales log, and of a table of totals. *)
Definition total_quantity (log : list sale) : Z :=
  foldr (fun s acc => quantity s + acc) 0 log.

Definition table_total (d : list (Z * Z)) : Z :=
  foldr (fun kv acc => kv.2 + acc) 0 d.

(** A line a prompt does not accept: blank or malformed, or out of bounds
    (for [choose_product_id]: not an id of the catalog). *)
Definition int_rejected (min_val max_val : option Z) (line : option Z) : bool :=
  match line with
  | None => true
  | Some k => int_below k min_val || int_above k max_val
  end.

Definition float_rejected (min_val max_val : option float) (line : option float) : bool :=
  match line with
  | None => true
  | Some f => below f min_val || above f max_val
  end.

Definition id_rejected (inv : gmap Z product) (line : option Z) : bool :=
  match line with
  | None => true
  | Some k => negb (bool_decide (is_Some (inv !! k)))
  end.

(** The stock of every product is its initial stock less the units sold. *)
Definition stock_conserved (st : ledger) : Prop :=
  forall pid p, inventory st !! pid = Some p ->
                stock p + units_sold pid (sales st) = initial_stock p.


(** No total is less than the one before it. *)
Definition by_amount_desc (x y : string * float) : Prop := PyFloat.ltb x.2 y.2 = false.

(** ** The calculator (nivel2/calculadora.py) and the addition prompt
    (nivel1/suma.py) *)

(** [a / b] on floats: [ZeroDivisionError] ([None]) when the divisor is a
    zero of either sign. *)
Definition float_truediv (a b : float) : option float :=
  match b with
  | S754_zero _ => None
  | _ => Some (PyFloat.div a b)
  end.

(** What an operation of the calculator returns: a number or a text. *)
Inductive calc_value :=
  | Num (x : float)
  | Text (s : string).

Definition sumar (a b : float) : option calc_value := Some (Num (PyFloat.add a b)).
Definition restar (a b : float) : option calc_value := Some (Num (PyFloat.sub a b)).
Definition multiplicar (a b : float) : option calc_value := Some (Num (PyFloat.mul a b)).

(** [division]: the test is [b == 0], a comparison of the float with the
    integer 0. *)
Definition division (a b : float) : option calc_value :=
  if SFeqb b (PyFloat.decimal 0 0) then Some (Text "Error: No se puede dividir por 0")
  else match float_truediv a b with
       | Some q => Some (Num q)
       | None => None
       end.

(** The dict [operaciones], looked up with an option between 1 and 4. *)
Definition operaciones (opcion : Z) : option (float -> float -> option calc_value) :=
  if opcion =? 1 then Some sumar
  else if opcion =? 2 then Some restar
  else if opcion =? 3 then Some multiplicar
  else if opcion =? 4 then Some division
  else None.

(** A typed line, as [int(...)] and as [float(...)] convert it ([None] for
    [ValueError]). *)
Record typed_line := Typed {
  as_int : option Z;
  as_float : option float
}.

Inductive calc_output :=
  | InvalidNumber                   (* "Ingresa un numero valido." *)
  | InvalidOption                   (* "Opcion no valida." *)
  | InvalidNumbers                  (* "Debes ingresar numeros validos." *)
  | Leaving                         (* "Saliendo del programa..." *)
  | Result (v : calc_value).        (* "El resultado es: ..." *)

Inductive calc_end :=
  | Exited                          (* option 5 *)
  | EndOfInput                      (* [input] has nothing left to read *)
  | Crashed.                        (* an exception of an operation *)

(** [opcion not in (1, 2, 3, 4)]. *)
Definition valid_option (opcion : Z) : bool :=
  (opcion =? 1) || (opcion =? 2) || (opcion =? 3) || (opcion =? 4).

(** The loop of the calculator over the lines typed. *)
Fixpoint calculadora (tape : list typed_line) : list calc_output * calc_end :=
  match tape with
  | [] => ([], EndOfInput)
  | l :: t =>
      match as_int l with
      | None => let r := calculadora t in (InvalidNumber :: r.1, r.2)
      | Some opcion =>
          if opcion =? 5 then ([Leaving], Exited)
          else if negb (valid_option opcion) then
            let r := calculadora t in (InvalidOption :: r.1, r.2)
          else
            match t with
            | [] => ([], EndOfInput)
            | l1 :: t1 =>
                match as_float l1 with
                | None => let r := calculadora t1 in (InvalidNumbers :: r.1, r.2)
                | Some num1 =>
                    match t1 with
                    | [] => ([], EndOfInput)
                    | l2 :: t2 =>
                        match as_float l2 with
                        | None => let r := calculadora t2 in (InvalidNumbers :: r.1, r.2)
                        | Some num2 =>
                            match operaciones opcion with
                            | None => ([], Crashed)
                            | Some operacion =>
                                match operacion num1 num2 with
                                | None => ([], Crashed)
                                | Some resultado =>
                                    let r := calculadora t2 in
                                    (Result resultado :: r.1, r.2)
                                end
                            end
                        end
                    end
                end
            end
      end
  end.

(** The loop of [suma.py]: the two numbers are asked again from the start
    whenever one of them is malformed; the result is their sum. *)
Fixpoint suma (tape : list (option float)) : option float :=
  match tape with
  | [] => None
  | None :: t => suma t
  | Some num1 :: t =>
      match t with
      | [] => None
      | None :: t' => suma t'
      | Some num2 :: _ => Some (PyFloat.add num1 num2)
      end
  end.

(** Lines used up by attempts of [suma.py] that failed: a malformed first
    number, or a first number followed by a malformed second one. *)
Inductive failed_attempts : list (option float) -> Prop :=
  | failed_none : failed_attempts []
  | failed_first (t : list (option float)) :
      failed_attempts t -> failed_attempts (None :: t)
  | failed_second (num1 : float) (t : list (option float)) :
      failed_attempts t -> failed_attempts (Some num1 :: None :: t).

(** * Properties *)

(** ** Floats

    Values of the float operations, as the interpreter gives them. *)

Example decimal_79_99 : PyFloat.decimal 7999 2 = S754_finite false 5628795846771343 (-46).
Proof. vm_compute. reflexivity. Qed.

Example round2_below_half : PyFloat.round2 (PyFloat.decimal 2675 3) = PyFloat.decimal 267 2.
Proof. vm_compute. reflexivity. Qed.

Example round2_above_half : PyFloat.round2 (PyFloat.decimal 25 3) = PyFloat.decimal 3 2.
Proof. vm_compute. reflexivity. Qed.

Example round2_tie_to_even : PyFloat.round2 (PyFloat.decimal 125 3) = PyFloat.decimal 12 2.
Proof. vm_compute. reflexivity. Qed.

Example format_2f_1_005 : PyFloat.format_2f (PyFloat.decimal 1005 3) = "1.00".
Proof. vm_compute. reflexivity. Qed.

Example of_int_overflow :
  PyFloat.of_int (2 ^ 1024) = None /\
  PyFloat.of_int (2 ^ 1024 - 2 ^ 970 - 1) = Some (S754_finite false 9007199254740991 971).
Proof. split; vm_compute; reflexivity. Qed.

Example int_true_divide_tenth :
  PyFloat.int_true_divide 3 30 = Some (PyFloat.decimal 1 1) /\
  PyFloat.mul (PyFloat.decimal 1 1) hundred = PyFloat.decimal 10 0.
Proof. split; vm_compute; reflexivity. Qed.

(** ** Rounding to a binary64 number

    What one rounding of [SpecFloat] does to an exact value, and what
    follows for sums of amounts. *)


Lemma digits2_pos_bounds (m : positive) :
  2 ^ (Zpos (digits2_pos m) - 1) <= Zpos m < 2 ^ Zpos (digits2_pos m).
Proof.
  induction m as [m IH|m IH|]; cbn [digits2_pos].
  - rewrite Pos2Z.inj_succ.
    replace (Z.succ (Zpos (digits2_pos m)) - 1) with (Z.succ (Zpos (digits2_pos m) - 1)) by lia.
    rewrite !Z.pow_succ_r by lia. lia.
  - rewrite Pos2Z.inj_succ.
    replace (Z.succ (Zpos (digits2_pos m)) - 1) with (Z.succ (Zpos (digits2_pos m) - 1)) by lia.
    rewrite !Z.pow_succ_r by lia. lia.
  - simpl. lia.
Qed.

Lemma Zdigits2_nonneg (m : Z) : 0 <= Zdigits2 m.
Proof. destruct m; simpl; lia. Qed.

Lemma Zdigits2_bounds (m : Z) :
  0 < m -> 2 ^ (Zdigits2 m - 1) <= m < 2 ^ Zdigits2 m.
Proof.
  destruct m as [|m|m]; try lia. intros _. apply digits2_pos_bounds.
Qed.

Lemma Zdigits2_le (m B : Z) : 0 <= B -> 0 <= m < 2 ^ B -> Zdigits2 m <= B.
Proof.
  intros HB [Hm Hlt].
  destruct (Z.eq_dec m 0) as [->|Hne]; [simpl; lia|].
  pose proof (Zdigits2_bounds m ltac:(lia)) as [Hlo _].
  pose proof (Zdigits2_nonneg m).
  destruct (Z.le_gt_cases (Zdigits2 m) B) as [|Hgt]; [assumption|].
  assert (2 ^ B <= 2 ^ (Zdigits2 m - 1)) by (apply Z.pow_le_mono_r; lia).
  lia.
Qed.

Lemma Zdigits2_gt (m B : Z) : 0 <= B -> 2 ^ B <= m -> B < Zdigits2 m.
Proof.
  intros HB Hle.
  assert (0 < m) by (pose proof (Z.pow_pos_nonneg 2 B); lia).
  pose proof (Zdigits2_bounds m ltac:(lia)) as [_ Hhi].
  pose proof (Zdigits2_nonneg m).
  destruct (Z.lt_ge_cases B (Zdigits2 m)) as [|Hge]; [assumption|].
  assert (2 ^ Zdigits2 m <= 2 ^ B) by (apply Z.pow_le_mono_r; lia).
  lia.
Qed.

Lemma loc_of_record (m : Z) (l : location) :
  loc_of_shr_record (shr_record_of_loc m l) = l /\ shr_m (shr_record_of_loc m l) = m.
Proof. destruct l as [|[]]; split; reflexivity. Qed.

(** One step of the shift to the right halves the mantissa and keeps track
    of the position of the exact value. *)
Lemma shr_1_loc (N D : Z) :
  0 <= N -> 0 < D ->
  shr_1 (shr_record_of_loc (N / D) (loc_of N D))
  = shr_record_of_loc (N / (2 * D)) (loc_of N (2 * D)).
Proof.
  intros HN HD. unfold loc_of.
  pose proof (Z.div_mod N D ltac:(lia)) as Hdm.
  pose proof (Z.mod_pos_bound N D HD) as Hr.
  pose proof (Z.div_pos N D HN HD) as Hq.
  set (m := N / D) in *. set (r := N mod D) in *. clearbody m r.
  assert (Hcase : (N / (2 * D) = m / 2 /\ N mod (2 * D) = D * (m mod 2) + r)).
  { pose proof (Z.div_mod m 2 ltac:(lia)) as Hm2.
    pose proof (Z.mod_pos_bound m 2 ltac:(lia)) as Hb.
    assert (Heq : N = 2 * D * (m / 2) + (D * (m mod 2) + r)) by nia.
    assert (Hrange : 0 <= D * (m mod 2) + r < 2 * D) by nia.
    split.
    - symmetry. apply (Z.div_unique N (2 * D) (m / 2) (D * (m mod 2) + r)); [lia | exact Heq].
    - symmetry. apply (Z.mod_unique N (2 * D) (m / 2) (D * (m mod 2) + r)); [lia | exact Heq]. }
  destruct Hcase as [Hq2 Hr2].
  rewrite Hq2, Hr2.
  destruct (Z.eqb_spec r 0) as [Hr0|Hr0].
  - (* exact before the step *)
    destruct m as [|[p|p|]|p]; try lia; cbn [shr_record_of_loc shr_1 orb].
    + change (0 / 2) with 0. change (0 mod 2) with 0.
      destruct (Z.eqb_spec (D * 0 + r) 0); [|lia]. reflexivity.
    + replace (Z.pos p~1 / 2) with (Z.pos p) by (apply (Z.div_unique _ 2 _ 1); lia).
      replace (Z.pos p~1 mod 2) with 1 by (apply (Z.mod_unique _ 2 (Z.pos p) 1); lia).
      destruct (Z.eqb_spec (D * 1 + r) 0); [lia|].
      replace (2 * (D * 1 + r) ?= 2 * D) with Eq by (symmetry; apply Z.compare_eq_iff; lia).
      reflexivity.
    + replace (Z.pos p~0 / 2) with (Z.pos p) by (apply (Z.div_unique _ 2 _ 0); lia).
      replace (Z.pos p~0 mod 2) with 0 by (apply (Z.mod_unique _ 2 (Z.pos p) 0); lia).
      destruct (Z.eqb_spec (D * 0 + r) 0); [|lia]. reflexivity.
    + change (1 / 2) with 0. change (1 mod 2) with 1.
      destruct (Z.eqb_spec (D * 1 + r) 0); [lia|].
      replace (2 * (D * 1 + r) ?= 2 * D) with Eq by (symmetry; apply Z.compare_eq_iff; lia).
      reflexivity.
  - (* inexact before the step *)
    assert (Hsticky : forall c, shr_1 (shr_record_of_loc m (loc_Inexact c))
                      = Build_shr_record (m / 2) (Z.odd m) true).
    { intros c. destruct m as [|[p|p|]|p]; try lia; destruct c; cbn [shr_record_of_loc shr_1 orb].
      all: repeat match goal with
             | |- context [Z.pos ?q~1 / 2] =>
                 replace (Z.pos q~1 / 2) with (Z.pos q)
                   by (apply (Z.div_unique _ 2 _ 1); lia)
             | |- context [Z.pos ?q~0 / 2] =>
                 replace (Z.pos q~0 / 2) with (Z.pos q)
                   by (apply (Z.div_unique _ 2 _ 0); lia)
             end.
      all: reflexivity. }
    rewrite Hsticky.
    pose proof (Zmod_odd m) as Hodd.
    destruct (Z.odd m); rewrite Hodd.
    + destruct (Z.eqb_spec (D * 1 + r) 0); [lia|].
      replace (2 * (D * 1 + r) ?= 2 * D) with Gt by (symmetry; apply Z.compare_gt_iff; lia).
      reflexivity.
    + destruct (Z.eqb_spec (D * 0 + r) 0); [lia|].
      replace (2 * (D * 0 + r) ?= 2 * D) with Lt by (symmetry; apply Z.compare_lt_iff; lia).
      reflexivity.
Qed.

Lemma iter_shr_1_loc (p : positive) (N D : Z) :
  0 <= N -> 0 < D ->
  SpecFloat.iter_pos shr_1 p (shr_record_of_loc (N / D) (loc_of N D))
  = shr_record_of_loc (N / (D * 2 ^ Zpos p)) (loc_of N (D * 2 ^ Zpos p)).
Proof.
  intros HN. revert D.
  induction p as [p IH|p IH|]; intros D HD; cbn [SpecFloat.iter_pos].
  - rewrite shr_1_loc by assumption.
    rewrite IH by lia.
    assert (0 < 2 ^ Zpos p) by (apply Z.pow_pos_nonneg; lia).
    rewrite IH by nia.
    replace (2 * D * 2 ^ Z.pos p * 2 ^ Z.pos p) with (D * 2 ^ Z.pos p~1); [reflexivity|].
    replace (Z.pos p~1) with (1 + Z.pos p + Z.pos p) by lia.
    rewrite !Z.pow_add_r, Z.pow_1_r by lia. ring.
  - rewrite IH by lia.
    assert (0 < 2 ^ Zpos p) by (apply Z.pow_pos_nonneg; lia).
    rewrite IH by nia.
    replace (D * 2 ^ Z.pos p * 2 ^ Z.pos p) with (D * 2 ^ Z.pos p~0); [reflexivity|].
    replace (Z.pos p~0) with (Z.pos p + Z.pos p) by lia.
    rewrite !Z.pow_add_r by lia. ring.
  - rewrite shr_1_loc by assumption.
    replace (D * 2 ^ 1) with (2 * D) by (rewrite Z.pow_1_r; ring). reflexivity.
Qed.

Lemma fexp_eq (e : Z) : fexp PyFloat.prec PyFloat.emax e = Z.max (e - 53) (-1074).
Proof. reflexivity. Qed.

(** The first shift of [binary_round_aux]. *)
Lemma shr_fexp_loc (N D e : Z) :
  0 <= N -> 0 < D ->
  let k := Z.max 0 (fexp PyFloat.prec PyFloat.emax (Zdigits2 (N / D) + e) - e) in
  shr_fexp PyFloat.prec PyFloat.emax (N / D) e (loc_of N D)
  = (shr_record_of_loc (N / (D * 2 ^ k)) (loc_of N (D * 2 ^ k)), e + k).
Proof.
  intros HN HD k. unfold shr_fexp, shr. subst k.
  destruct (fexp PyFloat.prec PyFloat.emax (Zdigits2 (N / D) + e) - e) as [|p|p] eqn:Hn.
  - change (Z.max 0 0) with 0. rewrite Z.pow_0_r, Z.mul_1_r, Z.add_0_r. reflexivity.
  - rewrite (Z.max_r 0 (Z.pos p)) by lia. now rewrite iter_shr_1_loc.
  - rewrite (Z.max_l 0 (Z.neg p)) by lia. rewrite Z.pow_0_r, Z.mul_1_r, Z.add_0_r. reflexivity.
Qed.

(** Rounding to nearest, ties to even. *)
Lemma round_nearest_even_loc (N D : Z) :
  0 <= N -> 0 < D ->
  let m := round_nearest_even (N / D) (loc_of N D) in
  N / D <= m <= N / D + 1 /\
  2 * Z.abs (m * D - N) <= D /\
  (N mod D = 0 -> m = N / D).
Proof.
  intros HN HD. cbv zeta. unfold loc_of.
  pose proof (Z.div_mod N D ltac:(lia)) as Hdm.
  pose proof (Z.mod_pos_bound N D HD) as Hr.
  set (q := N / D) in *. set (r := N mod D) in *. clearbody q r.
  destruct (Z.eqb_spec r 0) as [Hr0|Hr0]; cbn [round_nearest_even].
  - split; [lia|]. split; [nia|]. reflexivity.
  - destruct (Z.compare_spec (2 * r) D) as [Heq|Hlt|Hgt].
    + destruct (Z.even q); (split; [lia|]; split; [nia | lia]).
    + split; [lia|]. split; [nia | lia].
    + split; [lia|]. split; [nia | lia].
Qed.

(** [binary_round_aux] on a fraction [N / D] scaled by [2^e]: the fraction is
    shifted to the working precision, rounded to the nearest integer, and
    shifted once more when the rounding carried into a new digit. *)
Lemma binary_round_aux_loc (s : bool) (N D e : Z) :
  0 <= N -> 0 < D ->
  let k := Z.max 0 (fexp PyFloat.prec PyFloat.emax (Zdigits2 (N / D) + e) - e) in
  let m2 := round_nearest_even (N / (D * 2 ^ k)) (loc_of N (D * 2 ^ k)) in
  let k2 := Z.max 0 (fexp PyFloat.prec PyFloat.emax (Zdigits2 m2 + (e + k)) - (e + k)) in
  binary_round_aux PyFloat.prec PyFloat.emax s (N / D) e (loc_of N D)
  = match m2 / 2 ^ k2 with
    | Z0 => S754_zero s
    | Zpos m => if e + k + k2 <=? 971 then S754_finite s m (e + k + k2)
                else S754_infinity s
    | Zneg _ => S754_nan
    end.
Proof.
  intros HN HD k m2 k2. unfold binary_round_aux.
  rewrite shr_fexp_loc by assumption. fold k.
  destruct (loc_of_record (N / (D * 2 ^ k)) (loc_of N (D * 2 ^ k))) as [-> ->].
  fold m2.
  assert (Hm2 : 0 <= m2).
  { assert (0 < D * 2 ^ k) by (apply Z.mul_pos_pos; [lia | apply Z.pow_pos_nonneg; lia]).
    pose proof (round_nearest_even_loc N (D * 2 ^ k) HN ltac:(lia)) as [Hle _].
    fold m2 in Hle. pose proof (Z.div_pos N (D * 2 ^ k) HN ltac:(lia)). lia. }
  pose proof (shr_fexp_loc m2 1 (e + k) Hm2 ltac:(lia)) as Hshr.
  cbv zeta in Hshr. rewrite Z.div_1_r in Hshr.
  replace (loc_of m2 1) with loc_Exact in Hshr
    by (unfold loc_of; now rewrite Z.mod_1_r).
  rewrite Hshr. fold k2. rewrite Z.mul_1_l.
  destruct (loc_of_record (m2 / 2 ^ k2) (loc_of m2 (1 * 2 ^ k2))) as [_ Hm].
  rewrite Z.mul_1_l in Hm. rewrite Hm.
  reflexivity.
Qed.

Lemma carry_shift (m1 m2 e1 : Z) :
  0 <= m1 -> m1 <= m2 <= m1 + 1 ->
  fexp PyFloat.prec PyFloat.emax (Zdigits2 m1 + e1) <= e1 ->
  let k2 := Z.max 0 (fexp PyFloat.prec PyFloat.emax (Zdigits2 m2 + e1) - e1) in
  m2 / 2 ^ k2 * 2 ^ k2 = m2 /\ 0 <= k2 <= 1.
Proof.
  intros Hm1 Hm2 Hcan k2. subst k2. rewrite fexp_eq in *.
  pose proof (Zdigits2_nonneg m1) as Hd1.
  assert (Hlt : m1 < 2 ^ Zdigits2 m1).
  { destruct (Z.eq_dec m1 0) as [->|]; [simpl; lia|]. apply Zdigits2_bounds. lia. }
  destruct (Z_lt_le_dec m2 (2 ^ Zdigits2 m1)) as [Hsmall|Hcarry].
  - assert (Zdigits2 m2 <= Zdigits2 m1) by (apply Zdigits2_le; lia).
    rewrite Z.max_l by lia. rewrite Z.pow_0_r, Z.div_1_r. lia.
  - assert (Hpow : m2 = 2 ^ Zdigits2 m1) by lia.
    assert (Hd2 : Zdigits2 m2 <= Zdigits2 m1 + 1).
    { apply Zdigits2_le; [lia|]. rewrite Hpow, Z.pow_add_r, Z.pow_1_r by lia.
      pose proof (Z.pow_pos_nonneg 2 (Zdigits2 m1)). lia. }
    set (k2 := Z.max 0 (Z.max (Zdigits2 m2 + e1 - 53) (-1074) - e1)).
    assert (Hk2 : 0 <= k2 <= 1) by (subst k2; lia).
    split; [|exact Hk2].
    destruct (Z.eq_dec k2 0) as [->|Hk].
    + rewrite Z.pow_0_r, Z.div_1_r. lia.
    + assert (Hk1 : k2 = 1) by lia. rewrite Hk1, Z.pow_1_r.
      destruct (Z.eq_dec (Zdigits2 m1) 0) as [Hz|Hnz].
      * exfalso. rewrite Hz in *. rewrite Z.pow_0_r in Hpow. subst m2.
        change (Zdigits2 1) with 1 in *. subst k2. lia.
      * rewrite Hpow.
        replace (Zdigits2 m1) with (Z.succ (Zdigits2 m1 - 1)) by lia.
        rewrite Z.pow_succ_r by lia.
        rewrite (Z.mul_comm 2), Z.div_mul by lia. reflexivity.
Qed.

Lemma first_shift_canonical (m e : Z) :
  0 <= m ->
  let k := Z.max 0 (fexp PyFloat.prec PyFloat.emax (Zdigits2 m + e) - e) in
  fexp PyFloat.prec PyFloat.emax (Zdigits2 (m / 2 ^ k) + (e + k)) <= e + k.
Proof.
  intros Hm k. subst k. rewrite !fexp_eq.
  pose proof (Zdigits2_nonneg m) as Hd.
  set (k := Z.max 0 (Z.max (Zdigits2 m + e - 53) (-1074) - e)).
  assert (Hk : 0 <= k) by (subst k; lia).
  assert (Hlt : m < 2 ^ Zdigits2 m).
  { destruct (Z.eq_dec m 0) as [->|]; [simpl; lia|]. apply Zdigits2_bounds. lia. }
  assert (Hdk : Zdigits2 (m / 2 ^ k) <= Z.max 0 (Zdigits2 m - k)).
  { assert (0 < 2 ^ k) by (apply Z.pow_pos_nonneg; lia).
    destruct (Z_le_gt_dec k (Zdigits2 m)) as [Hle|Hgt].
    - rewrite Z.max_r by lia. apply Zdigits2_le; [lia|].
      split; [apply Z.div_pos; lia|].
      apply Z.div_lt_upper_bound; [lia|].
      rewrite <- Z.pow_add_r by lia. now replace (k + (Zdigits2 m - k)) with (Zdigits2 m) by lia.
    - rewrite Z.div_small; [simpl; lia|].
      split; [lia|]. assert (2 ^ Zdigits2 m <= 2 ^ k) by (apply Z.pow_le_mono_r; lia). lia. }
  subst k. lia.
Qed.

Lemma cond_Zopp_abs (s : bool) (v : Z) : 0 <= v -> Z.abs (cond_Zopp s v) = v.
Proof. destruct s; simpl; lia. Qed.

(** The result of [binary_round_aux] on the fraction [N / D] scaled by
    [2^e], of magnitude below [2^B] units: a representable number with the
    sign asked for, within half a unit in the last place of the exact value
    and, unless the fraction is shorter than 53 bits and inexact, within
    [2^-53] of it in relative terms. *)
Lemma binary_round_aux_units (s : bool) (N D e B : Z) :
  0 <= N -> 0 < D -> -1074 <= e -> e + 1074 <= B -> B <= 2045 ->
  N * 2 ^ (e + 1074) < D * 2 ^ B ->
  let z := binary_round_aux PyFloat.prec PyFloat.emax s (N / D) e (loc_of N D) in
  representable z /\
  units z = cond_Zopp s (Z.abs (units z)) /\
  (53 <= Zdigits2 (N / D) \/ N mod D = 0 ->
   2 ^ 53 * Z.abs (Z.abs (units z) * D - N * 2 ^ (e + 1074)) <= N * 2 ^ (e + 1074)) /\
  Z.abs (units z) < 2 ^ (B + 1).
Proof.
  intros HN HD He HeB HB Hmag z. subst z.
  rewrite binary_round_aux_loc by assumption.
  set (k := Z.max 0 (fexp PyFloat.prec PyFloat.emax (Zdigits2 (N / D) + e) - e)).
  set (m2 := round_nearest_even (N / (D * 2 ^ k)) (loc_of N (D * 2 ^ k))).
  set (k2 := Z.max 0 (fexp PyFloat.prec PyFloat.emax (Zdigits2 m2 + (e + k)) - (e + k))).
  assert (Hk : 0 <= k) by (subst k; lia).
  set (K := 2 ^ k). set (E := 2 ^ (e + 1074)).
  assert (HK : 0 < K) by (apply Z.pow_pos_nonneg; lia).
  assert (HE : 0 < E) by (apply Z.pow_pos_nonneg; lia).
  assert (HDK : 0 < D * K) by (apply Z.mul_pos_pos; lia).
  pose proof (round_nearest_even_loc N (D * K) HN HDK) as (Hm12 & Hhalf & Hexact).
  fold K in m2. fold m2 in Hm12, Hhalf, Hexact.
  assert (Hdiv : N / (D * K) = N / D / K) by (rewrite Z.div_div by lia; reflexivity).
  assert (Hm1 : 0 <= N / (D * K)) by (apply Z.div_pos; lia).
  pose proof (first_shift_canonical (N / D) e ltac:(apply Z.div_pos; lia)) as Hcan.
  cbv zeta in Hcan. fold k in Hcan. fold K in Hcan. rewrite <- Hdiv in Hcan.
  pose proof (carry_shift (N / (D * K)) m2 (e + k) Hm1 Hm12 Hcan) as [Hm3 Hk2].
  cbv zeta in Hm3, Hk2. fold k2 in Hm3, Hk2.
  (* the normal case *)
  assert (Hnormal : 0 < k -> 2 ^ 52 * (D * K) <= N).
  { intros Hpos. subst k. rewrite fexp_eq in Hpos.
    assert (Hkd : Z.max 0 (fexp PyFloat.prec PyFloat.emax (Zdigits2 (N / D) + e) - e)
                  = Zdigits2 (N / D) - 53) by (rewrite fexp_eq; lia).
    assert (Hq : 0 < N / D).
    { destruct (Z.eq_dec (N / D) 0) as [Hz|]; [|pose proof (Z.div_pos N D); lia].
      rewrite Hz in Hpos. simpl in Hpos. lia. }
    pose proof (Zdigits2_bounds (N / D) Hq) as [Hlo _].
    subst K. rewrite Hkd.
    replace (Zdigits2 (N / D) - 1) with (52 + (Zdigits2 (N / D) - 53)) in Hlo by lia.
    rewrite Z.pow_add_r in Hlo by lia.
    pose proof (Z.mul_div_le N D HD). nia. }
  assert (Hrel : 53 <= Zdigits2 (N / D) \/ N mod D = 0 ->
                 2 ^ 53 * Z.abs (m2 * (D * K) - N) <= N).
  { intros Hcase.
    destruct (Z.eq_dec k 0) as [Hk0|Hk0].
    - assert (HK1 : K = 1) by (subst K; rewrite Hk0; reflexivity).
      rewrite HK1, Z.mul_1_r in *.
      destruct Hcase as [Hdig|Hmod].
      + assert (2 ^ 52 <= N / D).
        { assert (Hq : 0 < N / D).
          { destruct (Z.eq_dec (N / D) 0) as [Hz|]; [|pose proof (Z.div_pos N D); lia].
            rewrite Hz in Hdig. simpl in Hdig. lia. }
          pose proof (Zdigits2_bounds (N / D) Hq) as [Hlo _].
          assert (2 ^ 52 <= 2 ^ (Zdigits2 (N / D) - 1)) by (apply Z.pow_le_mono_r; lia).
          lia. }
        pose proof (Z.mul_div_le N D HD).
        change (2 ^ 53) with (2 * 2 ^ 52). nia.
      + rewrite (Hexact Hmod).
        pose proof (Z.div_mod N D ltac:(lia)) as Hdm. rewrite Hmod in Hdm.
        replace (N / D * D - N) with 0 by lia. simpl. lia.
    - pose proof (Hnormal ltac:(lia)) as Hn.
      change (2 ^ 53) with (2 * 2 ^ 52). nia. }
  assert (Hulp : D * K * E <= D * 2 ^ B).
  { destruct (Z.eq_dec k 0) as [Hk0|Hk0].
    - assert (HK1 : K = 1) by (subst K; rewrite Hk0; reflexivity).
      rewrite HK1, Z.mul_1_r.
      assert (E <= 2 ^ B) by (subst E; apply Z.pow_le_mono_r; lia). nia.
    - pose proof (Hnormal ltac:(lia)) as Hn.
      assert (0 < 2 ^ 52) by reflexivity. nia. }
  assert (Hbig : m2 * (K * E) < 2 ^ (B + 1)).
  { rewrite Z.pow_add_r, Z.pow_1_r by lia.
    assert (2 * (m2 * (K * E) * D) < 2 * (2 * 2 ^ B * D)); [|nia].
    assert (2 * Z.abs (m2 * (D * K) - N) * E <= D * K * E) by nia.
    nia. }
  assert (Hm2 : 0 <= m2) by lia.
  assert (Hval : forall z, 
            z = match m2 / 2 ^ k2 with
                | Z0 => S754_zero s
                | Zpos m => if e + k + k2 <=? 971 then S754_finite s m (e + k + k2)
                            else S754_infinity s
                | Zneg _ => S754_nan
                end ->
            representable z /\ units z = cond_Zopp s (m2 * (K * E))).
  { intros z ->.
    assert (H2k2 : 0 < 2 ^ k2) by (apply Z.pow_pos_nonneg; lia).
    destruct (m2 / 2 ^ k2) as [|m3|m3] eqn:Hq.
    - split; [exact I|]. simpl in Hm3. rewrite <- Hm3. simpl. now destruct s.
    - assert (Hexp : e + k + k2 <= 971).
      { assert (2 ^ (e + k + k2 + 1074) <= m2 * (K * E)).
        { replace (e + k + k2 + 1074) with (k2 + (k + (e + 1074))) by lia.
          rewrite !Z.pow_add_r by lia. fold K E. rewrite <- Hm3. nia. }
        assert (2 ^ (e + k + k2 + 1074) < 2 ^ (B + 1)) by lia.
        apply Z.pow_lt_mono_r_iff in H0; lia. }
      destruct (Z.leb_spec (e + k + k2) 971); [|lia].
      split; [simpl; lia|].
      unfold units. f_equal.
      replace (e + k + k2 + 1074) with (k2 + (k + (e + 1074))) by lia.
      rewrite !Z.pow_add_r by lia. fold K E. rewrite <- Hm3. ring.
    - pose proof (Z.div_pos m2 (2 ^ k2) Hm2 H2k2). lia. }
  destruct (Hval _ eq_refl) as [Hrep Hunits].
  assert (Habs : Z.abs (cond_Zopp s (m2 * (K * E))) = m2 * (K * E))
    by (apply cond_Zopp_abs; nia).
  split; [exact Hrep|]. rewrite Hunits, Habs.
  split; [reflexivity|]. split; [|exact Hbig].
  intros Hcase. pose proof (Hrel Hcase) as Hr. fold E.
  replace (m2 * (K * E) * D - N * E) with ((m2 * (D * K) - N) * E) by ring.
  rewrite Z.abs_mul, (Z.abs_eq E) by lia. nia.
Qed.

Lemma iter_xO_value (m d : positive) : Zpos (Pos.iter xO m d) = Zpos m * 2 ^ Zpos d.
Proof.
  induction d as [|d IH] using Pos.peano_ind.
  - simpl. lia.
  - rewrite Pos.iter_succ, Pos2Z.inj_succ, Z.pow_succ_r by lia.
    rewrite Pos2Z.inj_xO, IH. ring.
Qed.

Lemma shl_align_value (m : positive) (e e' : Z) :
  (shl_align m e e').2 = Z.min e e' /\
  Zpos (shl_align m e e').1 = Zpos m * 2 ^ (e - Z.min e e').
Proof.
  unfold shl_align. destruct (e' - e) as [|d|d] eqn:Hd; cbn [fst snd].
  - rewrite Z.min_l by lia. rewrite Z.sub_diag, Z.pow_0_r. lia.
  - rewrite Z.min_l by lia. rewrite Z.sub_diag, Z.pow_0_r. lia.
  - rewrite Z.min_r by lia. split; [reflexivity|].
    rewrite iter_xO_value. f_equal. f_equal. lia.
Qed.

Lemma pow_units_split (e e0 : Z) :
  -1074 <= e0 -> e0 <= e -> 2 ^ (e + 1074) = 2 ^ (e - e0) * 2 ^ (e0 + 1074).
Proof.
  intros H1 H2. rewrite <- Z.pow_add_r by lia. f_equal. lia.
Qed.

(** Rounding a whole number of units. *)
Lemma binary_round_units (s : bool) (m : positive) (e : Z) :
  -1074 <= e -> Zpos m * 2 ^ (e + 1074) < 2 ^ 2045 ->
  let z := binary_round PyFloat.prec PyFloat.emax s m e in
  representable z /\
  units z = cond_Zopp s (Z.abs (units z)) /\
  2 ^ 53 * Z.abs (Z.abs (units z) - Zpos m * 2 ^ (e + 1074)) <= Zpos m * 2 ^ (e + 1074).
Proof.
  intros He Hmag z. subst z. unfold binary_round.
  pose proof (shl_align_value m e (fexp PyFloat.prec PyFloat.emax (Zpos (digits2_pos m) + e)))
    as [Hez Hmz].
  destruct (shl_align m e _) as [mz ez]. cbn [fst snd] in Hez, Hmz.
  assert (Hez' : -1074 <= ez <= e) by (rewrite Hez, fexp_eq; lia).
  assert (Hsame : Zpos mz * 2 ^ (ez + 1074) = Zpos m * 2 ^ (e + 1074)).
  { rewrite Hmz, <- Hez. rewrite (pow_units_split e ez) by lia. ring. }
  assert (Hexp : ez + 1074 <= 2045).
  { assert (2 ^ (ez + 1074) < 2 ^ 2045).
    { assert (0 < 2 ^ (ez + 1074)) by (apply Z.pow_pos_nonneg; lia). nia. }
    apply Z.pow_lt_mono_r_iff in H; lia. }
  pose proof (binary_round_aux_units s (Zpos mz) 1 ez 2045 ltac:(lia) ltac:(lia)
                ltac:(lia) Hexp ltac:(lia) ltac:(lia)) as (Hrep & Hsign & Hrel & _).
  rewrite Z.div_1_r in Hrep, Hsign, Hrel.
  replace (loc_of (Zpos mz) 1) with loc_Exact in Hrep, Hsign, Hrel
    by (unfold loc_of; now rewrite Z.mod_1_r).
  split; [exact Hrep|]. split; [exact Hsign|].
  specialize (Hrel (or_intror (Z.mod_1_r _))).
  rewrite Z.mul_1_r, Hsame in Hrel. exact Hrel.
Qed.

Lemma binary_normalize_units (M e : Z) :
  -1074 <= e -> Z.abs M * 2 ^ (e + 1074) < 2 ^ 2045 ->
  let z := binary_normalize PyFloat.prec PyFloat.emax M e false in
  representable z /\
  2 ^ 53 * Z.abs (units z - M * 2 ^ (e + 1074)) <= Z.abs (M * 2 ^ (e + 1074)).
Proof.
  intros He Hmag z. subst z.
  assert (HE : 0 < 2 ^ (e + 1074)) by (apply Z.pow_pos_nonneg; lia).
  destruct M as [|m|m]; cbn [binary_normalize].
  - split; [exact I|]. simpl. lia.
  - destruct (binary_round_units false m e He Hmag) as (Hrep & Hsign & Hrel).
    split; [exact Hrep|]. rewrite Hsign. cbn [cond_Zopp].
    rewrite (Z.abs_eq (Z.pos m * _)) by lia. exact Hrel.
  - destruct (binary_round_units true m e He Hmag) as (Hrep & Hsign & Hrel).
    split; [exact Hrep|]. rewrite Hsign. cbn [cond_Zopp].
    replace (- Z.abs (units (binary_round PyFloat.prec PyFloat.emax true m e))
             - Z.neg m * 2 ^ (e + 1074))
      with (- (Z.abs (units (binary_round PyFloat.prec PyFloat.emax true m e))
               - Z.pos m * 2 ^ (e + 1074))) by lia.
    rewrite Z.abs_opp.
    replace (Z.abs (Z.neg m * 2 ^ (e + 1074))) with (Z.pos m * 2 ^ (e + 1074)) by lia.
    exact Hrel.
Qed.

Lemma units_aligned (s : bool) (m : positive) (e e0 : Z) :
  -1074 <= e0 -> e0 <= e ->
  cond_Zopp s (Zpos m * 2 ^ (e + 1074))
  = cond_Zopp s (Zpos m * 2 ^ (e - e0)) * 2 ^ (e0 + 1074).
Proof.
  intros H1 H2. rewrite (pow_units_split e e0) by lia.
  destruct s; cbn [cond_Zopp]; ring.
Qed.

(** Float addition and subtraction: the exact result rounded, within
    [2^-53] of it in relative terms. *)
Lemma add_units (x y : float) :
  representable x -> representable y ->
  Z.abs (units x + units y) < 2 ^ 2045 ->
  representable (PyFloat.add x y) /\
  2 ^ 53 * Z.abs (units (PyFloat.add x y) - (units x + units y))
  <= Z.abs (units x + units y).
Proof.
  intros Hx Hy Hmag.
  destruct x as [sx|sx| |sx mx ex], y as [sy|sy| |sy my ey];
    try (now destruct Hx); try (now destruct Hy).
  - destruct sx, sy; (split; [exact I | simpl; lia]).
  - split; [exact Hy|]. cbn [PyFloat.add SFadd].
    replace (units (S754_finite sy my ey) - (units (S754_zero sx) + units (S754_finite sy my ey)))
      with 0 by (cbn [units]; lia). simpl. lia.
  - split; [exact Hx|]. cbn [PyFloat.add SFadd].
    replace (units (S754_finite sx mx ex) - (units (S754_finite sx mx ex) + units (S754_zero sy)))
      with 0 by (cbn [units]; lia). simpl. lia.
  - cbn [representable] in Hx, Hy. unfold PyFloat.add, SFadd.
    set (ez := Z.min ex ey).
    destruct (shl_align_value mx ex ez) as [_ Hmx].
    destruct (shl_align_value my ey ez) as [_ Hmy].
    rewrite Hmx, Hmy.
    replace (Z.min ex ez) with ez by (subst ez; lia).
    replace (Z.min ey ez) with ez by (subst ez; lia).
    assert (Hez : -1074 <= ez) by (subst ez; lia).
    assert (Hsum : units (S754_finite sx mx ex) + units (S754_finite sy my ey)
                   = (cond_Zopp sx (Z.pos mx * 2 ^ (ex - ez))
                      + cond_Zopp sy (Z.pos my * 2 ^ (ey - ez))) * 2 ^ (ez + 1074)).
    { cbn [units].
      rewrite (units_aligned sx mx ex ez), (units_aligned sy my ey ez) by (subst ez; lia).
      ring. }
    rewrite Hsum in *.
    apply binary_normalize_units; [exact Hez|].
    rewrite Z.abs_mul in Hmag.
    rewrite (Z.abs_eq (2 ^ (ez + 1074))) in Hmag by (apply Z.pow_nonneg; lia).
    exact Hmag.
Qed.

Lemma sub_units (x y : float) :
  representable x -> representable y ->
  Z.abs (units x - units y) < 2 ^ 2045 ->
  representable (PyFloat.sub x y) /\
  2 ^ 53 * Z.abs (units (PyFloat.sub x y) - (units x - units y))
  <= Z.abs (units x - units y).
Proof.
  intros Hx Hy Hmag.
  destruct x as [sx|sx| |sx mx ex], y as [sy|sy| |sy my ey];
    try (now destruct Hx); try (now destruct Hy).
  - destruct sx, sy; (split; [exact I | simpl; lia]).
  - split; [exact Hy|]. cbn [PyFloat.sub SFsub].
    replace (units (S754_finite (negb sy) my ey)
             - (units (S754_zero sx) - units (S754_finite sy my ey)))
      with 0 by (cbn [units]; destruct sy; cbn [negb cond_Zopp]; lia).
    simpl. lia.
  - split; [exact Hx|]. cbn [PyFloat.sub SFsub].
    replace (units (S754_finite sx mx ex) - (units (S754_finite sx mx ex) - units (S754_zero sy)))
      with 0 by (cbn [units]; lia). simpl. lia.
  - cbn [representable] in Hx, Hy. unfold PyFloat.sub, SFsub.
    set (ez := Z.min ex ey).
    destruct (shl_align_value mx ex ez) as [_ Hmx].
    destruct (shl_align_value my ey ez) as [_ Hmy].
    rewrite Hmx, Hmy.
    replace (Z.min ex ez) with ez by (subst ez; lia).
    replace (Z.min ey ez) with ez by (subst ez; lia).
    assert (Hez : -1074 <= ez) by (subst ez; lia).
    assert (Hsum : units (S754_finite sx mx ex) - units (S754_finite sy my ey)
                   = (cond_Zopp sx (Z.pos mx * 2 ^ (ex - ez))
                      - cond_Zopp sy (Z.pos my * 2 ^ (ey - ez))) * 2 ^ (ez + 1074)).
    { cbn [units].
      rewrite (units_aligned sx mx ex ez), (units_aligned sy my ey ez) by (subst ez; lia).
      ring. }
    rewrite Hsum in *.
    apply binary_normalize_units; [exact Hez|].
    rewrite Z.abs_mul in Hmag.
    rewrite (Z.abs_eq (2 ^ (ez + 1074))) in Hmag by (apply Z.pow_nonneg; lia).
    exact Hmag.
Qed.

Lemma new_location_loc (N b : Z) : 0 < b -> new_location b (N mod b) = loc_of N b.
Proof.
  intros Hb. unfold new_location, loc_of, new_location_even, new_location_odd.
  pose proof (Z.mod_pos_bound N b Hb) as Hr.
  set (r := N mod b) in *. clearbody r.
  destruct (Z.even b) eqn:Heven; [reflexivity|].
  destruct (Z.eqb_spec r 0); [reflexivity|]. f_equal.
  pose proof (Zmod_even b) as Hpar. rewrite Heven in Hpar.
  pose proof (Z.div_mod b 2 ltac:(lia)) as Hdm. rewrite Hpar in Hdm.
  destruct (Z.compare_spec (2 * r + 1) b), (Z.compare_spec (2 * r) b);
    try reflexivity; lia.
Qed.

(** [ratio] is one rounding of the exact quotient. *)
Lemma ratio_round (a b : positive) :
  let e' := Z.min (fexp PyFloat.prec PyFloat.emax (Zdigits2 (Zpos a) - Zdigits2 (Zpos b))) 0 in
  let N := Zpos a * 2 ^ (- e') in
  PyFloat.ratio (Zpos a) b
  = binary_round_aux PyFloat.prec PyFloat.emax false (N / Zpos b) e' (loc_of N (Zpos b)).
Proof.
  intros e' N. unfold PyFloat.ratio, PyFloat.div, SFdiv, SFdiv_core_binary.
  cbv zeta. rewrite !Z.add_0_r. change (0 - 0) with 0. fold e'.
  assert (He' : e' <= 0) by (subst e'; lia).
  assert (Hm' : match 0 - e' with
                | 0 => Z.pos a
                | Z.pos _ => Z.shiftl (Z.pos a) (0 - e')
                | Z.neg _ => 0
                end = N).
  { subst N. destruct (0 - e') as [|p|p] eqn:Hs; try lia.
    - replace (- e') with 0 by lia. rewrite Z.pow_0_r. lia.
    - rewrite Z.shiftl_mul_pow2 by lia. f_equal. f_equal. lia. }
  rewrite Hm'.
  change IntDef.Z.div_eucl with Z.div_eucl.
  destruct (Z.div_eucl N (Z.pos b)) as [q r] eqn:Hqr.
  assert (Hq : q = N / Z.pos b) by (unfold Z.div; now rewrite Hqr).
  assert (Hr : r = N mod Z.pos b) by (unfold Z.modulo; now rewrite Hqr).
  rewrite Hq, Hr, new_location_loc by lia. reflexivity.
Qed.

(** The double nearest to a fraction that is neither too large nor too
    small: a representable, non-negative number within [2^-53] of the
    fraction in relative terms. *)
Lemma ratio_units (a b : positive) :
  -1021 <= Zdigits2 (Zpos a) - Zdigits2 (Zpos b) <= 53 ->
  representable (PyFloat.ratio (Zpos a) b) /\
  0 <= units (PyFloat.ratio (Zpos a) b) /\
  2 ^ 53 * Z.abs (units (PyFloat.ratio (Zpos a) b) * Zpos b - Zpos a * 2 ^ 1074)
  <= Zpos a * 2 ^ 1074.
Proof.
  intros Hdig. rewrite ratio_round.
  set (e' := Z.min (fexp PyFloat.prec PyFloat.emax (Zdigits2 (Zpos a) - Zdigits2 (Zpos b))) 0).
  set (N := Zpos a * 2 ^ (- e')).
  assert (He' : e' = Zdigits2 (Zpos a) - Zdigits2 (Zpos b) - 53)
    by (subst e'; rewrite fexp_eq; lia).
  assert (HN : 0 < N) by (subst N; apply Z.mul_pos_pos; [lia | apply Z.pow_pos_nonneg; lia]).
  pose proof (Zdigits2_bounds (Zpos a) ltac:(lia)) as [Halo Hahi].
  pose proof (Zdigits2_bounds (Zpos b) ltac:(lia)) as [Hblo Hbhi].
  assert (Hda1 : 1 <= Zdigits2 (Zpos a)) by (simpl; lia).
  assert (Hdb1 : 1 <= Zdigits2 (Zpos b)) by (simpl; lia).
  assert (Hscale : N * 2 ^ (e' + 1074) = Zpos a * 2 ^ 1074).
  { subst N. rewrite <- Z.mul_assoc, <- Z.pow_add_r by lia. f_equal. f_equal. lia. }
  (* the quotient has 53 or 54 bits *)
  assert (Hq : 2 ^ 52 <= N / Zpos b).
  { apply Z.div_le_lower_bound; [lia|].
    assert (Z.pos b * 2 ^ 52 <= 2 ^ (Zdigits2 (Zpos b) + 52)).
    { rewrite Z.pow_add_r by lia. assert (0 < 2 ^ 52) by reflexivity. nia. }
    assert (2 ^ (Zdigits2 (Zpos b) + 52) <= N); [|lia].
    subst N. rewrite He'.
    replace (Zdigits2 (Zpos b) + 52)
      with ((Zdigits2 (Zpos a) - 1) + (- (Zdigits2 (Zpos a) - Zdigits2 (Zpos b) - 53))) by lia.
    rewrite Z.pow_add_r by lia.
    assert (0 < 2 ^ (- (Zdigits2 (Zpos a) - Zdigits2 (Zpos b) - 53)))
      by (apply Z.pow_pos_nonneg; lia).
    nia. }
  assert (Hdig53 : 53 <= Zdigits2 (N / Zpos b)).
  { pose proof (Zdigits2_gt (N / Zpos b) 52 ltac:(lia) Hq). lia. }
  assert (Hmag : N * 2 ^ (e' + 1074) < Zpos b * 2 ^ 2045).
  { rewrite Hscale.
    assert (Zpos a < 2 ^ (Zdigits2 (Zpos b) + 54)).
    { assert (2 ^ Zdigits2 (Zpos a) <= 2 ^ (Zdigits2 (Zpos b) + 54))
        by (apply Z.pow_le_mono_r; lia). lia. }
    assert (2 ^ (Zdigits2 (Zpos b) + 54) <= Zpos b * 2 ^ 55).
    { replace (Zdigits2 (Zpos b) + 54) with ((Zdigits2 (Zpos b) - 1) + 55) by lia.
      rewrite Z.pow_add_r by lia. assert (0 < 2 ^ 55) by reflexivity. nia. }
    assert (2 ^ 55 * 2 ^ 1074 <= 2 ^ 2045).
    { rewrite <- Z.pow_add_r by lia. apply Z.pow_le_mono_r; lia. }
    assert (0 < 2 ^ 1074) by (apply Z.pow_pos_nonneg; lia).
    nia. }
  pose proof (binary_round_aux_units false N (Zpos b) e' 2045 ltac:(lia) ltac:(lia)
                ltac:(lia) ltac:(lia) ltac:(lia) Hmag) as (Hrep & Hsign & Hrel & _).
  cbn [cond_Zopp] in Hsign.
  split; [exact Hrep|]. split; [lia|].
  specialize (Hrel (or_introl Hdig53)).
  rewrite Hscale in Hrel. rewrite <- Hsign in Hrel. exact Hrel.
Qed.

(** The quotient of two whole numbers, the first at most the second, is
    never too large for a float. *)
Lemma ratio_finite (a : Z) (b : positive) :
  0 <= a <= Zpos b -> PyFloat.is_finite (PyFloat.ratio a b) = true.
Proof.
  intros Hab. destruct a as [|a|a]; [reflexivity| |lia].
  rewrite ratio_round.
  set (e' := Z.min (fexp PyFloat.prec PyFloat.emax (Zdigits2 (Zpos a) - Zdigits2 (Zpos b))) 0).
  set (N := Zpos a * 2 ^ (- e')).
  assert (He' : -1074 <= e' <= 0) by (subst e'; rewrite fexp_eq; lia).
  assert (HN : 0 < N) by (subst N; apply Z.mul_pos_pos; [lia | apply Z.pow_pos_nonneg; lia]).
  assert (Hscale : N * 2 ^ (e' + 1074) = Zpos a * 2 ^ 1074).
  { subst N. rewrite <- Z.mul_assoc, <- Z.pow_add_r by lia. f_equal. f_equal. lia. }
  assert (Hmag : N * 2 ^ (e' + 1074) < Zpos b * 2 ^ 1075).
  { rewrite Hscale. replace (2 ^ 1075) with (2 * 2 ^ 1074)
      by (rewrite <- Z.pow_succ_r by lia; reflexivity).
    assert (0 < 2 ^ 1074) by (apply Z.pow_pos_nonneg; lia). nia. }
  pose proof (binary_round_aux_units false N (Zpos b) e' 1075 ltac:(lia) ltac:(lia)
                ltac:(lia) ltac:(lia) ltac:(lia) Hmag) as (Hrep & _).
  destruct (binary_round_aux _ _ _ _ _ _); simpl in Hrep; try contradiction; reflexivity.
Qed.

Lemma int_true_divide_small (a b : Z) :
  0 <= a <= b -> 0 < b -> PyFloat.int_true_divide a b <> None.
Proof.
  intros Hab Hb. unfold PyFloat.int_true_divide.
  destruct b as [|d|d]; try lia.
  now rewrite ratio_finite by lia.
Qed.

(** *** Sums of non-negative amounts *)

Lemma nonneg_float_units (x : float) :
  nonneg_float x -> representable x /\ 0 <= units x.
Proof.
  destruct x as [s|s| |s m e]; simpl; try tauto.
  - intros _. split; [exact I | lia].
  - intros [-> He]. split; [exact He|]. cbn [cond_Zopp].
    assert (0 < 2 ^ (e + 1074)) by (apply Z.pow_pos_nonneg; lia). lia.
Qed.

Lemma nonneg_float_zero (x : float) :
  nonneg_float x -> units x = 0 -> x = S754_zero false.
Proof.
  destruct x as [s|s| |s m e]; simpl; try tauto.
  - now intros ->.
  - intros [-> He]. cbn [cond_Zopp].
    assert (0 < 2 ^ (e + 1074)) by (apply Z.pow_pos_nonneg; lia). lia.
Qed.

Lemma positive_units_nonneg (x : float) :
  representable x -> 0 < units x -> nonneg_float x.
Proof.
  destruct x as [s|s| |s m e]; simpl; try tauto; try lia.
  intros He. destruct s; cbn [cond_Zopp]; [|now split].
  assert (0 < 2 ^ (e + 1074)) by (apply Z.pow_pos_nonneg; lia). lia.
Qed.

Lemma add_nonneg (x y : float) :
  nonneg_float x -> nonneg_float y -> units x + units y < 2 ^ 2045 ->
  nonneg_float (PyFloat.add x y) /\
  2 ^ 53 * Z.abs (units (PyFloat.add x y) - (units x + units y)) <= units x + units y.
Proof.
  intros Hx Hy Hmag.
  destruct (nonneg_float_units x Hx) as [Hrx Hux].
  destruct (nonneg_float_units y Hy) as [Hry Huy].
  destruct (add_units x y Hrx Hry ltac:(lia)) as [Hrep Herr].
  rewrite (Z.abs_eq (units x + units y)) in Herr by lia.
  split; [|exact Herr].
  destruct (Z.eq_dec (units x + units y) 0) as [Hz|Hnz].
  - rewrite (nonneg_float_zero x Hx), (nonneg_float_zero y Hy) by lia. reflexivity.
  - apply positive_units_nonneg; [exact Hrep|].
    change (2 ^ 53) with 9007199254740992 in Herr. lia.
Qed.

(** One more amount added to a running total. *)
Lemma add_step (acc x : float) (k T0 T : Z) :
  nonneg_float acc -> nonneg_float x ->
  0 <= k -> 2 * (k + 1) <= 2 ^ 53 -> 0 <= T0 -> T0 + units x <= T -> T < 2 ^ 2043 ->
  2 ^ 53 * Z.abs (units acc - T0) <= 2 * k * T ->
  nonneg_float (PyFloat.add acc x) /\
  2 ^ 53 * Z.abs (units (PyFloat.add acc x) - (T0 + units x)) <= 2 * (k + 1) * T.
Proof.
  intros Hacc Hx Hk Hk1 HT0 HT HTmax Herr.
  destruct (nonneg_float_units acc Hacc) as [_ Hua].
  destruct (nonneg_float_units x Hx) as [_ Hux].
  assert (HkT : 2 * k * T <= 2 ^ 53 * T) by nia.
  assert (H2043 : 2 ^ 2045 = 4 * 2 ^ 2043)
    by (change 2045 with (2 + 2043); rewrite Z.pow_add_r by lia; reflexivity).
  change (2 ^ 53) with 9007199254740992 in *.
  assert (Hclose : Z.abs (units acc - T0) <= T) by lia.
  destruct (add_nonneg acc x Hacc Hx ltac:(lia)) as [Hnn Hadd].
  split; [exact Hnn|].
  change (2 ^ 53) with 9007199254740992 in *.
  replace (2 * (k + 1) * T) with (2 * k * T + 2 * T) by ring.
  lia.
Qed.

Lemma total_units_cons (x : float) (xs : list float) :
  total_units (x :: xs) = units x + total_units xs.
Proof. reflexivity. Qed.

Lemma total_units_nonneg (xs : list float) :
  Forall nonneg_float xs -> 0 <= total_units xs.
Proof.
  induction 1 as [|y ys Hy _ IH]; [reflexivity|].
  rewrite total_units_cons. destruct (nonneg_float_units y Hy). lia.
Qed.

Lemma fold_add_units (xs : list float) (acc : float) (k T0 T : Z) :
  Forall nonneg_float xs -> nonneg_float acc ->
  0 <= k -> 2 * (k + Z.of_nat (length xs)) <= 2 ^ 53 ->
  0 <= T0 -> T0 + total_units xs <= T -> T < 2 ^ 2043 ->
  2 ^ 53 * Z.abs (units acc - T0) <= 2 * k * T ->
  nonneg_float (fold_left PyFloat.add xs acc) /\
  2 ^ 53 * Z.abs (units (fold_left PyFloat.add xs acc) - (T0 + total_units xs))
  <= 2 * (k + Z.of_nat (length xs)) * T.
Proof.
  revert acc k T0.
  induction xs as [|x xs IH]; intros acc k T0 Hxs Hacc Hk Hlen HT0 HT HTmax Herr.
  - simpl. rewrite !Z.add_0_r. now split.
  - apply Forall_cons in Hxs as [Hx Hxs].
    destruct (nonneg_float_units x Hx) as [_ Hux].
    pose proof (total_units_nonneg xs Hxs) as Htail.
    rewrite total_units_cons in *. cbn [fold_left length] in *.
    rewrite Nat2Z.inj_succ in *.
    destruct (add_step acc x k T0 T Hacc Hx Hk ltac:(lia) HT0 ltac:(lia) HTmax Herr)
      as [Hnn Hstep].
    destruct (IH (PyFloat.add acc x) (k + 1) (T0 + units x) Hxs Hnn ltac:(lia) ltac:(lia)
                ltac:(lia) ltac:(lia) HTmax Hstep) as [Hr Hfin].
    split; [exact Hr|].
    replace (T0 + (units x + total_units xs)) with (T0 + units x + total_units xs) by ring.
    replace (k + Z.succ (Z.of_nat (length xs))) with (k + 1 + Z.of_nat (length xs)) by lia.
    exact Hfin.
Qed.

Lemma pow_2045 : 2 ^ 2045 = 4 * 2 ^ 2043.
Proof. change 2045 with (2 + 2043). rewrite Z.pow_add_r by lia. reflexivity. Qed.

(** The correction term of one step of the compensated sum. *)
Lemma correction_units (a b t : float) (T : Z) :
  nonneg_float a -> nonneg_float b -> representable t ->
  units a + units b <= 2 * T -> T < 2 ^ 2043 ->
  2 ^ 53 * Z.abs (units t - (units a + units b)) <= units a + units b ->
  representable (PyFloat.add (PyFloat.sub a t) b) /\
  2 ^ 53 * Z.abs (units (PyFloat.add (PyFloat.sub a t) b)) <= 6 * T.
Proof.
  intros Ha Hb Ht Hsum HT Herr.
  destruct (nonneg_float_units a Ha) as [Hra Hua].
  destruct (nonneg_float_units b Hb) as [Hrb Hub].
  pose proof pow_2045 as H2045.
  change (2 ^ 53) with 9007199254740992 in *.
  destruct (sub_units a t Hra Ht ltac:(lia)) as [Hr1 He1].
  change (2 ^ 53) with 9007199254740992 in *.
  destruct (add_units (PyFloat.sub a t) b Hr1 Hrb ltac:(lia)) as [Hr2 He2].
  change (2 ^ 53) with 9007199254740992 in *.
  split; [exact Hr2|]. lia.
Qed.

Lemma neumaier_units (xs : list float) (f c : float) (k T0 T : Z) :
  Forall nonneg_float xs -> nonneg_float f -> representable c ->
  0 <= k -> 12 * (k + Z.of_nat (length xs)) + 12 <= 2 ^ 53 ->
  0 <= T0 -> T0 + total_units xs <= T -> T < 2 ^ 2043 ->
  2 ^ 53 * Z.abs (units f - T0) <= 2 * k * T ->
  2 ^ 53 * Z.abs (units c) <= 12 * k * T ->
  representable (neumaier f c xs) /\
  2 ^ 53 * Z.abs (units (neumaier f c xs) - (T0 + total_units xs))
  <= (14 * (k + Z.of_nat (length xs)) + 3) * T.
Proof.
  revert f c k T0.
  induction xs as [|x xs IH]; intros f c k T0 Hxs Hf Hc Hk Hlen HT0 HT HTmax Hef Hec.
  - cbn [neumaier total_units foldr length] in *.
    rewrite !Z.add_0_r in *.
    destruct (nonneg_float_units f Hf) as [Hrf Huf].
    pose proof pow_2045 as H2045.
    assert (HkT : 12 * k * T <= 2 ^ 53 * T) by nia.
    assert (HkT2 : 2 * k * T <= 2 ^ 53 * T) by nia.
    assert (HkT3 : 0 <= k * T) by nia.
    change (2 ^ 53) with 9007199254740992 in *.
    destruct c as [s|s| |s m e]; try (now destruct Hc).
    + split; [exact Hrf|]. lia.
    + destruct (add_units f (S754_finite s m e) Hrf Hc ltac:(lia)) as [Hr He].
      change (2 ^ 53) with 9007199254740992 in *.
      split; [exact Hr|]. lia.
  - apply Forall_cons in Hxs as [Hx Hxs].
    destruct (nonneg_float_units f Hf) as [Hrf Huf].
    destruct (nonneg_float_units x Hx) as [Hrx Hux].
    pose proof (total_units_nonneg xs Hxs) as Htail.
    rewrite total_units_cons in *. cbn [neumaier length] in *.
    rewrite Nat2Z.inj_succ in *.
    pose proof pow_2045 as H2045.
    assert (HkT : 12 * k * T <= 2 ^ 53 * T) by nia.
    assert (HkT2 : 2 * k * T <= 2 ^ 53 * T) by nia.
    assert (HkT3 : 0 <= k * T) by nia.
    destruct (add_step f x k T0 T Hf Hx Hk ltac:(lia) HT0 ltac:(lia) HTmax Hef)
      as [Hnt Het].
    change (2 ^ 53) with 9007199254740992 in *.
    destruct (add_nonneg f x Hf Hx ltac:(lia)) as [_ Hadd].
    destruct (nonneg_float_units _ Hnt) as [Hrt Hut].
    set (t := PyFloat.add f x) in *.
    assert (Hd : forall d,
              d = (if SFleb (SFabs x) (SFabs f)
                   then PyFloat.add (PyFloat.sub f t) x
                   else PyFloat.add (PyFloat.sub x t) f) ->
              representable d /\ 2 ^ 53 * Z.abs (units d) <= 6 * T).
    { intros d ->. destruct (SFleb (SFabs x) (SFabs f)).
      - apply correction_units; try assumption; lia.
      - apply correction_units; try assumption; [lia|].
        replace (units x + units f) with (units f + units x) by ring. exact Hadd. }
    destruct (Hd _ eq_refl) as [Hrd Hed].
    set (d := if SFleb (SFabs x) (SFabs f)
              then PyFloat.add (PyFloat.sub f t) x
              else PyFloat.add (PyFloat.sub x t) f) in *.
    change (2 ^ 53) with 9007199254740992 in *.
    destruct (add_units c d Hc Hrd ltac:(lia)) as [Hrc' Hec'].
    change (2 ^ 53) with 9007199254740992 in *.
    destruct (IH t (PyFloat.add c d) (k + 1) (T0 + units x) Hxs Hnt Hrc' ltac:(lia)
                ltac:(change (2 ^ 53) with 9007199254740992; lia)
                ltac:(lia) ltac:(lia) HTmax
                ltac:(change (2 ^ 53) with 9007199254740992; exact Het)
                ltac:(change (2 ^ 53) with 9007199254740992;
                      replace (12 * (k + 1) * T) with (12 * k * T + 12 * T) by ring; lia))
      as [Hr Hfin].
    split; [exact Hr|].
    replace (T0 + (units x + total_units xs)) with (T0 + units x + total_units xs) by ring.
    replace (k + Z.succ (Z.of_nat (length xs))) with (k + 1 + Z.of_nat (length xs)) by lia.
    exact Hfin.
Qed.

Lemma neumaier_zeros (xs : list float) :
  Forall (fun x => x = S754_zero false) xs ->
  neumaier (S754_zero false) (S754_zero false) xs = S754_zero false.
Proof.
  induction 1 as [|x xs -> _ IH]; [reflexivity|].
  cbn [neumaier]. exact IH.
Qed.

Lemma total_units_zero (xs : list float) :
  Forall nonneg_float xs -> total_units xs = 0 ->
  Forall (fun x => x = S754_zero false) xs.
Proof.
  induction 1 as [|x xs Hx Hxs IH]; intros Hz; [constructor|].
  rewrite total_units_cons in Hz.
  destruct (nonneg_float_units x Hx) as [_ Hux].
  pose proof (total_units_nonneg xs Hxs).
  constructor; [apply nonneg_float_zero; [exact Hx | lia] | apply IH; lia].
Qed.

(** The builtin [sum] of non-negative floats, whichever way it adds them
    up: a non-negative float within [(14 n + 3) * 2^-53] of the exact sum
    in relative terms. *)
Lemma builtin_sum_units (v : summation) (xs : list float) :
  Forall nonneg_float xs ->
  Z.of_nat (length xs) <= 2 ^ 48 -> total_units xs < 2 ^ 2043 ->
  nonneg_float (builtin_sum v xs) /\
  2 ^ 53 * Z.abs (units (builtin_sum v xs) - total_units xs)
  <= (14 * Z.of_nat (length xs) + 3) * total_units xs.
Proof.
  intros Hxs Hlen HT.
  pose proof (total_units_nonneg xs Hxs) as HT0.
  assert (HlenT : 0 <= Z.of_nat (length xs) * total_units xs) by nia.
  destruct v; cbn [builtin_sum]; [unfold py_sum|].
  - destruct (fold_add_units xs (PyFloat.decimal 0 0) 0 0 (total_units xs) Hxs eq_refl
                ltac:(lia) ltac:(change (2 ^ 53) with 9007199254740992;
                                 change (2 ^ 48) with 281474976710656 in Hlen; lia)
                ltac:(lia) ltac:(lia) HT ltac:(simpl; lia)) as [Hnn Herr].
    split; [exact Hnn|].
    rewrite !Z.add_0_l in Herr. lia.
  - destruct xs as [|x xs]; [split; [reflexivity | simpl; lia]|].
    destruct (Z.eq_dec (total_units (x :: xs)) 0) as [Hz|Hnz].
    + pose proof (total_units_zero _ Hxs Hz) as Hall.
      apply Forall_cons in Hall as [-> Hall].
      change (PyFloat.add (PyFloat.decimal 0 0) (S754_zero false)) with (S754_zero false).
      change (PyFloat.decimal 0 0) with (S754_zero false).
      rewrite neumaier_zeros by exact Hall.
      split; [reflexivity|]. rewrite Hz. simpl. lia.
    + apply Forall_cons in Hxs as [Hx Hxs].
      destruct (nonneg_float_units x Hx) as [Hrx Hux].
      pose proof (total_units_nonneg xs Hxs) as Htail.
      rewrite total_units_cons in *. cbn [length] in *. rewrite Nat2Z.inj_succ in *.
      change (2 ^ 48) with 281474976710656 in Hlen.
      destruct (add_step (PyFloat.decimal 0 0) x 0 0 (units x + total_units xs)
                  eq_refl Hx ltac:(lia) ltac:(change (2 ^ 53) with 9007199254740992; lia)
                  ltac:(lia) ltac:(lia) HT ltac:(simpl; lia)) as [Hnf Hef].
      destruct (neumaier_units xs (PyFloat.add (PyFloat.decimal 0 0) x) (PyFloat.decimal 0 0)
                  1 (units x) (units x + total_units xs) Hxs Hnf I ltac:(lia)
                  ltac:(change (2 ^ 53) with 9007199254740992; lia)
                  ltac:(lia) ltac:(lia) HT
                  ltac:(rewrite Z.add_0_l in Hef; exact Hef)
                  ltac:(simpl; lia)) as [Hr Herr].
      replace (1 + Z.of_nat (length xs)) with (Z.succ (Z.of_nat (length xs))) in Herr by lia.
      split; [|exact Herr].
      apply positive_units_nonneg; [exact Hr|].
      set (n := Z.succ (Z.of_nat (length xs))) in *.
      set (T := units x + total_units xs) in *.
      assert (Hn : (14 * n + 3) * T <= 3940649673949191 * T) by nia.
      change (2 ^ 53) with 9007199254740992 in Herr. lia.
Qed.

(** *** Amounts in whole cents *)

Lemma of_cents_units (c : Z) :
  0 <= c < 2 ^ 60 ->
  nonneg_float (of_cents c) /\
  2 ^ 53 * Z.abs (100 * units (of_cents c) - c * 2 ^ 1074) <= c * 2 ^ 1074.
Proof.
  intros [Hc Hmax]. destruct c as [|a|a]; [split; [reflexivity | simpl; lia]| |lia].
  unfold of_cents, PyFloat.decimal.
  change (Z.to_pos (10 ^ Z.of_nat 2)) with 100%positive.
  assert (Hdig : -1021 <= Zdigits2 (Zpos a) - Zdigits2 (Zpos 100) <= 53).
  { change (Zdigits2 (Zpos 100)) with 7.
    pose proof (Zdigits2_le (Zpos a) 60 ltac:(lia) ltac:(lia)).
    assert (1 <= Zdigits2 (Zpos a)) by (simpl; lia). lia. }
  destruct (ratio_units a 100 Hdig) as (Hrep & Hpos & Herr).
  replace (100 * units (PyFloat.ratio (Z.pos a) 100))
    with (units (PyFloat.ratio (Z.pos a) 100) * Z.pos 100) by lia.
  split; [|exact Herr].
  apply positive_units_nonneg; [exact Hrep|].
  assert (0 < 2 ^ 1074) by (apply Z.pow_pos_nonneg; lia).
  change (2 ^ 53) with 9007199254740992 in Herr. nia.
Qed.

(** [round_half_even] returns the whole number that is less than a half
    away. *)
Lemma round_half_even_nearest (M e C : Z) :
  -1074 <= e ->
  2 * Z.abs (M * 2 ^ (e + 1074) - C * 2 ^ 1074) < 2 ^ 1074 ->
  PyFloat.round_half_even M e = C.
Proof.
  intros He Hnear. unfold PyFloat.round_half_even.
  destruct e as [|p|p].
  - rewrite Z.pow_0_r, Z.mul_1_r. simpl in Hnear.
    assert (0 < 2 ^ 1074) by (apply Z.pow_pos_nonneg; lia). nia.
  - assert (Hsplit : 2 ^ (Z.pos p + 1074) = 2 ^ Z.pos p * 2 ^ 1074)
      by (rewrite Z.pow_add_r by lia; reflexivity).
    rewrite Hsplit in Hnear.
    assert (0 < 2 ^ 1074) by (apply Z.pow_pos_nonneg; lia). nia.
  - rewrite Z.pow_pos_fold.
    set (d := 2 ^ Z.pos p).
    assert (Hd : 0 < d) by (apply Z.pow_pos_nonneg; lia).
    set (u := 2 ^ (Z.neg p + 1074)) in *.
    assert (Hu : 0 < u) by (apply Z.pow_pos_nonneg; lia).
    assert (Hsplit : 2 ^ 1074 = d * u).
    { subst d u. rewrite <- Z.pow_add_r by lia. f_equal. lia. }
    rewrite Hsplit in Hnear.
    assert (Hclose : 2 * Z.abs (M - C * d) < d) by nia.
    pose proof (Z.div_mod M d ltac:(lia)) as Hdm.
    pose proof (Z.mod_pos_bound M d Hd) as Hr.
    set (q := M / d) in *. set (r := M mod d) in *. clearbody q r.
    assert (Hrange : - d < 2 * (M - C * d) < d) by lia.
    assert (Hq : q = C \/ q = C - 1).
    { destruct (Z_le_gt_dec (C + 1) q); [exfalso; nia|].
      destruct (Z_le_gt_dec q (C - 2)); [exfalso; nia|]. lia. }
    destruct Hq as [-> | ->].
    + destruct (Z.compare_spec (2 * r) d) as [Heq|Hlt|Hgt]; [exfalso; nia | reflexivity | exfalso; nia].
    + destruct (Z.compare_spec (2 * r) d) as [Heq|Hlt|Hgt]; [exfalso; nia | exfalso; nia | lia].
Qed.

Lemma format_2f_cents (x : float) (C : Z) :
  nonneg_float x ->
  2 * Z.abs (100 * units x - C * 2 ^ 1074) < 2 ^ 1074 ->
  PyFloat.format_2f x = cents_text C.
Proof.
  intros Hx Hnear. destruct x as [s|s| |s m e]; try (now destruct Hx).
  - simpl in Hx. subst s. cbn [units] in Hnear.
    assert (0 < 2 ^ 1074) by (apply Z.pow_pos_nonneg; lia).
    assert (C = 0) by nia. subst C. reflexivity.
  - destruct Hx as [-> He]. cbn [units cond_Zopp] in Hnear.
    unfold PyFloat.format_2f, cents_text, PyFloat.two_digits.
    rewrite (round_half_even_nearest (Z.pos m * 100) e C He)
      by (replace (Z.pos m * 100 * 2 ^ (e + 1074))
            with (100 * (Z.pos m * 2 ^ (e + 1074))) by ring; exact Hnear).
    reflexivity.
Qed.

Lemma round2_cents (x : float) (C : Z) :
  nonneg_float x -> 0 <= C ->
  2 * Z.abs (100 * units x - C * 2 ^ 1074) < 2 ^ 1074 ->
  PyFloat.round2 x = of_cents C.
Proof.
  intros Hx HC Hnear. destruct x as [s|s| |s m e]; try (now destruct Hx).
  - simpl in Hx. subst s. cbn [units] in Hnear.
    assert (0 < 2 ^ 1074) by (apply Z.pow_pos_nonneg; lia).
    assert (C = 0) by nia. subst C. reflexivity.
  - destruct Hx as [-> He]. cbn [units cond_Zopp] in Hnear.
    unfold PyFloat.round2.
    rewrite (round_half_even_nearest (Z.pos m * 100) e C He)
      by (replace (Z.pos m * 100 * 2 ^ (e + 1074))
            with (100 * (Z.pos m * 2 ^ (e + 1074))) by ring; exact Hnear).
    destruct C as [|c|c]; [reflexivity|reflexivity|lia].
Qed.

Lemma sum_cents_cons (c : Z) (cs : list Z) : sum_cents (c :: cs) = c + sum_cents cs.
Proof. reflexivity. Qed.

Lemma sum_cents_nonneg (cs : list Z) : Forall (fun c => 0 <= c) cs -> 0 <= sum_cents cs.
Proof.
  induction 1 as [|c cs Hc _ IH]; [reflexivity|]. rewrite sum_cents_cons. lia.
Qed.

(** The exact sum of amounts of whole cents, in units. *)
Lemma total_units_of_cents (cs : list Z) (B : Z) :
  Forall (fun c => 0 <= c) cs -> sum_cents cs <= B -> B < 2 ^ 60 ->
  Forall nonneg_float (of_cents <$> cs) /\
  2 ^ 53 * Z.abs (100 * total_units (of_cents <$> cs) - sum_cents cs * 2 ^ 1074)
  <= sum_cents cs * 2 ^ 1074.
Proof.
  intros Hcs. revert B.
  induction Hcs as [|c cs Hc Hcs IH]; intros B HB Hmax.
  - split; [constructor | simpl; lia].
  - rewrite sum_cents_cons in *. rewrite fmap_cons, total_units_cons.
    pose proof (sum_cents_nonneg cs Hcs) as Hrest.
    destruct (of_cents_units c ltac:(lia)) as [Hnn Herr].
    destruct (IH B ltac:(lia) Hmax) as [Hall Hsum].
    split; [now constructor|].
    change (2 ^ 53) with 9007199254740992 in *. lia.
Qed.

(** The builtin [sum] of amounts of whole cents is close to their exact
    total. *)
Lemma builtin_sum_of_cents (v : summation) (cs : list Z) :
  Forall (fun c => 0 <= c) cs ->
  (Z.of_nat (length cs) + 1) * (sum_cents cs + 1) <= 2 ^ 46 ->
  nonneg_float (builtin_sum v (of_cents <$> cs)) /\
  2 ^ 53 * Z.abs (100 * units (builtin_sum v (of_cents <$> cs)) - sum_cents cs * 2 ^ 1074)
  <= (28 * Z.of_nat (length cs) + 7) * (sum_cents cs * 2 ^ 1074).
Proof.
  intros Hcs Hsize.
  pose proof (sum_cents_nonneg cs Hcs) as HC.
  set (n := Z.of_nat (length cs)) in *. set (C := sum_cents cs) in *.
  assert (Hn : 0 <= n) by (subst n; lia).
  change (2 ^ 46) with 70368744177664 in Hsize.
  assert (Hn46 : n + 1 <= 70368744177664) by nia.
  assert (HC46 : C + 1 <= 70368744177664) by nia.
  destruct (total_units_of_cents cs C Hcs ltac:(subst C; lia)
              ltac:(change (2 ^ 60) with 1152921504606846976; lia)) as [Hall Htot].
  fold C in Htot.
  set (U := 2 ^ 1074) in *.
  assert (HU : 0 < U) by (apply Z.pow_pos_nonneg; lia).
  set (T := total_units (of_cents <$> cs)) in *.
  pose proof (total_units_nonneg _ Hall) as HT. fold T in HT.
  assert (HCU : 0 <= C * U) by nia.
  change (2 ^ 53) with 9007199254740992 in *.
  assert (HT2 : 100 * T <= 2 * (C * U)) by lia.
  assert (HTmax : T < 2 ^ 2043).
  { assert (C * U < 2 ^ 47 * U) by (change (2 ^ 47) with 140737488355328; nia).
    assert (2 ^ 47 * U <= 2 ^ 2043)
      by (subst U; rewrite <- Z.pow_add_r by lia; apply Z.pow_le_mono_r; lia).
    lia. }
  destruct (builtin_sum_units v (of_cents <$> cs) Hall
              ltac:(rewrite length_fmap; fold n;
                    change (2 ^ 48) with 281474976710656; lia) HTmax) as [Hnn Herr].
  rewrite length_fmap in Herr. fold n T in Herr.
  split; [exact Hnn|].
  change (2 ^ 53) with 9007199254740992 in *.
  assert (Hprod : (14 * n + 3) * (100 * T) <= (14 * n + 3) * (2 * (C * U)))
    by (apply Z.mul_le_mono_nonneg_l; lia).
  replace ((28 * n + 7) * (C * U)) with ((14 * n + 3) * (2 * (C * U)) + C * U) by ring.
  lia.
Qed.

Lemma sub_self (x : float) : nonneg_float x -> PyFloat.sub x x = S754_zero false.
Proof.
  intros Hx. destruct x as [s|s| |s m e]; try (now destruct Hx).
  - cbn [nonneg_float] in Hx. now subst s.
  - unfold PyFloat.sub, SFsub. now rewrite Z.sub_diag.
Qed.

Lemma cents_below (ncs gcs : list Z) :
  Forall2 (fun n g => 0 <= n <= g) ncs gcs ->
  Forall (fun c => 0 <= c) ncs /\ Forall (fun c => 0 <= c) gcs /\
  length ncs = length gcs /\ sum_cents ncs <= sum_cents gcs /\
  (sum_cents ncs = sum_cents gcs -> ncs = gcs).
Proof.
  induction 1 as [|n g ncs gcs Hng _ IH].
  - split; [constructor|]. split; [constructor|]. repeat split; reflexivity.
  - destruct IH as (Hn & Hg & Hlen & Hle & Heq).
    rewrite !sum_cents_cons. cbn [length].
    split; [constructor; [lia | exact Hn]|].
    split; [constructor; [lia | exact Hg]|].
    split; [now rewrite Hlen|]. split; [lia|].
    intros Hsum. assert (n = g) by lia. subst n. f_equal. apply Heq. lia.
Qed.

(** The three amounts of the income report, for sales whose gross and net
    amounts are whole cents: each printed total is the exact total. *)
Lemma income_amounts (v : summation) (gcs ncs : list Z) :
  Forall2 (fun n g => 0 <= n <= g) ncs gcs ->
  (Z.of_nat (length gcs) + 1) * (sum_cents gcs + 1) <= 2 ^ 46 ->
  let tg := builtin_sum v (of_cents <$> gcs) in
  let tn := builtin_sum v (of_cents <$> ncs) in
  PyFloat.format_2f tg = cents_text (sum_cents gcs) /\
  PyFloat.format_2f tn = cents_text (sum_cents ncs) /\
  PyFloat.round2 (PyFloat.sub tg tn) = of_cents (sum_cents gcs - sum_cents ncs) /\
  PyFloat.format_2f (PyFloat.round2 (PyFloat.sub tg tn))
  = cents_text (sum_cents gcs - sum_cents ncs).
Proof.
  intros Hcs Hsize tg tn.
  destruct (cents_below ncs gcs Hcs) as (Hn & Hg & Hlen & Hle & Heq).
  pose proof (sum_cents_nonneg ncs Hn) as HN0.
  pose proof (sum_cents_nonneg gcs Hg) as HG0.
  set (n := Z.of_nat (length gcs)) in *.
  set (G := sum_cents gcs) in *. set (N := sum_cents ncs) in *.
  assert (Hn0 : 0 <= n) by (subst n; lia).
  change (2 ^ 46) with 70368744177664 in Hsize.
  assert (Hsize' : (Z.of_nat (length ncs) + 1) * (N + 1) <= 2 ^ 46).
  { rewrite Hlen. fold n. change (2 ^ 46) with 70368744177664. nia. }
  destruct (builtin_sum_of_cents v gcs Hg
              ltac:(fold n G; change (2 ^ 46) with 70368744177664; exact Hsize))
    as [Hnng Herrg].
  destruct (builtin_sum_of_cents v ncs Hn Hsize') as [Hnnn Herrn].
  rewrite Hlen in Herrn. fold n G N tg tn in Herrg, Herrn.
  set (U := 2 ^ 1074) in *.
  assert (HU : 0 < U) by (apply Z.pow_pos_nonneg; lia).
  change (2 ^ 53) with 9007199254740992 in *.
  assert (HnG : (n + 1) * G <= 70368744177664) by nia.
  assert (HnN : (n + 1) * N <= 70368744177664) by nia.
  assert (HGU : 0 <= G * U) by nia.
  assert (HNU : 0 <= N * U) by nia.
  assert (HNG : N * U <= G * U) by nia.
  assert (HnGU : (28 * n + 7) * (G * U) <= 28 * 70368744177664 * U).
  { replace ((28 * n + 7) * (G * U)) with ((28 * n + 7) * G * U) by ring.
    apply Z.mul_le_mono_nonneg_r; [lia | nia]. }
  assert (HnNU : (28 * n + 7) * (N * U) <= (28 * n + 7) * (G * U))
    by (apply Z.mul_le_mono_nonneg_l; lia).
  assert (Hfg : PyFloat.format_2f tg = cents_text G)
    by (apply format_2f_cents; [exact Hnng | lia]).
  assert (Hfn : PyFloat.format_2f tn = cents_text N)
    by (apply format_2f_cents; [exact Hnnn | lia]).
  split; [exact Hfg|]. split; [exact Hfn|].
  destruct (Z.eq_dec N G) as [Hsame|Hdiff].
  - (* nothing was discounted: the two sums are the same float *)
    assert (tn = tg) by (subst tn tg; now rewrite (Heq Hsame)).
    replace (G - N) with 0 by lia.
    rewrite H, sub_self by exact Hnng. split; reflexivity.
  - destruct (nonneg_float_units tg Hnng) as [Hrg Hug].
    destruct (nonneg_float_units tn Hnnn) as [Hrn Hun].
    assert (H2045 : 2 ^ 47 * U <= 2 ^ 2045)
      by (subst U; rewrite <- Z.pow_add_r by lia; apply Z.pow_le_mono_r; lia).
    change (2 ^ 47) with 140737488355328 in H2045.
    destruct (sub_units tg tn Hrg Hrn ltac:(lia)) as [Hrd Herrd].
    change (2 ^ 53) with 9007199254740992 in *.
    set (d := PyFloat.sub tg tn) in *.
    assert (Hnear : 2 * Z.abs (100 * units d - (G - N) * U) < U) by lia.
    assert (Hnnd : nonneg_float d) by (apply positive_units_nonneg; [exact Hrd | lia]).
    assert (Hround : PyFloat.round2 d = of_cents (G - N))
      by (apply round2_cents; [exact Hnnd | lia | exact Hnear]).
    split; [exact Hround|]. rewrite Hround.
    destruct (of_cents_units (G - N)
                ltac:(change (2 ^ 60) with 1152921504606846976; lia)) as [Hnnc Herrc].
    change (2 ^ 53) with 9007199254740992 in *.
    apply format_2f_cents; [exact Hnnc|].
    assert ((G - N) * U <= 70368744177664 * U) by nia.
    fold U in Herrc. lia.
Qed.

(** ** Strings *)

Lemma lower_ascii_casing (a b : ascii) :
  lower_ascii a = b -> a = b \/ a = upper_ascii b.
Proof.
  intros <-.
  destruct a as [[] [] [] [] [] [] [] []]; vm_compute; auto.
Qed.

Lemma lower_ascii_upper (b : ascii) :
  lower_ascii b = b -> lower_ascii (upper_ascii b) = b.
Proof.
  destruct b as [[] [] [] [] [] [] [] []]; vm_compute; auto.
Qed.

Lemma lower_casing_of (s : string) : casing_of s (lower s).
Proof.
  induction s as [|a s IH]; simpl; [exact I|].
  split; [now apply lower_ascii_casing | exact IH].
Qed.

Lemma casing_of_lower (s w : string) :
  lower w = w -> casing_of s w -> lower s = w.
Proof.
  revert w; induction s as [|a s IH]; intros [|b w]; simpl; try tauto.
  intros Hw [Hab Hsw].
  injection Hw as Hb Hw.
  f_equal; [|now apply IH].
  destruct Hab as [->| ->]; [exact Hb | now apply lower_ascii_upper].
Qed.

(** ** Discount policy *)

(** C6. [calculate_discount_pct] is a function of the client type alone,
    defined on every string; it does not look at the case of the letters:
    every casing of "vip" gives 10, of "employee" 30, of "wholesale" 15, and
    every string that is no casing of one of the three words (so "regular",
    the empty string and anything unknown) gives 0. *)
Theorem calculate_discount_pct_total_case_insensitive :
  (forall s, casing_of s "vip" -> calculate_discount_pct s = PyFloat.decimal 10 0) /\
  (forall s, casing_of s "employee" -> calculate_discount_pct s = PyFloat.decimal 30 0) /\
  (forall s, casing_of s "wholesale" -> calculate_discount_pct s = PyFloat.decimal 15 0) /\
  (forall s, ~ casing_of s "vip" -> ~ casing_of s "employee" -> ~ casing_of s "wholesale" ->
             calculate_discount_pct s = PyFloat.decimal 0 0).
Proof.
  repeat split; intros s.
  - intros H. apply casing_of_lower in H; [|reflexivity].
    unfold calculate_discount_pct. now rewrite H.
  - intros H. apply casing_of_lower in H; [|reflexivity].
    unfold calculate_discount_pct. now rewrite H.
  - intros H. apply casing_of_lower in H; [|reflexivity].
    unfold calculate_discount_pct. now rewrite H.
  - intros Hv He Hw. unfold calculate_discount_pct.
    pose proof (lower_casing_of s) as Hc.
    repeat case_decide; try reflexivity; exfalso; congruence.
Qed.

Lemma calculate_discount_pct_witness :
  calculate_discount_pct "ViP" = PyFloat.decimal 10 0 /\
  calculate_discount_pct "EMPLOYEE" = PyFloat.decimal 30 0 /\
  calculate_discount_pct "wholeSale" = PyFloat.decimal 15 0 /\
  calculate_discount_pct "regular" = PyFloat.decimal 0 0 /\
  calculate_discount_pct "gold" = PyFloat.decimal 0 0.
Proof.
  destruct calculate_discount_pct_total_case_insensitive as (Hv & He & Hw & Ho).
  split; [apply Hv; vm_compute; tauto|].
  split; [apply He; vm_compute; tauto|].
  split; [apply Hw; vm_compute; tauto|].
  split; apply Ho; apply (bool_decide_unpack _); vm_compute; exact I.
Defined.

(** ** Prompts *)

(** [choose_product_id] is the loop of the source around [safe_int]. *)
Lemma choose_product_id_safe_int (inv : gmap Z product) (lines : list (option Z)) :
  choose_product_id inv lines =
  match safe_int None None lines with
  | None => None
  | Some (prod_id, rest) =>
      if bool_decide (is_Some (inv !! prod_id)) then Some (prod_id, rest)
      else choose_product_id inv rest
  end.
Proof.
  induction lines as [|[n|] lines IH]; simpl; auto.
Qed.

Lemma safe_int_min (m : Z) (max_val : option Z) (lines rest : list (option Z)) (n : Z) :
  safe_int (Some m) max_val lines = Some (n, rest) -> m <= n.
Proof.
  induction lines as [|[k|] lines IH]; simpl; try discriminate; auto.
  destruct (k <? m) eqn:Hk; auto.
  destruct (int_above k max_val); auto.
  intros [= <- _]. lia.
Qed.

Lemma choose_product_id_found (inv : gmap Z product) (lines rest : list (option Z)) (pid : Z) :
  choose_product_id inv lines = Some (pid, rest) -> is_Some (inv !! pid).
Proof.
  induction lines as [|[k|] lines IH]; simpl; try discriminate; auto.
  case_bool_decide; auto.
  now intros [= <- _].
Qed.

(** ** Sale registration *)

Section RegisterSale.

Variables (st : ledger) (client raw_client_type : string).
Variables (pid_lines qty_lines : list (option Z)) (now : Z).
Variables (pid qty : Z) (rest_pid rest_qty : list (option Z)) (p : product).

Hypothesis client_given : client <> "".
Hypothesis pid_chosen : choose_product_id (inventory st) pid_lines = Some (pid, rest_pid).
Hypothesis product_found : inventory st !! pid = Some p.
Hypothesis qty_typed : safe_int (Some 1) None qty_lines = Some (qty, rest_qty).

Lemma register_sale_insufficient :
  qty > stock p ->
  register_sale st client raw_client_type pid_lines qty_lines now
  = (st, InsufficientStock (stock p)).
Proof using client_given pid_chosen product_found qty_typed.
  intros Hq. unfold register_sale.
  rewrite decide_False by exact client_given.
  rewrite pid_chosen, product_found, qty_typed.
  destruct (qty >? stock p) eqn:E; [reflexivity | lia].
Qed.

Lemma register_sale_overflow :
  qty <= stock p -> PyFloat.of_int qty = None ->
  register_sale st client raw_client_type pid_lines qty_lines now
  = (st, Raised OverflowError).
Proof using client_given pid_chosen product_found qty_typed.
  intros Hq Hf. unfold register_sale.
  rewrite decide_False by exact client_given.
  rewrite pid_chosen, product_found, qty_typed.
  destruct (qty >? stock p) eqn:E; [lia|].
  unfold revenue_calc. now rewrite Hf.
Qed.

Lemma register_sale_recorded (q : float) :
  qty <= stock p -> PyFloat.of_int qty = Some q ->
  exists s,
    register_sale st client raw_client_type pid_lines qty_lines now
    = (Ledger (<[pid := set_stock (stock p - qty) p]> (inventory st)) (sales st ++ [s])
              (next_product_id st) (next_sale_id st + 1),
       SaleRecorded s)
    /\ sale_id s = next_sale_id st
    /\ product_id s = pid
    /\ quantity s = qty
    /\ unit_price s = price p
    /\ discount_pct s = calculate_discount_pct (client_type s)
    /\ gross s = PyFloat.round2 (PyFloat.mul (price p) q)
    /\ net s = PyFloat.round2
                 (PyFloat.sub (gross s)
                    (PyFloat.round2
                       (PyFloat.mul (gross s) (PyFloat.div (discount_pct s) hundred)))).
Proof using client_given pid_chosen product_found qty_typed.
  intros Hq Hf. unfold register_sale.
  rewrite decide_False by exact client_given.
  rewrite pid_chosen, product_found, qty_typed.
  destruct (qty >? stock p) eqn:E; [lia|].
  unfold revenue_calc. rewrite Hf.
  eexists. split; [reflexivity|]. simpl.
  repeat split; try reflexivity.
Qed.

End RegisterSale.

(** C1 (amended: the quantity has to fit a float). A sale of [qty >= 1]
    units of a product with stock [stock p]: when [qty <= stock p] and [qty]
    can be converted to a float, exactly one sale record is appended to the
    sales log and the stock of the product becomes [stock p - qty], the
    other products being left as they are; when [qty > stock p] the
    operation reports insufficient stock and the ledger (catalog, sales log
    and counters) is the one before. *)
Theorem register_sale_all_or_nothing
    (st : ledger) (client raw_client_type : string)
    (pid_lines qty_lines : list (option Z)) (now : Z)
    (pid qty : Z) (rest_pid rest_qty : list (option Z)) (p : product) :
  client <> "" ->
  choose_product_id (inventory st) pid_lines = Some (pid, rest_pid) ->
  inventory st !! pid = Some p ->
  safe_int (Some 1) None qty_lines = Some (qty, rest_qty) ->
  let result := register_sale st client raw_client_type pid_lines qty_lines now in
  1 <= qty /\
  (qty <= stock p -> is_Some (PyFloat.of_int qty) ->
     exists s,
       result.2 = SaleRecorded s /\
       sales result.1 = sales st ++ [s] /\
       product_id s = pid /\ quantity s = qty /\
       inventory result.1 !! pid = Some (set_stock (stock p - qty) p) /\
       (forall other, other <> pid -> inventory result.1 !! other = inventory st !! other)) /\
  (qty > stock p -> result = (st, InsufficientStock (stock p))).
Proof.
  intros Hclient Hpid Hp Hqty result. subst result.
  split; [eapply safe_int_min; exact Hqty|].
  split.
  - intros Hle [q Hq].
    destruct (register_sale_recorded st client raw_client_type pid_lines qty_lines now
                pid qty rest_pid rest_qty p Hclient Hpid Hp Hqty q Hle Hq)
      as (s & -> & _ & Hs_pid & Hs_qty & _).
    exists s. simpl. repeat split; auto.
    + apply lookup_insert_eq.
    + intros other Hne. now apply lookup_insert_ne.
  - intros Hgt. eapply register_sale_insufficient; eauto.
Qed.

Lemma register_sale_all_or_nothing_witness :
  let st := initial_ledger in
  let result := register_sale st "Ana" "vip" [None; Some 9; Some 3] [Some 0; Some 4] 7 in
  (exists s,
     result.2 = SaleRecorded s /\ sales result.1 = sales st ++ [s] /\
     product_id s = 3 /\ quantity s = 4 /\
     stock <$> inventory result.1 !! 3 = Some 6) /\
  register_sale st "Ana" "vip" [Some 3] [Some 11] 7 = (st, InsufficientStock 10).
Proof.
  set (p := Product "Nexus 10 Tablet" "NovaTech" "Computers" (PyFloat.decimal 24900 2) 10 12 10).
  split.
  - destruct (register_sale_all_or_nothing initial_ledger "Ana" "vip"
                [None; Some 9; Some 3] [Some 0; Some 4] 7 3 4 [] [] p
                ltac:(discriminate) eq_refl eq_refl eq_refl)
      as (_ & Hok & _).
    destruct (Hok ltac:(simpl; lia) ltac:(vm_compute; eauto))
      as (s & H1 & H2 & H3 & H4 & H5 & _).
    exists s. split; [exact H1|]. split; [exact H2|]. split; [exact H3|].
    split; [exact H4|]. rewrite H5. reflexivity.
  - destruct (register_sale_all_or_nothing initial_ledger "Ana" "vip"
                [Some 3] [Some 11] 7 3 11 [] [] p
                ltac:(discriminate) eq_refl eq_refl eq_refl)
      as (_ & _ & Hno).
    apply Hno. simpl. lia.
Defined.

(** C1, as stated, at a quantity beyond the range of a float: the stock of
    product 1 is set to [2^1024] with [update_product], then [2^1024] units
    are sold. The quantity is at least 1 and within the stock, yet no sale is
    recorded: the conversion of the quantity in [unit_price * qty] raises
    [OverflowError] and the ledger stays as it was. *)
Lemma register_sale_huge_quantity :
  let st := (update_product initial_ledger [Some 1] "" "" "" Blank (Value (2 ^ 1024)) Blank).1 in
  let result := register_sale st "Zed" "regular" [Some 1] [Some (2 ^ 1024)] 0 in
  stock <$> inventory st !! 1 = Some (2 ^ 1024) /\
  1 <= 2 ^ 1024 /\
  result.2 = Raised OverflowError /\
  sales result.1 = sales st /\
  stock <$> inventory result.1 !! 1 = Some (2 ^ 1024).
Proof.
  repeat split; try (vm_compute; reflexivity).
  vm_compute; discriminate.
Qed.

(** ** Demo sales *)

Lemma of_int_small (q : Z) : 0 < q <= 20 -> is_Some (PyFloat.of_int q).
Proof.
  intros Hq.
  assert (Hcases : Z.to_nat q ∈ seq 1 20).
  { apply elem_of_seq. lia. }
  rewrite <- (Z2Nat.id q) by lia.
  repeat (apply elem_of_cons in Hcases as [-> | Hcases]; [vm_compute; eauto|]).
  inversion Hcases.
Qed.

(** One turn of the loop of [preload_demo_sales]. *)
Lemma preload_loop_cons (clock : Z -> Z) (d : demo_sale) (rest : list demo_sale) (st : ledger) :
  (demo_units (inventory st) d = None /\
   preload_loop clock (d :: rest) st = preload_loop clock rest st)
  \/
  (exists p qty,
     inventory st !! demo_product_id d = Some p /\
     demo_units (inventory st) d = Some qty /\
     qty = Z.min (demo_quantity d) (stock p) /\ 0 < qty /\
     ((revenue_calc (price p) qty = None /\
       preload_loop clock (d :: rest) st = (st, Raised OverflowError))
      \/
      (exists s,
         demo_amounts s /\
         sale_id s = next_sale_id st /\ client s = demo_client d /\
         client_type s = demo_client_type d /\ product_id s = demo_product_id d /\
         quantity s = qty /\ date s = clock (next_sale_id st) /\
         preload_loop clock (d :: rest) st
         = preload_loop clock rest
             (Ledger (<[demo_product_id d := set_stock (stock p - qty) p]> (inventory st))
                     (sales st ++ [s]) (next_product_id st) (next_sale_id st + 1))))).
Proof.
  unfold demo_units. simpl.
  destruct (inventory st !! demo_product_id d) as [p|] eqn:Hp; [|left; auto].
  destruct (Z.min (demo_quantity d) (stock p) <=? 0) eqn:Hq; [left; auto|].
  right. exists p, (Z.min (demo_quantity d) (stock p)).
  split; [reflexivity|]. split; [reflexivity|]. split; [reflexivity|]. split; [lia|].
  unfold revenue_calc.
  destruct (PyFloat.of_int (Z.min (demo_quantity d) (stock p))) as [q|] eqn:Hf;
    [right | left; auto].
  set (pct := calculate_discount_pct (demo_client_type d)).
  set (g := PyFloat.round2 (PyFloat.mul (price p) q)).
  exists (Sale (next_sale_id st) (demo_client d) (demo_client_type d) (demo_product_id d)
               (name p) (brand p) (Z.min (demo_quantity d) (stock p)) (price p) pct
               (clock (next_sale_id st)) g
               (PyFloat.round2 (PyFloat.mul g (PyFloat.sub one (PyFloat.div pct hundred))))).
  split; [|repeat (split; [reflexivity|]); reflexivity].
  exists q. simpl. rewrite Hf. repeat split; reflexivity.
Qed.

Section Preload.

Variable clock : Z -> Z.

(** The loop never raises on entries of at most 20 units; it appends
    sales with the amounts of the demo formula, gives them consecutive
    ids, leaves the product counter alone and keeps stocks at zero or
    above. *)
Lemma preload_loop_runs (entries : list demo_sale) (st : ledger) :
  Forall (fun d => demo_quantity d <= 20) entries ->
  exists new,
    preload_loop clock entries st
    = ((preload_loop clock entries st).1, Preloaded) /\
    sales (preload_loop clock entries st).1 = sales st ++ new /\
    Forall demo_amounts new /\
    (length new <= length entries)%nat /\
    next_sale_id (preload_loop clock entries st).1 = next_sale_id st + Z.of_nat (length new) /\
    next_product_id (preload_loop clock entries st).1 = next_product_id st /\
    (stock_nonneg st -> stock_nonneg (preload_loop clock entries st).1).
Proof.
  intros Hsmall. revert st.
  induction Hsmall as [|d rest Hd Hrest IH]; intros st.
  - exists []. simpl. rewrite app_nil_r. repeat split; auto. lia.
  - destruct (preload_loop_cons clock d rest st)
      as [[_ ->] | (p & qty & Hp & _ & Hqty & Hpos & [[Hov _] | (s & Hs & _ & _ & _ & _ & _ & _ & ->)])].
    + destruct (IH st) as (new & H1 & H2 & H3 & H4 & H5 & H6 & H7).
      exists new. repeat split; auto. simpl. lia.
    + exfalso. unfold revenue_calc in Hov.
      destruct (of_int_small qty) as [q Hq]; [lia|]. now rewrite Hq in Hov.
    + match goal with |- context [preload_loop clock rest ?st'] => set (st1 := st') end.
      destruct (IH st1) as (new & H1 & H2 & H3 & H4 & H5 & H6 & H7).
      exists (s :: new). split; [exact H1|].
      split; [rewrite H2; subst st1; simpl; now rewrite <- app_assoc|].
      split; [now constructor|].
      split; [simpl; lia|].
      split; [rewrite H5; subst st1; simpl; lia|].
      split; [rewrite H6; reflexivity|].
      intros Hnn. apply H7. subst st1. intros k pk. simpl.
      rewrite lookup_insert. case_decide as Hk.
      * intros [= <-]. simpl. specialize (Hnn _ _ Hp). lia.
      * apply Hnn.
Qed.

End Preload.

Lemma demo_small : Forall (fun d => demo_quantity d <= 20) demo.
Proof. unfold demo. repeat constructor; simpl; lia. Qed.

(** ** Amounts of a recorded sale *)

Lemma register_sale_inv (st : ledger) (client raw_client_type : string)
    (pid_lines qty_lines : list (option Z)) (now : Z) (st' : ledger) (s : sale) :
  register_sale st client raw_client_type pid_lines qty_lines now = (st', SaleRecorded s) ->
  exists p,
    inventory st !! product_id s = Some p /\
    unit_price s = price p /\
    1 <= quantity s <= stock p /\
    sale_amounts s /\
    st' = Ledger (<[product_id s := set_stock (stock p - quantity s) p]> (inventory st))
                 (sales st ++ [s]) (next_product_id st) (next_sale_id st + 1).
Proof.
  unfold register_sale.
  case_decide; [discriminate|].
  destruct (choose_product_id (inventory st) pid_lines) as [[pid rest]|]; [|discriminate].
  destruct (inventory st !! pid) as [p|] eqn:Hp; [|discriminate].
  destruct (safe_int (Some 1) None qty_lines) as [[qty rest']|] eqn:Hqty; [|discriminate].
  destruct (qty >? stock p) eqn:Hle; [discriminate|].
  unfold revenue_calc.
  destruct (PyFloat.of_int qty) as [q|] eqn:Hq; [|discriminate].
  intros [= <- <-]. simpl.
  exists p. split; [exact Hp|]. split; [reflexivity|].
  split; [apply safe_int_min in Hqty; lia|].
  split; [|reflexivity].
  exists q. simpl. repeat split; auto.
Qed.

(** C2 (amended). A sale recorded by [register_sale] has
    [gross = round(price * quantity, 2)], with the price of the product at
    that moment and the percentage of its client type, the discount amount
    [round(gross * discount / 100, 2)] and
    [net = round(gross - discount amount, 2)]. The demo sales recorded by
    [preload_demo_sales] have the same gross and
    [net = round(gross * (1 - discount / 100), 2)]. *)
Theorem recorded_sale_amounts :
  (forall st client raw_client_type pid_lines qty_lines now st' s,
     register_sale st client raw_client_type pid_lines qty_lines now = (st', SaleRecorded s) ->
     (exists p, inventory st !! product_id s = Some p /\ unit_price s = price p) /\
     sale_amounts s) /\
  (forall clock st,
     exists new,
       sales (preload_demo_sales clock st).1 = sales st ++ new /\ Forall demo_amounts new).
Proof.
  split.
  - intros st client raw pid_lines qty_lines now st' s Hrun.
    apply register_sale_inv in Hrun as (p & Hp & Hprice & _ & Hs & _).
    split; [exists p; auto | exact Hs].
  - intros clock st.
    destruct (preload_loop_runs clock demo st demo_small) as (new & _ & Hnew & Hall & _).
    exists new. auto.
Qed.

Lemma recorded_sale_amounts_witness :
  exists s,
    (register_sale (startup (fun _ => 0)) "Zed" "wholesale" [Some 2] [Some 1] 0).2
    = SaleRecorded s /\
    sale_amounts s.
Proof.
  destruct recorded_sale_amounts as [Hsale _].
  destruct (register_sale (startup (fun _ => 0)) "Zed" "wholesale" [Some 2] [Some 1] 0)
    as [st' out] eqn:Hrun.
  assert (exists s, out = SaleRecorded s) as [s ->].
  { vm_compute in Hrun. injection Hrun as _ <-. eauto. }
  exists s. split; [reflexivity|].
  exact (proj2 (Hsale _ _ _ _ _ _ _ _ Hrun)).
Defined.

(** C2, as stated, on the ledger of the first menu: one Volt Charger 65W
    (39.50) sold to a wholesale client. The recorded net is 33.58, that is
    39.50 less the rounded discount 5.92, while
    [round(gross * (1 - discount/100), 2)] is 33.57; and the float
    [gross - net] is not the discount amount 5.92 either. *)
Lemma register_sale_net_not_by_factor :
  exists st' s,
    register_sale (startup (fun _ => 0)) "Zed" "wholesale" [Some 2] [Some 1] 0
    = (st', SaleRecorded s) /\
    gross s = PyFloat.decimal 3950 2 /\
    discount_pct s = PyFloat.decimal 15 0 /\
    net s = PyFloat.decimal 3358 2 /\
    net_by_factor s = PyFloat.decimal 3357 2 /\
    net s <> net_by_factor s /\
    PyFloat.round2 (PyFloat.mul (gross s) (PyFloat.div (discount_pct s) hundred))
    = PyFloat.decimal 592 2 /\
    PyFloat.sub (gross s) (net s) <> PyFloat.decimal 592 2.
Proof.
  eexists _, _. split; [reflexivity|].
  repeat split; try (vm_compute; reflexivity); vm_compute; discriminate.
Qed.

(** ** Catalog operations *)

Lemma referenced_spec (pid : Z) (log : list sale) :
  referenced pid log = true <-> exists s, s ∈ log /\ product_id s = pid.
Proof.
  unfold referenced. rewrite existsb_exists. split.
  - intros (s & Hin & Heq). exists s. split; [now apply list_elem_of_In | lia].
  - intros (s & Hin & Heq). exists s. split; [now apply list_elem_of_In | lia].
Qed.

(** C5. Deleting a product (the id chosen at the prompt, the deletion
    confirmed with "y"): when a sale of the log references the id the
    operation reports the conflict and the ledger is the one before; when no
    sale references it the product is removed from the catalog, the other
    products and the sales log being left as they are. *)
Theorem delete_product_conflict_or_removed
    (st : ledger) (pid_lines : list (option Z)) (confirm : string)
    (pid : Z) (rest : list (option Z)) :
  choose_product_id (inventory st) pid_lines = Some (pid, rest) ->
  lower confirm = "y" ->
  let result := delete_product st pid_lines confirm in
  ((exists s, s ∈ sales st /\ product_id s = pid) -> result = (st, Conflict)) /\
  ((forall s, s ∈ sales st -> product_id s <> pid) ->
     result.2 = ProductDeleted /\
     inventory result.1 = delete pid (inventory st) /\
     inventory result.1 !! pid = None /\
     (forall other, other <> pid -> inventory result.1 !! other = inventory st !! other) /\
     sales result.1 = sales st).
Proof.
  intros Hpid Hyes result. subst result. unfold delete_product.
  rewrite Hpid, decide_True by exact Hyes.
  split.
  - intros Href. apply referenced_spec in Href. now rewrite Href.
  - intros Hfree.
    destruct (referenced pid (sales st)) eqn:Href.
    + apply referenced_spec in Href as (s & Hin & Heq). now destruct (Hfree s Hin).
    + simpl. repeat split.
      * apply lookup_delete_eq.
      * intros other Hne. now apply lookup_delete_ne.
Qed.

Lemma delete_product_conflict_or_removed_witness :
  (let st := startup (fun _ => 0) in
   delete_product st [Some 1] "Y" = (st, Conflict)) /\
  (let result := delete_product initial_ledger [Some 3] "y" in
   result.2 = ProductDeleted /\ inventory result.1 !! 3 = None /\
   sales result.1 = sales initial_ledger).
Proof.
  split.
  - intros st.
    destruct (delete_product_conflict_or_removed st [Some 1] "Y" 1 [] eq_refl eq_refl)
      as [Hconflict _].
    apply Hconflict.
    eexists. split; [apply list_elem_of_here | reflexivity].
  - intros result.
    destruct (delete_product_conflict_or_removed initial_ledger [Some 3] "y" 3 [] eq_refl eq_refl)
      as [_ Hremoved].
    destruct Hremoved as (H1 & _ & H3 & _ & H5).
    + intros s Hs. inversion Hs.
    + auto.
Defined.






(** ** Stock invariant *)

Lemma stock_nonneg_initial : stock_nonneg initial_ledger.
Proof.
  intros pid p Hp. simpl in Hp. unfold seed_inventory in Hp.
  apply elem_of_list_to_map_2 in Hp.
  repeat (apply elem_of_cons in Hp as [[= -> ->] | Hp]; [simpl; lia|]).
  inversion Hp.
Qed.

Lemma stock_nonneg_insert (st : ledger) (pid : Z) (p : product) (log : list sale) (np ns : Z) :
  stock_nonneg st -> 0 <= stock p ->
  stock_nonneg (Ledger (<[pid := p]> (inventory st)) log np ns).
Proof.
  intros Hst Hp k pk. simpl. rewrite lookup_insert.
  case_decide; [intros [= <-]; exact Hp | apply Hst].
Qed.

Lemma register_product_nonneg (st : ledger) (n b c : string)
    (price_lines : list (option float)) (stock_lines warranty_lines : list (option Z)) :
  stock_nonneg st ->
  stock_nonneg (register_product st n b c price_lines stock_lines warranty_lines).1.
Proof.
  intros Hst. unfold register_product.
  destruct (decide (n = "")); [exact Hst|].
  destruct (decide (b = "")); [exact Hst|].
  destruct (safe_float _ _ price_lines) as [[pr ?]|]; [|exact Hst].
  destruct (safe_int (Some 0) None stock_lines) as [[k ?]|] eqn:Hk; [|exact Hst].
  destruct (safe_int (Some 0) None warranty_lines) as [[w ?]|]; [|exact Hst].
  simpl. apply stock_nonneg_insert; [exact Hst|]. simpl.
  eapply safe_int_min; exact Hk.
Qed.

Lemma apply_update_stock_nonneg (n b c : string) (price_input : field_input float)
    (stock_input warranty_input : field_input Z) (p : product) :
  0 <= stock p ->
  0 <= stock (apply_update n b c price_input stock_input warranty_input p).
Proof.
  intros Hp.
  unfold apply_update, update_text, update_price, update_stock, update_warranty.
  destruct warranty_input as [| |w]; [| |destruct (w <? 0)];
    (destruct stock_input as [| |k]; [| |destruct (k <? 0) eqn:Hk]);
    (destruct price_input as [| |v]; [| |destruct (PyFloat.ltb v _)]);
    repeat case_decide; simpl; lia.
Qed.

Lemma update_product_nonneg (st : ledger) (pid_lines : list (option Z)) (n b c : string)
    (price_input : field_input float) (stock_input warranty_input : field_input Z) :
  stock_nonneg st ->
  stock_nonneg (update_product st pid_lines n b c price_input stock_input warranty_input).1.
Proof.
  intros Hst. unfold update_product.
  destruct (choose_product_id _ pid_lines) as [[pid ?]|]; [|exact Hst].
  destruct (inventory st !! pid) as [p|] eqn:Hp; [|exact Hst].
  simpl. apply stock_nonneg_insert; [exact Hst|].
  apply apply_update_stock_nonneg. eapply Hst, Hp.
Qed.

Lemma delete_product_nonneg (st : ledger) (pid_lines : list (option Z)) (confirm : string) :
  stock_nonneg st -> stock_nonneg (delete_product st pid_lines confirm).1.
Proof.
  intros Hst. unfold delete_product.
  destruct (choose_product_id _ pid_lines) as [[pid ?]|]; [|exact Hst].
  case_decide; [|exact Hst].
  destruct (referenced pid (sales st)); [exact Hst|].
  intros k pk. simpl. rewrite lookup_delete.
  case_decide; [discriminate | apply Hst].
Qed.

Lemma register_sale_unchanged (st : ledger) (client raw_client_type : string)
    (pid_lines qty_lines : list (option Z)) (now : Z) :
  (exists s, (register_sale st client raw_client_type pid_lines qty_lines now).2
             = SaleRecorded s) \/
  (register_sale st client raw_client_type pid_lines qty_lines now).1 = st.
Proof.
  unfold register_sale.
  repeat first [case_decide | case_match]; simpl; eauto.
Qed.

Lemma register_sale_nonneg (st : ledger) (client raw_client_type : string)
    (pid_lines qty_lines : list (option Z)) (now : Z) :
  stock_nonneg st ->
  stock_nonneg (register_sale st client raw_client_type pid_lines qty_lines now).1.
Proof.
  intros Hst.
  destruct (register_sale_unchanged st client raw_client_type pid_lines qty_lines now)
    as [[s Hs] | ->]; [|exact Hst].
  destruct (register_sale st client raw_client_type pid_lines qty_lines now)
    as [st' out] eqn:Hrun.
  simpl in Hs. subst out.
  apply register_sale_inv in Hrun as (p & _ & _ & Hq & _ & ->).
  simpl. apply stock_nonneg_insert; [exact Hst|]. simpl. lia.
Qed.

Lemma run_nonneg (st : ledger) (c : command) :
  stock_nonneg st -> stock_nonneg (run st c).1.
Proof.
  intros Hst. destruct c; simpl.
  - now apply register_product_nonneg.
  - now apply update_product_nonneg.
  - now apply delete_product_nonneg.
  - now apply register_sale_nonneg.
  - unfold preload_demo_sales.
    destruct (preload_loop_runs clock demo st demo_small) as (new & _ & _ & _ & _ & _ & _ & H).
    now apply H.
Qed.

Lemma run_all_nonneg (cmds : list command) (st : ledger) :
  stock_nonneg st -> stock_nonneg (run_all st cmds).
Proof.
  revert st. induction cmds as [|c cmds IH]; intros st Hst; [exact Hst|].
  apply (IH (run st c).1). now apply run_nonneg.
Qed.

(** A session of the program is the demo preload followed by the commands
    chosen at the menu. *)
Lemma main_menu_run_all (clock : Z -> Z) (cmds : list command) :
  main_menu clock cmds = run_all initial_ledger (PreloadDemoSales clock :: cmds).
Proof. reflexivity. Qed.

(** C4. In the ledger reached from the initial one by any sequence of
    product registrations, product updates, product deletions, sale
    registrations and demo preloads, with whatever is typed at the prompts,
    the stock of every product of the catalog is an integer that is at
    least zero. *)
Theorem stock_never_negative (cmds : list command) (pid : Z) (p : product) :
  inventory (run_all initial_ledger cmds) !! pid = Some p -> 0 <= stock p.
Proof.
  apply (run_all_nonneg cmds initial_ledger stock_nonneg_initial).
Qed.

Lemma stock_never_negative_witness :
  let cmds := [ PreloadDemoSales (fun _ => 0);
                RegisterSale "Zed" "" [Some 4] [Some 0; Some 4] 0;
                UpdateProduct [Some 2] "" "" "" Blank (Value (-3)) Blank ] in
  exists p4 p2,
    inventory (run_all initial_ledger cmds) !! 4 = Some p4 /\
    inventory (run_all initial_ledger cmds) !! 2 = Some p2 /\
    stock p4 = 0 /\ stock p2 = 35 /\ 0 <= stock p4 /\ 0 <= stock p2.
Proof.
  intros cmds.
  assert (H4 : inventory (run_all initial_ledger cmds) !! 4
               = Some (Product "PixelCam 4K" "OptiSight" "Cameras"
                               (PyFloat.decimal 49900 2) 0 24 6))
    by (vm_compute; reflexivity).
  assert (H2 : inventory (run_all initial_ledger cmds) !! 2
               = Some (Product "Volt Charger 65W" "Ampere" "Power"
                               (PyFloat.decimal 3950 2) 35 24 40))
    by (vm_compute; reflexivity).
  eexists _, _.
  split; [exact H4|]. split; [exact H2|].
  split; [reflexivity|]. split; [reflexivity|].
  split; [exact (stock_never_negative cmds 4 _ H4) | exact (stock_never_negative cmds 2 _ H2)].
Defined.

(** ** Units sold per product *)

Lemma dict_get_add (k q : Z) (d : list (Z * Z)) (pid : Z) :
  dict_get (dict_add k q d) pid 0
  = dict_get d pid 0 + (if decide (k = pid) then q else 0).
Proof.
  induction d as [|[k' v] d IH]; simpl.
  - repeat case_decide; lia.
  - destruct (decide (k' = k)) as [->|Hk]; simpl.
    + repeat case_decide; lia.
    + rewrite IH. repeat case_decide; lia.
Qed.

Lemma dict_get_fold (log : list sale) (d : list (Z * Z)) (pid : Z) :
  dict_get (fold_left (fun d s => dict_add (product_id s) (quantity s) d) log d) pid 0
  = dict_get d pid 0 + units_sold pid log.
Proof.
  revert d. induction log as [|s log IH]; intros d; simpl; [lia|].
  rewrite IH, dict_get_add. lia.
Qed.

(** [sold.get(pid, 0)] is the number of units of [pid] in the sales log. *)
Lemma dict_get_count_sold (log : list sale) (pid : Z) :
  dict_get (count_sold log) pid 0 = units_sold pid log.
Proof. unfold count_sold. now rewrite dict_get_fold. Qed.

(** ** Income report *)


(** C8 (amended: amounts in whole cents, of bounded size). With at least one
    sale in the log, when the gross and the net amount of every sale are
    whole cents, the net at most the gross, and the number of sales plus one
    times the total gross in cents plus one is at most [2^46], the income
    report prints as total gross the exact sum of the gross amounts, as
    total net the exact sum of the net amounts and as total discount the
    exact total gross less the exact total net, each with two decimals;
    the total discount it computes is that difference as a float. This holds
    whether the builtin [sum] adds the floats from left to right or with
    compensation. *)
Theorem income_report_totals
    (v : summation) (st : ledger) (gross_cents net_cents : list Z) :
  sales st <> [] ->
  gross <$> sales st = of_cents <$> gross_cents ->
  net <$> sales st = of_cents <$> net_cents ->
  Forall2 (fun n g => 0 <= n <= g) net_cents gross_cents ->
  (Z.of_nat (length (sales st)) + 1) * (sum_cents gross_cents + 1) <= 2 ^ 46 ->
  exists r,
    income_report v st = Some (r, income_lines r) /\
    total_discount r = of_cents (sum_cents gross_cents - sum_cents net_cents) /\
    income_lines r
    = [ " - Total gross revenue: $" +:+ cents_text (sum_cents gross_cents);
        " - Total discounts:     $" +:+
          cents_text (sum_cents gross_cents - sum_cents net_cents);
        " - Total net revenue:   $" +:+ cents_text (sum_cents net_cents) ].
Proof.
  intros Hlog Hgross Hnet Hcents Hsize. unfold income_report.
  destruct (sales st) as [|s log] eqn:Hs; [congruence|].
  rewrite <- Hs in *. clear Hs s log.
  assert (Hlen : length (sales st) = length gross_cents).
  { rewrite <- (length_fmap gross (sales st)), Hgross. apply length_fmap. }
  rewrite Hlen in Hsize.
  destruct (income_amounts v gross_cents net_cents Hcents Hsize)
    as (Hfg & Hfn & Hround & Hfd).
  eexists. split; [reflexivity|].
  unfold income_lines, income_totals. cbn [total_gross total_discount total_net].
  rewrite Hgross, Hnet. split; [exact Hround|].
  now rewrite Hfg, Hfn, Hfd.
Qed.

Lemma income_report_totals_witness :
  exists r,
    income_report Compensated (startup (fun _ => 0)) = Some (r, income_lines r) /\
    income_lines r = [ " - Total gross revenue: $2084.27";
                       " - Total discounts:     $158.67";
                       " - Total net revenue:   $1925.60" ].
Proof.
  destruct (income_report_totals Compensated (startup (fun _ => 0))
              [23997; 19750; 39980; 24900; 99800]
              [21597; 19750; 33983; 17430; 99800])
    as (r & Hrun & _ & Hlines).
  - vm_compute. discriminate.
  - vm_compute. reflexivity.
  - vm_compute. reflexivity.
  - repeat constructor; lia.
  - vm_compute. discriminate.
  - exists r. split; [exact Hrun|].
    rewrite Hlines. vm_compute. reflexivity.
Defined.

(** C8, as stated, in a session in which a product priced at [2^53] and a
    product priced at 1 are registered and sold once each after the demo
    sales. Every gross amount of the log is a whole number of cents and
    their sum is 9007199254743077.27; no double is that close to it, and the
    report prints 9007199254743076.00 when [sum] adds from left to right
    and 9007199254743078.00 when it adds with compensation. *)
Lemma income_report_large_amounts :
  let st := main_menu (fun _ => 0)
              [ RegisterProduct "Vault" "Aurum" ""
                  [Some (PyFloat.decimal 9007199254740992 0)] [Some 1] [Some 0];
                RegisterSale "Zed" "" [Some 6] [Some 1] 0;
                RegisterProduct "Coin" "Aurum" "" [Some (PyFloat.decimal 1 0)] [Some 1] [Some 0];
                RegisterSale "Zed" "" [Some 7] [Some 1] 0 ] in
  let gross_cents := [23997; 19750; 39980; 24900; 99800; 900719925474099200; 100] in
  gross <$> sales st = of_cents <$> gross_cents /\
  cents_text (sum_cents gross_cents) = "9007199254743077.27" /\
  (exists r, income_report LeftToRight st = Some (r, income_lines r) /\
             100 * units (total_gross r) <> sum_cents gross_cents * 2 ^ 1074 /\
             income_lines r !! 0%nat
             = Some " - Total gross revenue: $9007199254743076.00") /\
  (exists r, income_report Compensated st = Some (r, income_lines r) /\
             100 * units (total_gross r) <> sum_cents gross_cents * 2 ^ 1074 /\
             income_lines r !! 0%nat
             = Some " - Total gross revenue: $9007199254743078.00").
Proof.
  intros st gross_cents.
  split; [vm_compute; reflexivity|].
  split; [vm_compute; reflexivity|].
  split.
  - eexists. split; [reflexivity|].
    split; [vm_compute; discriminate | vm_compute; reflexivity].
  - eexists. split; [reflexivity|].
    split; [vm_compute; discriminate | vm_compute; reflexivity].
Qed.

(** ** Inventory performance *)


#[local] Instance id_le_transitive : Transitive id_le.
Proof. intros a b c. unfold id_le. lia. Qed.

#[local] Instance id_le_total : Total id_le.
Proof. intros a b. unfold id_le. lia. Qed.

Lemma catalog_items_elem_of (inv : gmap Z product) (pid : Z) (p : product) :
  (pid, p) ∈ catalog_items inv <-> inv !! pid = Some p.
Proof.
  unfold catalog_items. rewrite (merge_sort_Permutation id_le).
  apply elem_of_map_to_list.
Qed.

Lemma catalog_items_NoDup (inv : gmap Z product) : NoDup (catalog_items inv).*1.
Proof.
  unfold catalog_items. rewrite (merge_sort_Permutation id_le).
  apply NoDup_fst_map_to_list.
Qed.

Lemma catalog_items_sorted (inv : gmap Z product) :
  StronglySorted id_le (catalog_items inv).
Proof. apply StronglySorted_merge_sort; apply _. Qed.

(** The lines of the loop are lines of the products it is given. *)
Lemma performance_loop_elem_of (sold : list (Z * Z)) (items : list (Z * product))
    (pid : Z) (l : perf_line) :
  (pid, l) ∈ (performance_loop sold items).1 ->
  exists p, (pid, p) ∈ items /\ performance_line sold pid p = Some l.
Proof.
  induction items as [|[k p] items IH]; simpl.
  - intros H. inversion H.
  - destruct (performance_line sold k p) as [l0|] eqn:Hl; simpl.
    + intros Hin. apply elem_of_cons in Hin as [Heq | Hin].
      * injection Heq as -> ->. exists p. split; [apply list_elem_of_here | exact Hl].
      * destruct (IH Hin) as (p' & Hin' & Hl'). exists p'.
        split; [now apply list_elem_of_further | exact Hl'].
    + intros H. inversion H.
Qed.

(** The loop ends normally exactly when every product has a line, and the
    only exception that ends it is the one of the division. *)
Lemma performance_loop_raised (sold : list (Z * Z)) (items : list (Z * product)) :
  ((performance_loop sold items).2 = None \/
   (performance_loop sold items).2 = Some OverflowError) /\
  ((performance_loop sold items).2 = None <->
   forall pid p, (pid, p) ∈ items -> performance_line sold pid p <> None).
Proof.
  induction items as [|[k p] items [IHcase IHiff]]; simpl.
  - split; [now left|]. split; [|reflexivity].
    intros _ pid p H. inversion H.
  - destruct (performance_line sold k p) as [l0|] eqn:Hl; simpl.
    + split; [exact IHcase|]. rewrite IHiff. split.
      * intros Hall pid q Hin. apply elem_of_cons in Hin as [Heq | Hin].
        -- injection Heq as -> ->. congruence.
        -- now apply Hall.
      * intros Hall pid q Hin. apply Hall. now apply list_elem_of_further.
    + split; [now right|]. split; [discriminate|].
      intros Hall. destruct (Hall k p); [apply list_elem_of_here | exact Hl].
Qed.

(** In a catalog visited by ascending id, a product has a line exactly when
    the division raises neither for it nor for a product before it. *)
Lemma performance_loop_covers (sold : list (Z * Z)) (items : list (Z * product))
    (pid : Z) (p : product) :
  StronglySorted id_le items -> NoDup items.*1 -> (pid, p) ∈ items ->
  ((exists l, (pid, l) ∈ (performance_loop sold items).1) <->
   forall pid' p', (pid', p') ∈ items -> pid' <= pid ->
                   performance_line sold pid' p' <> None).
Proof.
  induction items as [|[k q] items IH]; intros Hsorted Hnodup Hin.
  - inversion Hin.
  - apply StronglySorted_inv in Hsorted as [Hsorted Hhd].
    rewrite fmap_cons in Hnodup. apply NoDup_cons in Hnodup as [Hfresh Hnodup].
    assert (Hlater : forall k' q', (k', q') ∈ items -> k < k').
    { intros k' q' Hin'.
      pose proof (proj1 (Forall_forall _ _) Hhd _ Hin') as Hle.
      unfold id_le in Hle. simpl in Hle.
      assert (k' <> k).
      { intros ->. apply Hfresh. apply list_elem_of_fmap. now exists (k, q'). }
      lia. }
    simpl. destruct (performance_line sold k q) as [l0|] eqn:Hl; simpl.
    + apply elem_of_cons in Hin as [Heq | Hin].
      * injection Heq as -> ->. split.
        -- intros _ pid' p' Hin' Hle. apply elem_of_cons in Hin' as [Heq | Hin'].
           ++ injection Heq as -> ->. congruence.
           ++ pose proof (Hlater _ _ Hin'). lia.
        -- intros _. exists l0. apply list_elem_of_here.
      * pose proof (Hlater _ _ Hin) as Hlt.
        destruct (IH Hsorted Hnodup Hin) as [IH1 IH2]. split.
        -- intros [l Hl'] pid' p' Hin' Hle. apply elem_of_cons in Hl' as [Heq | Hl'].
           ++ injection Heq as -> ->. lia.
           ++ apply elem_of_cons in Hin' as [Heq | Hin'].
              ** injection Heq as -> ->. congruence.
              ** apply (IH1 (ex_intro _ l Hl')); assumption.
        -- intros Hall. destruct IH2 as [l Hl'].
           ++ intros pid' p' Hin' Hle. apply Hall; [|exact Hle].
              now apply list_elem_of_further.
           ++ exists l. now apply list_elem_of_further.
    + split.
      * intros [l H]. inversion H.
      * intros Hall. exfalso. apply (Hall k q); [apply list_elem_of_here | | exact Hl].
        apply elem_of_cons in Hin as [Heq | Hin].
        -- injection Heq as -> ->. lia.
        -- pose proof (Hlater _ _ Hin). lia.
Qed.

(** The division of a product raises exactly when its line is missing. *)
Lemma performance_line_none (log : list sale) (pid : Z) (p : product) :
  performance_line (count_sold log) pid p = None <-> turnover_overflows log pid p.
Proof.
  unfold performance_line, turnover_overflows, turnover_pct.
  rewrite dict_get_count_sold.
  destruct (initial_stock p >? 0) eqn:Hi.
  - destruct (PyFloat.int_true_divide _ _) as [q|]; split;
      try discriminate; try tauto.
    + intros [_ H]. discriminate.
    + intros _. split; [lia | reflexivity].
  - split; [discriminate | intros [H _]; lia].
Qed.





(** A division that overflows ends the report. A product with an initial
    stock of 1 is registered, then a second product; the stock of the first
    is set to [2^1025] and [2^1023] units of it are sold twice. The report
    prints the lines of the five seed products, [2^1024 / 1] raises
    [OverflowError], and the second new product has no line although its
    own line could be computed. *)
Example inventory_performance_overflow :
  let st := main_menu (fun _ => 0)
              [ RegisterProduct "Bulk" "Acme" "" [Some (PyFloat.decimal 0 0)] [Some 1] [Some 0];
                RegisterProduct "Lamp" "Lux" "" [Some (PyFloat.decimal 5 0)] [Some 8] [Some 0];
                UpdateProduct [Some 6] "" "" "" Blank (Value (2 ^ 1025)) Blank;
                RegisterSale "Zed" "" [Some 6] [Some (2 ^ 1023)] 0;
                RegisterSale "Zed" "" [Some 6] [Some (2 ^ 1023)] 0 ] in
  exists lines p,
    inventory_performance st = Performance lines (Some OverflowError) /\
    lines.*1 = [1; 2; 3; 4; 5] /\
    inventory st !! 7 = Some p /\
    performance_line (count_sold (sales st)) 7 p <> None.
Proof.
  intros st.
  destruct (inventory_performance st) as [|lines raised] eqn:Hrun;
    [vm_compute in Hrun; discriminate|].
  vm_compute in Hrun. injection Hrun as <- <-.
  eexists _, _. split; [reflexivity|]. split; [reflexivity|].
  split; [vm_compute; reflexivity|].
  vm_compute. discriminate.
Qed.

(** ** Top-N report *)

Lemma dict_add_keys (k q : Z) (d : list (Z * Z)) :
  (dict_add k q d).*1 = if decide (k ∈ d.*1) then d.*1 else d.*1 ++ [k].
Proof.
  induction d as [|[k' v] d IH]; [reflexivity|].
  cbn [dict_add]. rewrite (fmap_cons fst (k', v) d). cbn [fst].
  destruct (decide (k' = k)) as [->|Hk].
  - rewrite decide_True by apply list_elem_of_here. reflexivity.
  - rewrite fmap_cons. cbn [fst]. rewrite IH.
    destruct (decide (k ∈ d.*1)) as [Hin|Hin].
    + rewrite decide_True by (now apply list_elem_of_further). reflexivity.
    + rewrite decide_False; [reflexivity|].
      intros [?|?]%elem_of_cons; congruence.
Qed.

Lemma count_sold_keys_fold (log : list sale) (d : list (Z * Z)) :
  (fold_left (fun d s => dict_add (product_id s) (quantity s) d) log d).*1
  = fold_left (fun seen x => if decide (x ∈ seen) then seen else seen ++ [x])
              (product_id <$> log) d.*1.
Proof.
  revert d. induction log as [|s log IH]; intros d; simpl; [reflexivity|].
  now rewrite IH, dict_add_keys.
Qed.

(** The keys of [sold] are the product ids of the log in the order in which
    they first occur. *)
Lemma count_sold_keys (log : list sale) :
  (count_sold log).*1 = first_seen (product_id <$> log).
Proof. unfold count_sold, first_seen. now rewrite count_sold_keys_fold. Qed.

Lemma first_seen_fold_NoDup (l seen : list Z) :
  NoDup seen ->
  NoDup (fold_left (fun seen x => if decide (x ∈ seen) then seen else seen ++ [x]) l seen).
Proof.
  revert seen. induction l as [|x l IH]; intros seen Hseen; simpl; [exact Hseen|].
  apply IH. case_decide as Hx; [exact Hseen|].
  apply NoDup_app. repeat split; auto.
  - intros y Hy ->%list_elem_of_singleton. contradiction.
  - apply NoDup_singleton.
Qed.

Lemma count_sold_NoDup (log : list sale) : NoDup (count_sold log).*1.
Proof. rewrite count_sold_keys. apply first_seen_fold_NoDup, NoDup_nil_2. Qed.

Lemma dict_get_elem_of (d : list (Z * Z)) (k v default : Z) :
  NoDup d.*1 -> (k, v) ∈ d -> dict_get d k default = v.
Proof.
  induction d as [|[k' v'] d IH]; simpl; intros Hnd Hin; [inversion Hin|].
  apply NoDup_cons in Hnd as [Hk' Hnd].
  apply elem_of_cons in Hin as [[= -> ->] | Hin].
  - now rewrite decide_True.
  - rewrite decide_False; [now apply IH|].
    intros ->. apply Hk'. apply list_elem_of_fmap. now exists (k, v).
Qed.

(** Every entry of [sold] carries the units of its product in the log. *)
Lemma count_sold_total (log : list sale) (pid q : Z) :
  (pid, q) ∈ count_sold log -> q = units_sold pid log.
Proof.
  intros Hin. rewrite <- dict_get_count_sold.
  symmetry. apply dict_get_elem_of; [apply count_sold_NoDup | exact Hin].
Qed.

Lemma count_sold_nonempty (log : list sale) : log <> [] -> count_sold log <> [].
Proof.
  destruct log as [|s log _] using rev_ind; [congruence|].
  intros _. unfold count_sold. rewrite fold_left_app. simpl.
  destruct (fold_left _ log []) as [|[k v] d]; simpl; [discriminate|].
  case_decide; discriminate.
Qed.

Lemma insert_desc_perm (x : Z * Z) (l : list (Z * Z)) : insert_desc x l ≡ₚ x :: l.
Proof.
  induction l as [|y l IH]; simpl; [reflexivity|].
  destruct (x.2 >=? y.2); [reflexivity|].
  rewrite IH. apply Permutation_swap.
Qed.

Lemma sorted_desc_perm (l : list (Z * Z)) : sorted_desc l ≡ₚ l.
Proof.
  induction l as [|x l IH]; simpl; [reflexivity|].
  now rewrite insert_desc_perm, IH.
Qed.

Lemma insert_desc_sorted (x : Z * Z) (l : list (Z * Z)) :
  StronglySorted by_quantity_desc l -> StronglySorted by_quantity_desc (insert_desc x l).
Proof.
  induction l as [|y l IH]; simpl; intros Hl.
  - repeat constructor.
  - apply StronglySorted_cons in Hl as [Hy Hl].
    destruct (x.2 >=? y.2) eqn:Hxy.
    + apply StronglySorted_cons. split; [|now apply StronglySorted_cons].
      constructor; [unfold by_quantity_desc; lia|].
      eapply Forall_impl; [exact Hy|]. unfold by_quantity_desc. intros z Hz. lia.
    + apply StronglySorted_cons. split; [|now apply IH].
      rewrite insert_desc_perm. constructor; [unfold by_quantity_desc; lia | exact Hy].
Qed.

Lemma sorted_desc_sorted (l : list (Z * Z)) : StronglySorted by_quantity_desc (sorted_desc l).
Proof.
  induction l as [|x l IH]; simpl; [constructor | now apply insert_desc_sorted].
Qed.

(** The sort is stable: the items of one quantity keep their order. *)
Lemma insert_desc_stable (v : Z) (x : Z * Z) (l : list (Z * Z)) :
  filter (fun z => z.2 = v) (insert_desc x l) = filter (fun z => z.2 = v) (x :: l).
Proof.
  induction l as [|y l IH]; simpl; [reflexivity|].
  destruct (x.2 >=? y.2) eqn:Hxy; [reflexivity|].
  rewrite (filter_cons _ y (insert_desc x l)), IH.
  rewrite !filter_cons. simpl.
  repeat case_decide; try reflexivity. lia.
Qed.

Lemma sorted_desc_stable (v : Z) (l : list (Z * Z)) :
  filter (fun z => z.2 = v) (sorted_desc l) = filter (fun z => z.2 = v) l.
Proof.
  induction l as [|x l IH]; simpl; [reflexivity|].
  rewrite insert_desc_stable, !filter_cons, IH. reflexivity.
Qed.

Lemma enumerate_top_lookup (inv : gmap Z product) (l : list (Z * Z)) (rank : Z)
    (i : nat) (pid q : Z) :
  l !! i = Some (pid, q) ->
  enumerate_top inv rank l !! i
  = Some (TopLine (rank + Z.of_nat i) (label_of inv pid) pid q).
Proof.
  revert rank i. induction l as [|[k v] l IH]; intros rank [|i]; simpl; try discriminate.
  - intros [= -> ->]. do 2 f_equal. lia.
  - intros Hi. rewrite (IH (rank + 1) i Hi). do 2 f_equal. lia.
Qed.

Lemma enumerate_top_length (inv : gmap Z product) (l : list (Z * Z)) (rank : Z) :
  length (enumerate_top inv rank l) = length l.
Proof.
  revert rank. induction l as [|[k v] l IH]; intros rank; simpl; [reflexivity|].
  now rewrite IH.
Qed.

(** C7. The Top-N report adds up the quantities of the sales log per
    product id, the ids being kept in the order in which they first occur in
    the log; it ranks these totals with the larger total first, totals that
    are equal keeping that order (the sort is stable); it prints the first
    [n] entries of the ranking, numbered from 1, each with the name of its
    product, or "Deleted product" when the id is not in the catalog. Without
    sales it only reports that there is nothing to show. *)
Theorem top_n_products_ranking (n : nat) (st : ledger) :
  let sold := count_sold (sales st) in
  (sales st = [] -> top_n_products n st = None) /\
  (sales st <> [] ->
   exists ranked,
     top_n_products n st = Some (enumerate_top (inventory st) 1 (take n ranked)) /\
     sold.*1 = first_seen (product_id <$> sales st) /\
     (forall pid q, (pid, q) ∈ sold -> q = units_sold pid (sales st)) /\
     ranked ≡ₚ sold /\
     StronglySorted by_quantity_desc ranked /\
     (forall v, filter (fun x => x.2 = v) ranked = filter (fun x => x.2 = v) sold) /\
     length (enumerate_top (inventory st) 1 (take n ranked)) = (n `min` length sold)%nat /\
     (forall i pid q,
        take n ranked !! i = Some (pid, q) ->
        enumerate_top (inventory st) 1 (take n ranked) !! i
        = Some (TopLine (1 + Z.of_nat i)
                        (match inventory st !! pid with
                         | Some prod => name prod
                         | None => "Deleted product"
                         end)
                        pid q))).
Proof.
  intros sold. subst sold. split.
  - intros Hlog. unfold top_n_products. now rewrite Hlog.
  - intros Hlog. exists (sorted_desc (count_sold (sales st))).
    split.
    { unfold top_n_products.
      pose proof (count_sold_nonempty _ Hlog) as Hne.
      destruct (count_sold (sales st)); [congruence | reflexivity]. }
    split; [apply count_sold_keys|].
    split; [apply count_sold_total|].
    split; [apply sorted_desc_perm|].
    split; [apply sorted_desc_sorted|].
    split; [intros v; apply sorted_desc_stable|].
    split.
    { rewrite enumerate_top_length, length_take.
      now rewrite (Permutation_length (sorted_desc_perm _)). }
    intros i pid q Hi. now apply enumerate_top_lookup.
Qed.

Lemma top_n_products_ranking_witness :
  let st := startup (fun _ => 0) in
  exists ranked,
    top_n_products 3 st = Some (enumerate_top (inventory st) 1 (take 3 ranked)) /\
    ranked ≡ₚ count_sold (sales st) /\
    StronglySorted by_quantity_desc ranked /\
    length (enumerate_top (inventory st) 1 (take 3 ranked)) = 3%nat.
Proof.
  intros st.
  destruct (top_n_products_ranking 3 st) as [_ Hranked].
  destruct Hranked as (ranked & Hrun & _ & _ & Hperm & Hsorted & _ & Hlen & _).
  - vm_compute. discriminate.
  - exists ranked. rewrite Hlen. repeat split; auto.
Defined.

(** The report of the first menu, and a report with a tie and with a sale
    whose product is not in the catalog: product 8, seen before product 9,
    stays before it. *)
Example top_n_products_startup :
  top_n_products 3 (startup (fun _ => 0))
  = Some [ TopLine 1 "HomeSyx SmartPlug" 5 20;
           TopLine 2 "Volt Charger 65W" 2 5;
           TopLine 3 "Aurora Headphones" 1 3 ].
Proof. vm_compute. reflexivity. Qed.

Example top_n_products_tie :
  let zero := PyFloat.decimal 0 0 in
  let s pid qty := Sale 1 "c" "regular" pid "n" "b" qty zero zero 0 zero zero in
  top_n_products 3 (Ledger seed_inventory [s 8 2; s 9 1; s 1 4; s 9 1] 6 5)
  = Some [ TopLine 1 "Aurora Headphones" 1 4;
           TopLine 2 "Deleted product" 8 2;
           TopLine 3 "Deleted product" 9 2 ].
Proof. vm_compute. reflexivity. Qed.

(** ** Demo sales at startup *)

Lemma set_stock_same (p : product) : set_stock (stock p - 0) p = p.
Proof. destruct p. unfold set_stock. simpl. f_equal. lia. Qed.

Lemma set_stock_twice (a b : Z) (p : product) :
  set_stock a (set_stock b p) = set_stock a p.
Proof. reflexivity. Qed.

Lemma demo_record_insert (inv : gmap Z product) (pid : Z) (p : product) (d : demo_sale) :
  demo_product_id d <> pid -> demo_record (<[pid := p]> inv) d = demo_record inv d.
Proof.
  intros Hne. unfold demo_record, demo_units. now rewrite lookup_insert_ne.
Qed.

Section PreloadRecords.

Variable clock : Z -> Z.

(** The loop over entries of distinct products, of at most 20 units each:
    what is appended to the log is decided by the catalog at the start, the
    ids continue the counter, and the stock of every product goes down by
    the units of it that were sold. *)
Lemma preload_loop_records (entries : list demo_sale) (st : ledger) :
  NoDup (demo_product_id <$> entries) ->
  Forall (fun d => demo_quantity d <= 20) entries ->
  exists new,
    sales (preload_loop clock entries st).1 = sales st ++ new /\
    sale_record <$> new = omap (demo_record (inventory st)) entries /\
    (forall i s, new !! i = Some s ->
       sale_id s = next_sale_id st + Z.of_nat i /\ date s = clock (sale_id s)) /\
    (forall k, inventory (preload_loop clock entries st).1 !! k
               = (fun p => set_stock (stock p - units_sold k new) p) <$> inventory st !! k).
Proof.
  intros Hnd Hsmall. revert st Hnd.
  induction Hsmall as [|d rest Hd Hrest IH]; intros st Hnd.
  - exists []. split; [simpl; now rewrite app_nil_r|].
    split; [reflexivity|].
    split; [intros i s Hi; destruct i; discriminate|].
    intros k. simpl. destruct (inventory st !! k) as [p|]; simpl; [|reflexivity].
    now rewrite set_stock_same.
  - rewrite fmap_cons in Hnd. apply NoDup_cons in Hnd as [Hfresh Hnd].
    destruct (preload_loop_cons clock d rest st)
      as [[Hnone ->] | (p & qty & Hp & Hunits & Hqty & Hpos &
                        [[Hov _] | (s & _ & Hid & Hcl & Hty & Hpid & Hq & Hdate & ->)])].
    + destruct (IH st Hnd) as (new & H1 & H2 & H3 & H4).
      exists new. split; [exact H1|].
      split; [|split; [exact H3 | exact H4]].
      rewrite H2. simpl. unfold demo_record at 2. now rewrite Hnone.
    + exfalso. unfold revenue_calc in Hov.
      destruct (of_int_small qty) as [q Hfq]; [lia|]. now rewrite Hfq in Hov.
    + match goal with |- context [preload_loop clock rest ?st'] => set (st1 := st') end.
      destruct (IH st1 Hnd) as (new & H1 & H2 & H3 & H4).
      exists (s :: new).
      split; [rewrite H1; subst st1; simpl; now rewrite <- app_assoc|].
      split.
      { rewrite fmap_cons, H2. simpl. unfold demo_record at 2. rewrite Hunits.
        unfold sale_record. rewrite Hcl, Hty, Hpid, Hq. f_equal.
        apply list_omap_ext, Forall_Forall2_diag, Forall_forall.
        intros d' Hd'. subst st1. simpl. apply demo_record_insert.
        intros Heq. apply Hfresh. rewrite <- Heq. apply list_elem_of_fmap. now exists d'. }
      split.
      { intros [|i] s' Hi; simpl in Hi.
        - injection Hi as <-. rewrite Hdate, Hid. split; [lia | reflexivity].
        - destruct (H3 i s' Hi) as [H3a H3b]. split; [|exact H3b].
          rewrite H3a. subst st1. simpl. lia. }
      intros k. rewrite H4. subst st1. simpl.
      rewrite lookup_insert. rewrite Hpid, Hq.
      destruct (decide (demo_product_id d = k)) as [<-|Hk].
      * rewrite Hp. simpl. f_equal. unfold set_stock. simpl. f_equal. lia.
      * destruct (inventory st !! k) as [pk|]; simpl; reflexivity.
Qed.

End PreloadRecords.

Lemma demo_distinct : NoDup (demo_product_id <$> demo).
Proof. apply (bool_decide_unpack _). vm_compute. exact I. Qed.

Lemma demo_units_clamped (inv : gmap Z product) (d : demo_sale) (q : Z) :
  demo_units inv d = Some q <->
  exists p, inv !! demo_product_id d = Some p /\
            q = Z.min (demo_quantity d) (stock p) /\ 0 < q.
Proof.
  unfold demo_units. split.
  - destruct (inv !! demo_product_id d) as [p|]; [|discriminate].
    destruct (Z.min (demo_quantity d) (stock p) <=? 0) eqn:Hq; [discriminate|].
    intros [= <-]. exists p. repeat split; lia.
  - intros (p & -> & -> & Hpos).
    destruct (Z.min (demo_quantity d) (stock p) <=? 0) eqn:Hq; [lia | reflexivity].
Qed.

(** C10. [preload_demo_sales] never fails and appends at most five sales to
    the log, one for each of the five hard-coded entries (Alice, Bob,
    Charlie Co., Diana, Eve) whose product is in the catalog with some stock
    left: the quantity sold is the smaller of the requested quantity and the
    stock, an entry whose product is missing or for which that quantity is
    not positive is skipped, the ids continue the sale counter and the stock
    of each product goes down by the units sold. [main_menu] runs it before
    the first menu is shown: on the seeded catalog the five sales get the
    ids 1 to 5 with the requested quantities, so that the log is not empty
    and the stocks 25, 40, 10, 6, 60 have become 22, 35, 9, 4, 40. *)
Theorem preload_demo_sales_at_startup (clock : Z -> Z) :
  (forall st, exists new,
     (preload_demo_sales clock st).2 = Preloaded /\
     sales (preload_demo_sales clock st).1 = sales st ++ new /\
     (length new <= 5)%nat /\
     sale_record <$> new = omap (demo_record (inventory st)) demo /\
     (forall i s, new !! i = Some s ->
        sale_id s = next_sale_id st + Z.of_nat i /\ date s = clock (sale_id s)) /\
     (forall k, inventory (preload_demo_sales clock st).1 !! k
                = (fun p => set_stock (stock p - units_sold k new) p) <$> inventory st !! k)) /\
  (forall inv d q,
     demo_units inv d = Some q <->
     exists p, inv !! demo_product_id d = Some p /\
               q = Z.min (demo_quantity d) (stock p) /\ 0 < q) /\
  main_menu clock [] = startup clock /\
  (fun s => (sale_id s, client s, product_id s, quantity s)) <$> sales (startup clock)
  = [ (1, "Alice", 1, 3); (2, "Bob", 2, 5); (3, "Charlie Co.", 5, 20);
      (4, "Diana", 3, 1); (5, "Eve", 4, 2) ] /\
  (fun k => stock <$> seed_inventory !! k) <$> [1; 2; 3; 4; 5]
  = [Some 25; Some 40; Some 10; Some 6; Some 60] /\
  (fun k => stock <$> inventory (startup clock) !! k) <$> [1; 2; 3; 4; 5]
  = [Some 22; Some 35; Some 9; Some 4; Some 40] /\
  sales (startup clock) <> [].
Proof.
  split; [|split; [|split; [|split; [|split; [|split]]]]].
  - intros st. unfold preload_demo_sales.
    destruct (preload_loop_runs clock demo st demo_small)
      as (new & Hout & Hnew & _ & Hlen & _).
    destruct (preload_loop_records clock demo st demo_distinct demo_small)
      as (new' & Hnew' & Hrec & Hids & Hstock).
    assert (new' = new) as -> by (eapply app_inv_head; now rewrite <- Hnew, <- Hnew').
    exists new. rewrite Hout.
    split; [reflexivity|]. split; [exact Hnew|]. split; [exact Hlen|].
    split; [exact Hrec|]. split; [exact Hids | exact Hstock].
  - apply demo_units_clamped.
  - reflexivity.
  - vm_compute. reflexivity.
  - vm_compute. reflexivity.
  - vm_compute. reflexivity.
  - vm_compute. discriminate.
Qed.

Lemma preload_demo_sales_at_startup_witness :
  let st := run_all initial_ledger
              [ UpdateProduct [Some 5] "" "" "" Blank (Value 7) Blank;
                DeleteProduct [Some 3] "y";
                UpdateProduct [Some 4] "" "" "" Blank (Value 0) Blank ] in
  sale_record <$> sales (preload_demo_sales (fun _ => 0) st).1
  = [ ("Alice", "vip", 1, 3); ("Bob", "regular", 2, 5); ("Charlie Co.", "wholesale", 5, 7) ].
Proof.
  intros st.
  destruct (preload_demo_sales_at_startup (fun _ => 0)) as [Hany _].
  destruct (Hany st) as (new & _ & Hlog & _ & Hrec & _).
  rewrite Hlog. change (sales st) with (@nil sale). simpl.
  rewrite Hrec. vm_compute. reflexivity.
Defined.

(** ** A session *)

(** A product of price 10.00 with 5 units is registered (it gets the id 6);
    3 units are sold to a vip client: gross 30.00, discount 10%, net 27.00,
    2 units left; a sale of 5 units is then refused and 2 units are left. *)
Example session_scenario :
  let st1 := (register_product initial_ledger "Mug" "Clay" ""
                [Some (PyFloat.decimal 1000 2)] [Some 5] [Some 0]).1 in
  let sold := register_sale st1 "Ana" "VIP" [Some 6] [Some 3] 0 in
  let refused := register_sale sold.1 "Ana" "VIP" [Some 6] [Some 5] 1 in
  (exists s,
     sold.2 = SaleRecorded s /\
     gross s = PyFloat.decimal 3000 2 /\
     discount_pct s = PyFloat.decimal 10 0 /\
     net s = PyFloat.decimal 2700 2) /\
  stock <$> inventory sold.1 !! 6 = Some 2 /\
  refused = (sold.1, InsufficientStock 2).
Proof.
  split; [|split].
  - eexists. split; [reflexivity|]. repeat split; vm_compute; reflexivity.
  - vm_compute. reflexivity.
  - vm_compute. reflexivity.
Qed.

(** * Further properties *)

(** ** Prompts *)

(** X1. When [safe_int] returns, the value is the first typed line that is
    an integer within the bounds: every line before it was blank, malformed
    or out of bounds, the lines after it are left for the next prompt, and
    the value respects the minimum and the maximum that were given. *)
Theorem safe_int_first_accepted
    (min_val max_val : option Z) (lines rest : list (option Z)) (n : Z) :
  safe_int min_val max_val lines = Some (n, rest) ->
  (exists skipped,
     lines = skipped ++ Some n :: rest /\
     Forall (fun l => int_rejected min_val max_val l = true) skipped) /\
  (forall m, min_val = Some m -> m <= n) /\
  (forall m, max_val = Some m -> n <= m).
Proof.
  revert rest n. induction lines as [|[k|] lines IH]; simpl; intros rest n; try discriminate.
  - destruct (int_below k min_val) eqn:Hlo; [|destruct (int_above k max_val) eqn:Hhi].
    + intros H. destruct (IH _ _ H) as ((skipped & -> & Hsk) & Hmin & Hmax).
      split; [|auto]. exists (Some k :: skipped). split; [reflexivity|].
      constructor; [simpl; now rewrite Hlo | exact Hsk].
    + intros H. destruct (IH _ _ H) as ((skipped & -> & Hsk) & Hmin & Hmax).
      split; [|auto]. exists (Some k :: skipped). split; [reflexivity|].
      constructor; [simpl; rewrite Hhi; apply orb_true_r | exact Hsk].
    + intros [= <- <-]. split; [exists []; split; [reflexivity | constructor]|].
      split; intros m ->; simpl in *; lia.
  - intros H. destruct (IH _ _ H) as ((skipped & -> & Hsk) & Hmin & Hmax).
    split; [|auto]. exists (None :: skipped). split; [reflexivity|].
    constructor; [reflexivity | exact Hsk].
Qed.

Lemma safe_int_first_accepted_witness :
  safe_int (Some 1) (Some 9) [None; Some 0; Some 12; Some 4; Some 5] = Some (4, [Some 5]) /\
  1 <= 4 /\ 4 <= 9.
Proof.
  split; [reflexivity|].
  destruct (safe_int_first_accepted (Some 1) (Some 9)
              [None; Some 0; Some 12; Some 4; Some 5] [Some 5] 4 eq_refl)
    as (_ & Hmin & Hmax).
  split; [now apply Hmin | now apply Hmax].
Defined.

(** X2. [safe_int] gives no value exactly when no typed line is acceptable:
    it never gives up on its own and never returns a rejected line. *)
Theorem safe_int_keeps_asking (min_val max_val : option Z) (lines : list (option Z)) :
  safe_int min_val max_val lines = None <->
  Forall (fun l => int_rejected min_val max_val l = true) lines.
Proof.
  induction lines as [|[k|] lines IH]; simpl.
  - split; [constructor | reflexivity].
  - destruct (int_below k min_val) eqn:Hlo; [|destruct (int_above k max_val) eqn:Hhi].
    + rewrite IH. split; [intros H; constructor; [simpl; now rewrite Hlo | exact H]|].
      now intros [_ H]%Forall_cons.
    + rewrite IH. split;
        [intros H; constructor; [simpl; rewrite Hhi; apply orb_true_r | exact H]|].
      now intros [_ H]%Forall_cons.
    + split; [discriminate|].
      intros [H _]%Forall_cons. simpl in H. rewrite Hlo, Hhi in H. discriminate.
  - rewrite IH. split; [intros H; constructor; [reflexivity | exact H]|].
    now intros [_ H]%Forall_cons.
Qed.

(** X3. When [safe_float] returns, the value is the first typed line that
    is a float not below the minimum and not above the maximum, in the sense
    of the comparisons [<] and [>] of the source. Both comparisons are false
    for a NaN, so a NaN typed at the prompt is returned whatever the bounds
    are. *)
Theorem safe_float_first_accepted
    (min_val max_val : option float) (lines rest : list (option float)) (f : float) :
  (safe_float min_val max_val lines = Some (f, rest) ->
   (exists skipped,
      lines = skipped ++ Some f :: rest /\
      Forall (fun l => float_rejected min_val max_val l = true) skipped) /\
   below f min_val = false /\ above f max_val = false) /\
  safe_float min_val max_val (Some S754_nan :: rest) = Some (S754_nan, rest).
Proof.
  split.
  - revert rest f. induction lines as [|[k|] lines IH]; simpl; intros rest f; try discriminate.
    + destruct (below k min_val) eqn:Hlo; [|destruct (above k max_val) eqn:Hhi].
      * intros H. destruct (IH _ _ H) as ((skipped & -> & Hsk) & Hb).
        split; [|exact Hb]. exists (Some k :: skipped). split; [reflexivity|].
        constructor; [simpl; now rewrite Hlo | exact Hsk].
      * intros H. destruct (IH _ _ H) as ((skipped & -> & Hsk) & Hb).
        split; [|exact Hb]. exists (Some k :: skipped). split; [reflexivity|].
        constructor; [simpl; rewrite Hhi; apply orb_true_r | exact Hsk].
      * intros [= <- <-]. split; [exists []; split; [reflexivity | constructor]|].
        split; assumption.
    + intros H. destruct (IH _ _ H) as ((skipped & -> & Hsk) & Hb).
      split; [|exact Hb]. exists (None :: skipped). split; [reflexivity|].
      constructor; [reflexivity | exact Hsk].
  - simpl. destruct min_val as [[]|], max_val as [[]|]; reflexivity.
Qed.

Lemma safe_float_first_accepted_witness :
  let zero := PyFloat.decimal 0 0 in
  let lines := [None; Some (PyFloat.decimal (-5) 1); Some (PyFloat.decimal 1999 2)] in
  safe_float (Some zero) None lines = Some (PyFloat.decimal 1999 2, []) /\
  below (PyFloat.decimal 1999 2) (Some zero) = false.
Proof.
  intros zero lines. split; [reflexivity|].
  destruct (safe_float_first_accepted (Some zero) None lines [] (PyFloat.decimal 1999 2))
    as [Hfirst _].
  destruct (Hfirst eq_refl) as (_ & Hlo & _). exact Hlo.
Defined.

(** X4. When [choose_product_id] returns, the id is the first typed line
    that is an id of the catalog; every line before it was blank, malformed
    or an unknown id. *)
Theorem choose_product_id_first_known
    (inv : gmap Z product) (lines rest : list (option Z)) (pid : Z) :
  choose_product_id inv lines = Some (pid, rest) ->
  is_Some (inv !! pid) /\
  exists skipped,
    lines = skipped ++ Some pid :: rest /\
    Forall (fun l => id_rejected inv l = true) skipped.
Proof.
  revert rest pid. induction lines as [|[k|] lines IH]; simpl; intros rest pid; try discriminate.
  - case_bool_decide as Hk.
    + intros [= <- <-]. split; [exact Hk|]. exists []. split; [reflexivity | constructor].
    + intros H. destruct (IH _ _ H) as (Hin & skipped & -> & Hsk).
      split; [exact Hin|]. exists (Some k :: skipped). split; [reflexivity|].
      constructor; [simpl; now rewrite bool_decide_eq_false_2 | exact Hsk].
  - intros H. destruct (IH _ _ H) as (Hin & skipped & -> & Hsk).
    split; [exact Hin|]. exists (None :: skipped). split; [reflexivity|].
    constructor; [reflexivity | exact Hsk].
Qed.

Lemma choose_product_id_first_known_witness :
  choose_product_id seed_inventory [Some 0; None; Some 9; Some 4; Some 1] = Some (4, [Some 1]) /\
  is_Some (seed_inventory !! 4).
Proof.
  split; [reflexivity|].
  exact (proj1 (choose_product_id_first_known seed_inventory
                  [Some 0; None; Some 9; Some 4; Some 1] [Some 1] 4 eq_refl)).
Defined.

(** X5. On an empty catalog [choose_product_id] never returns, whatever is
    typed: updating, deleting and selling cannot get past the prompt, and
    the operations that use it leave the ledger as it is. *)
Theorem choose_product_id_empty_catalog (lines : list (option Z)) (st : ledger) :
  choose_product_id ∅ lines = None /\
  (inventory st = ∅ ->
   forall n b c pi si wi confirm client ct qty_lines now,
     update_product st lines n b c pi si wi = (st, Interrupted) /\
     delete_product st lines confirm = (st, Interrupted) /\
     (register_sale st client ct lines qty_lines now).1 = st).
Proof.
  assert (Hnone : choose_product_id ∅ lines = None).
  { induction lines as [|[k|] lines IH]; simpl; auto. }
  split; [exact Hnone|].
  intros Hinv n b c pi si wi confirm client ct qty_lines now.
  unfold update_product, delete_product, register_sale.
  rewrite Hinv, Hnone. repeat split.
  case_decide; reflexivity.
Qed.

Lemma choose_product_id_empty_catalog_witness :
  let st := Ledger ∅ [] 6 1 in
  delete_product st [Some 1; Some 2] "y" = (st, Interrupted).
Proof.
  intros st.
  destruct (choose_product_id_empty_catalog [Some 1; Some 2] st) as [_ H].
  destruct (H eq_refl "" "" "" Blank Blank Blank "y" "" "" [] 0) as (_ & Hdel & _).
  exact Hdel.
Defined.

(** ** Commands as changes of the ledger *)

Lemma round_aux_not_below_zero (mz ez : Z) (lz : location) :
  PyFloat.ltb (binary_round_aux PyFloat.prec PyFloat.emax false mz ez lz)
              (PyFloat.decimal 0 0) = false.
Proof.
  unfold binary_round_aux.
  destruct (shr_fexp _ _ mz ez lz) as [mrs e'].
  destruct (shr_fexp _ _ _ e' loc_Exact) as [mrs' e''].
  destruct (shr_m mrs') as [|m|m]; try reflexivity.
  destruct (e'' <=? PyFloat.emax - PyFloat.prec); reflexivity.
Qed.

Lemma round2_not_below_zero (v : float) :
  PyFloat.ltb v (PyFloat.decimal 0 0) = false ->
  PyFloat.ltb (PyFloat.round2 v) (PyFloat.decimal 0 0) = false.
Proof.
  destruct v as [s|s| |s m e]; simpl; auto.
  destruct s; [discriminate|]. intros _.
  destruct (PyFloat.round_half_even (Z.pos m * 100) e) as [|n|n]; try reflexivity.
  unfold PyFloat.div, SFdiv.
  destruct (SFdiv_core_binary _ _ (Z.pos n) 0 100 0) as [[mz ez] lz].
  apply round_aux_not_below_zero.
Qed.

Lemma safe_float_not_below (m : float) (max_val : option float)
    (lines rest : list (option float)) (f : float) :
  safe_float (Some m) max_val lines = Some (f, rest) -> PyFloat.ltb f m = false.
Proof.
  induction lines as [|[k|] lines IH]; simpl; try discriminate; auto.
  destruct (PyFloat.ltb k m) eqn:Hk; auto.
  destruct (above k max_val); auto.
  now intros [= <- _].
Qed.

Lemma register_product_change (st : ledger) (n b c : string)
    (price_lines : list (option float)) (stock_lines warranty_lines : list (option Z)) :
  (register_product st n b c price_lines stock_lines warranty_lines).1 = st \/
  (exists p,
     register_product st n b c price_lines stock_lines warranty_lines
     = (Ledger (<[next_product_id st := p]> (inventory st)) (sales st)
               (next_product_id st + 1) (next_sale_id st),
        ProductRegistered (next_product_id st)) /\
     product_ok p /\ stock p = initial_stock p /\
     name p = n /\ brand p = b /\ category p = (if decide (c = "") then "General" else c)).
Proof.
  unfold register_product.
  destruct (decide (n = "")); [left; reflexivity|].
  destruct (decide (b = "")); [left; reflexivity|].
  destruct (safe_float _ _ price_lines) as [[pr ?]|] eqn:Hpr; [|left; reflexivity].
  destruct (safe_int (Some 0) None stock_lines) as [[k ?]|] eqn:Hk; [|left; reflexivity].
  destruct (safe_int (Some 0) None warranty_lines) as [[w ?]|] eqn:Hw; [|left; reflexivity].
  right. eexists. split; [reflexivity|]. simpl.
  apply safe_float_not_below in Hpr. apply safe_int_min in Hk. apply safe_int_min in Hw.
  repeat split; auto.
  - case_decide; [discriminate | assumption].
  - now apply round2_not_below_zero.
Qed.

Lemma register_sale_change (st : ledger) (client raw_client_type : string)
    (pid_lines qty_lines : list (option Z)) (now : Z) :
  (register_sale st client raw_client_type pid_lines qty_lines now).1 = st \/
  change st (register_sale st client raw_client_type pid_lines qty_lines now).1.
Proof.
  unfold register_sale.
  destruct (decide (client = "")); [left; reflexivity|].
  destruct (choose_product_id (inventory st) pid_lines) as [[pid rest]|]; [|left; reflexivity].
  destruct (inventory st !! pid) as [p|] eqn:Hp; [|left; reflexivity].
  destruct (safe_int (Some 1) None qty_lines) as [[qty rest']|] eqn:Hqty; [|left; reflexivity].
  destruct (qty >? stock p) eqn:Hle; [left; reflexivity|].
  destruct (revenue_calc (price p) qty) as [g|]; [|left; reflexivity].
  right. simpl.
  match goal with |- change _ (Ledger _ (_ ++ [?s]) _ _) =>
    apply (change_sold st pid p s) end; simpl; auto.
  apply safe_int_min in Hqty. lia.
Qed.

Lemma preload_loop_change (clock : Z -> Z) (entries : list demo_sale) (st : ledger) :
  Forall (fun d => demo_client d <> "") entries ->
  rtc change st (preload_loop clock entries st).1.
Proof.
  intros Hnames. revert st.
  induction Hnames as [|d rest Hd Hrest IH]; intros st; simpl; [apply rtc_refl|].
  destruct (inventory st !! demo_product_id d) as [p|] eqn:Hp; [|apply IH].
  destruct (Z.min (demo_quantity d) (stock p) <=? 0) eqn:Hq; [apply IH|].
  destruct (revenue_calc (price p) _) as [g|]; [|apply rtc_refl].
  eapply rtc_l; [|apply IH].
  match goal with |- change _ (Ledger _ (_ ++ [?s]) _ _) =>
    apply (change_sold st (demo_product_id d) p s) end; simpl; auto.
  lia.
Qed.

Lemma demo_clients_named : Forall (fun d => demo_client d <> "") demo.
Proof. unfold demo. repeat constructor; discriminate. Qed.

Lemma run_change (st : ledger) (c : command) : rtc change st (run st c).1.
Proof.
  destruct c; simpl.
  - destruct (register_product_change st name0 brand0 category0 price_lines
                stock_lines warranty_lines) as [-> | (p & -> & Hok & Hst & _)].
    + apply rtc_refl.
    + apply rtc_once. now constructor.
  - unfold update_product.
    destruct (choose_product_id _ pid_lines) as [[pid ?]|]; [|apply rtc_refl].
    destruct (inventory st !! pid) as [p|] eqn:Hp; [|apply rtc_refl].
    apply rtc_once. now constructor.
  - unfold delete_product.
    destruct (choose_product_id _ pid_lines) as [[pid ?]|] eqn:Hpid; [|apply rtc_refl].
    case_decide; [|apply rtc_refl].
    destruct (referenced pid (sales st)) eqn:Href; [apply rtc_refl|].
    apply rtc_once. constructor; [|exact Href].
    eapply choose_product_id_found, Hpid.
  - destruct (register_sale_change st client0 raw_client_type pid_lines qty_lines now)
      as [-> | H]; [apply rtc_refl | now apply rtc_once].
  - apply preload_loop_change, demo_clients_named.
Qed.

Lemma run_all_change (cmds : list command) (st : ledger) : rtc change st (run_all st cmds).
Proof.
  revert st. induction cmds as [|c cmds IH]; intros st; simpl; [apply rtc_refl|].
  eapply rtc_trans; [apply run_change | apply IH].
Qed.

(** A property of the initial ledger that every change keeps holds after
    every sequence of commands. *)
Lemma reachable_ind (P : ledger -> Prop) :
  P initial_ledger ->
  (forall st st', P st -> change st st' -> P st') ->
  forall cmds, P (run_all initial_ledger cmds).
Proof.
  intros Hinit Hstep cmds.
  apply (rtc_ind_r (R := change) P initial_ledger); [exact Hinit | | apply run_all_change].
  intros st st' _ Hc HP. eapply Hstep; eauto.
Qed.


(** ** Identifiers *)

Lemma change_keeps_product_ids (st st' : ledger) :
  (1 <= next_product_id st /\
   forall pid, is_Some (inventory st !! pid) -> 1 <= pid < next_product_id st) ->
  change st st' ->
  1 <= next_product_id st' /\
  forall pid, is_Some (inventory st' !! pid) -> 1 <= pid < next_product_id st'.
Proof.
  intros [Hn Hst] Hc.
  destruct Hc as [p Hok Hp | k p n b c pi si wi Hk | k Hk Href | k p s Hk _ _ _ _ _ _ _ _];
    simpl; (split; [lia|]); intros pid.
  - rewrite lookup_insert. case_decide as Hpid.
    + intros _. subst pid. lia.
    + intros H. specialize (Hst _ H). lia.
  - rewrite lookup_insert. case_decide as Hpid; [subst; intros _; apply Hst; eauto | apply Hst].
  - rewrite lookup_delete. case_decide; [intros [? ?]; discriminate | apply Hst].
  - rewrite lookup_insert. case_decide as Hpid; [subst; intros _; apply Hst; eauto | apply Hst].
Qed.

Lemma product_ids_initial :
  1 <= next_product_id initial_ledger /\
  forall pid, is_Some (inventory initial_ledger !! pid) ->
              1 <= pid < next_product_id initial_ledger.
Proof.
  split; [simpl; lia|]. intros pid [p Hp]. simpl in *. unfold seed_inventory in Hp.
  apply elem_of_list_to_map_2 in Hp.
  repeat (apply elem_of_cons in Hp as [[= -> ->] | Hp]; [lia|]).
  inversion Hp.
Qed.

Lemma reachable_product_ids (cmds : list command) :
  1 <= next_product_id (run_all initial_ledger cmds) /\
  forall pid, is_Some (inventory (run_all initial_ledger cmds) !! pid) ->
              1 <= pid < next_product_id (run_all initial_ledger cmds).
Proof.
  apply (reachable_ind (fun st =>
    1 <= next_product_id st /\
    forall pid, is_Some (inventory st !! pid) -> 1 <= pid < next_product_id st)).
  - exact product_ids_initial.
  - intros st st' H Hc. eapply change_keeps_product_ids; eauto.
Qed.

(** X6. After any sequence of commands every product id of the catalog is
    at least 1 and below the product counter, so the id the next
    registration hands out is not in use, not even by a product that was
    deleted before: a registration never overwrites a product. *)
Theorem product_ids_never_reused (cmds : list command) (pid : Z) (p : product) :
  inventory (run_all initial_ledger cmds) !! pid = Some p ->
  1 <= pid < next_product_id (run_all initial_ledger cmds) /\
  inventory (run_all initial_ledger cmds) !! next_product_id (run_all initial_ledger cmds) = None.
Proof.
  intros Hp. destruct (reachable_product_ids cmds) as [_ Hids].
  split; [apply Hids; eauto|].
  destruct (inventory _ !! next_product_id _) as [q|] eqn:Hq; [|reflexivity].
  specialize (Hids _ (mk_is_Some _ _ Hq)). lia.
Qed.

Lemma product_ids_never_reused_witness :
  let cmds := [ DeleteProduct [Some 5] "y";
                RegisterProduct "Lamp" "Lux" "" [Some (PyFloat.decimal 5 0)] [Some 8] [Some 0];
                DeleteProduct [Some 6] "y" ] in
  next_product_id (run_all initial_ledger cmds) = 7 /\
  inventory (run_all initial_ledger cmds) !! 7 = None /\
  inventory (run_all initial_ledger cmds) !! 6 = None.
Proof.
  intros cmds.
  set (p := Product "PixelCam 4K" "OptiSight" "Cameras" (PyFloat.decimal 49900 2) 6 24 6).
  assert (Hp : inventory (run_all initial_ledger cmds) !! 4 = Some p) by reflexivity.
  destruct (product_ids_never_reused cmds 4 p Hp) as [_ Hfresh].
  split; [reflexivity|]. split; [exact Hfresh | reflexivity].
Defined.

Lemma change_keeps_sale_ids (st st' : ledger) :
  (next_sale_id st = 1 + Z.of_nat (length (sales st)) /\
   forall i s, sales st !! i = Some s -> sale_id s = 1 + Z.of_nat i) ->
  change st st' ->
  next_sale_id st' = 1 + Z.of_nat (length (sales st')) /\
  forall i s, sales st' !! i = Some s -> sale_id s = 1 + Z.of_nat i.
Proof.
  intros [Hn Hst] Hc.
  destruct Hc as [p Hok Hp | k p n b c pi si wi Hk | k Hk Href | k p s Hk _ Hid _ _ _ _ _ _];
    simpl; auto.
  split; [rewrite length_app; simpl; lia|].
  intros i s' Hi. apply lookup_app_Some in Hi as [Hi | [Hlen Hi]]; [now apply Hst|].
  destruct (i - length (sales st))%nat as [|j] eqn:Hj; [|destruct j; discriminate].
  injection Hi as <-. rewrite Hid, Hn. lia.
Qed.

(** X7. After any sequence of commands the sales of the log are numbered
    1, 2, 3, ... in the order in which they were recorded, and the sale
    counter is the number of sales plus one: ids are unique and no id is
    skipped, whatever commands failed in between. *)
Theorem sale_ids_consecutive (cmds : list command) (i : nat) (s : sale) :
  sales (run_all initial_ledger cmds) !! i = Some s ->
  sale_id s = 1 + Z.of_nat i /\
  next_sale_id (run_all initial_ledger cmds)
  = 1 + Z.of_nat (length (sales (run_all initial_ledger cmds))).
Proof.
  intros Hi.
  assert (H : next_sale_id (run_all initial_ledger cmds)
              = 1 + Z.of_nat (length (sales (run_all initial_ledger cmds))) /\
              forall i s, sales (run_all initial_ledger cmds) !! i = Some s ->
                          sale_id s = 1 + Z.of_nat i).
  { apply (reachable_ind (fun st =>
      next_sale_id st = 1 + Z.of_nat (length (sales st)) /\
      forall i s, sales st !! i = Some s -> sale_id s = 1 + Z.of_nat i)).
    - split; [reflexivity|]. intros j s' Hj. destruct j; discriminate.
    - intros st st' Hst Hc. eapply change_keeps_sale_ids; eauto. }
  destruct H as [Hn Hids]. split; [now apply Hids | exact Hn].
Qed.

Lemma sale_ids_consecutive_witness :
  let cmds := [ PreloadDemoSales (fun _ => 0);
                RegisterSale "Zed" "" [Some 4] [Some 9] 0;
                RegisterSale "" "" [Some 4] [Some 1] 0;
                RegisterSale "Zed" "vip" [Some 4] [Some 1] 0 ] in
  exists s, sales (run_all initial_ledger cmds) !! 5%nat = Some s /\
            client s = "Zed" /\ sale_id s = 6 /\
            next_sale_id (run_all initial_ledger cmds) = 7.
Proof.
  intros cmds.
  destruct (sales (run_all initial_ledger cmds) !! 5%nat) as [s|] eqn:Hs;
    [|vm_compute in Hs; discriminate].
  exists s. destruct (sale_ids_consecutive cmds 5 s Hs) as [Hid Hn].
  split; [reflexivity|].
  split; [vm_compute in Hs; now injection Hs as <-|].
  split; [exact Hid|]. rewrite Hn. vm_compute. reflexivity.
Defined.

(** ** Referential integrity *)

Lemma referenced_false (pid : Z) (log : list sale) (s : sale) :
  referenced pid log = false -> s ∈ log -> product_id s <> pid.
Proof.
  intros Href Hs Heq.
  assert (referenced pid log = true) as H by (apply referenced_spec; eauto).
  congruence.
Qed.

Lemma change_keeps_references (st st' : ledger) :
  (forall s, s ∈ sales st -> is_Some (inventory st !! product_id s)) ->
  change st st' ->
  forall s, s ∈ sales st' -> is_Some (inventory st' !! product_id s).
Proof.
  intros Hst Hc.
  destruct Hc as [p Hok Hp | k p n b c pi si wi Hk | k Hk Href | k p s0 Hk Hpid _ _ _ _ _ _ _];
    simpl; intros s Hs.
  - rewrite lookup_insert. case_decide; [eauto | now apply Hst].
  - rewrite lookup_insert. case_decide; [eauto | now apply Hst].
  - rewrite lookup_delete_ne; [now apply Hst|].
    intros Heq. now apply (referenced_false k (sales st) s Href Hs).
  - rewrite lookup_insert. case_decide as Hne; [eauto|].
    apply elem_of_app in Hs as [Hs | Hs%list_elem_of_singleton]; [now apply Hst|].
    subst s. congruence.
Qed.

Lemma reachable_references (cmds : list command) (s : sale) :
  s ∈ sales (run_all initial_ledger cmds) ->
  is_Some (inventory (run_all initial_ledger cmds) !! product_id s).
Proof.
  revert s.
  apply (reachable_ind (fun st =>
    forall s, s ∈ sales st -> is_Some (inventory st !! product_id s))).
  - intros s Hs. inversion Hs.
  - intros st st' Hst Hc. eapply change_keeps_references; eauto.
Qed.

(** X8. After any sequence of commands every sale of the log refers to a
    product that is still in the catalog: the check of [delete_product] is
    enough to keep the history consistent, since nothing else removes a
    product. *)
Theorem sales_reference_catalog (cmds : list command) (s : sale) :
  s ∈ sales (run_all initial_ledger cmds) ->
  exists p, inventory (run_all initial_ledger cmds) !! product_id s = Some p.
Proof. intros Hs. exact (reachable_references cmds s Hs). Qed.

Lemma sales_reference_catalog_witness :
  let cmds := [ PreloadDemoSales (fun _ => 0);
                DeleteProduct [Some 1] "y";
                UpdateProduct [Some 1] "Aurora II" "" "" Blank Blank Blank ] in
  exists s p, sales (run_all initial_ledger cmds) !! 0%nat = Some s /\
              product_id s = 1 /\
              inventory (run_all initial_ledger cmds) !! product_id s = Some p.
Proof.
  intros cmds.
  destruct (sales (run_all initial_ledger cmds) !! 0%nat) as [s|] eqn:Hs;
    [|vm_compute in Hs; discriminate].
  destruct (sales_reference_catalog cmds s) as [p Hp].
  { eapply list_elem_of_lookup_2, Hs. }
  exists s, p. split; [reflexivity|].
  split; [vm_compute in Hs; now injection Hs as <- | exact Hp].
Defined.

Lemma enumerate_top_elem_of (inv : gmap Z product) (l : list (Z * Z)) (rank : Z)
    (line : top_line) :
  line ∈ enumerate_top inv rank l ->
  (top_pid line, top_qty line) ∈ l /\ top_name line = label_of inv (top_pid line).
Proof.
  revert rank. induction l as [|[k v] l IH]; intros rank; simpl; intros Hin.
  - inversion Hin.
  - apply elem_of_cons in Hin as [-> | Hin]; simpl.
    + split; [apply list_elem_of_here | reflexivity].
    + destruct (IH _ Hin) as [H1 H2]. split; [now apply list_elem_of_further | exact H2].
Qed.

Lemma count_sold_key_sold (log : list sale) (pid : Z) :
  pid ∈ (count_sold log).*1 -> exists s, s ∈ log /\ product_id s = pid.
Proof.
  unfold count_sold.
  assert (H : forall d, pid ∈ (fold_left (fun d s => dict_add (product_id s) (quantity s) d)
                                         log d).*1 ->
                        pid ∈ d.*1 \/ exists s, s ∈ log /\ product_id s = pid).
  { induction log as [|s log IH]; intros d; simpl; [auto|].
    intros Hin. apply IH in Hin as [Hin | (s' & Hs' & Heq)].
    - rewrite dict_add_keys in Hin. case_decide; [auto|].
      apply elem_of_app in Hin as [Hin | Hin%list_elem_of_singleton]; [auto|].
      right. exists s. split; [apply list_elem_of_here | congruence].
    - right. exists s'. split; [now apply list_elem_of_further | exact Heq]. }
  intros Hin. apply H in Hin as [Hin | Hin]; [inversion Hin | exact Hin].
Qed.

(** X9. In the Top-N report of a ledger reached by any sequence of commands
    every line carries the name its product has in the catalog at that
    moment: the placeholder for a deleted product is never printed. *)
Theorem top_n_products_names_live (cmds : list command) (n : nat)
    (lines : list top_line) (line : top_line) :
  top_n_products n (run_all initial_ledger cmds) = Some lines ->
  line ∈ lines ->
  exists p, inventory (run_all initial_ledger cmds) !! top_pid line = Some p /\
            top_name line = name p.
Proof.
  set (st := run_all initial_ledger cmds).
  unfold top_n_products. intros Hrun Hline.
  destruct (count_sold (sales st)) as [|kv d] eqn:Hsold; [discriminate|].
  injection Hrun as <-.
  apply enumerate_top_elem_of in Hline as [Hin Hname].
  apply (subseteq_take n) in Hin.
  apply (proj1 (elem_of_Permutation_proper _ _ _ (sorted_desc_perm (kv :: d)))) in Hin.
  assert (Hkey : top_pid line ∈ (count_sold (sales st)).*1).
  { rewrite Hsold. apply list_elem_of_fmap. now exists (top_pid line, top_qty line). }
  apply count_sold_key_sold in Hkey as (s & Hs & Heq).
  destruct (reachable_references cmds s Hs) as [p Hp].
  exists p. fold st in Hp. rewrite Heq in Hp. split; [exact Hp|].
  rewrite Hname. unfold label_of. now rewrite Hp.
Qed.

Lemma top_n_products_names_live_witness :
  let cmds := [ PreloadDemoSales (fun _ => 0);
                UpdateProduct [Some 5] "SmartPlug Mini" "" "" Blank Blank Blank;
                DeleteProduct [Some 5] "y" ] in
  exists p, inventory (run_all initial_ledger cmds) !! 5 = Some p /\
            "SmartPlug Mini" = name p.
Proof.
  intros cmds.
  exact (top_n_products_names_live cmds 3
           [ TopLine 1 "SmartPlug Mini" 5 20; TopLine 2 "Volt Charger 65W" 2 5;
             TopLine 3 "Aurora Headphones" 1 3 ]
           (TopLine 1 "SmartPlug Mini" 5 20) eq_refl (list_elem_of_here _ _)).
Defined.

(** ** The sales log only grows *)

Lemma change_appends (st st' : ledger) :
  rtc change st st' -> exists new, sales st' = sales st ++ new.
Proof.
  induction 1 as [st | st st1 st2 Hc _ [new Hnew]].
  - exists []. now rewrite app_nil_r.
  - destruct Hc; simpl in Hnew; eauto.
    eexists. rewrite Hnew, <- app_assoc. reflexivity.
Qed.

(** X10. A recorded sale is never modified, moved or removed: whatever
    commands follow, from any ledger, the sale at a given position of the
    log is still there, unchanged. *)
Theorem sales_log_append_only (st : ledger) (cmds : list command) (i : nat) (s : sale) :
  sales st !! i = Some s -> sales (run_all st cmds) !! i = Some s.
Proof.
  intros Hi. destruct (change_appends st _ (run_all_change cmds st)) as [new ->].
  now apply lookup_app_l_Some.
Qed.

Lemma sales_log_append_only_witness :
  let st := startup (fun _ => 0) in
  let cmds := [ RegisterSale "Zed" "vip" [Some 1] [Some 2] 9;
                UpdateProduct [Some 1] "Aurora II" "Sound" "" (Value (PyFloat.decimal 1 0))
                              (Value 0) Blank;
                DeleteProduct [Some 1] "y" ] in
  exists s, sales (run_all st cmds) !! 0%nat = Some s /\
            product_name s = "Aurora Headphones" /\ quantity s = 3.
Proof.
  intros st cmds.
  destruct (sales st !! 0%nat) as [s|] eqn:Hs; [|vm_compute in Hs; discriminate].
  exists s. split; [exact (sales_log_append_only st cmds 0 s Hs)|].
  vm_compute in Hs. injection Hs as <-. split; reflexivity.
Defined.

Lemma revenue_by_brand_nonempty (log : list sale) : log <> [] -> revenue_by_brand log <> [].
Proof.
  destruct log as [|s log _] using rev_ind; [congruence|].
  intros _. unfold revenue_by_brand. rewrite fold_left_app. simpl.
  destruct (fold_left _ log []) as [|[k v] d]; simpl; [discriminate|].
  case_decide; discriminate.
Qed.

(** X11. Every session of the program has sales to report: the demo sales
    are in the log when the first menu is shown and nothing removes them, so
    after any commands the log is not empty and neither the Top-N report,
    nor the income report, nor the report by brand answers that there are no
    sales. *)
Theorem session_reports_have_data (clock : Z -> Z) (cmds : list command) (n : nat) :
  sales (main_menu clock cmds) <> [] /\
  top_n_products n (main_menu clock cmds) <> None /\
  (forall v, income_report v (main_menu clock cmds) <> None) /\
  sales_by_brand (main_menu clock cmds) <> NoSales.
Proof.
  assert (Hlog : sales (main_menu clock cmds) <> []).
  { unfold main_menu.
    destruct (change_appends _ _ (run_all_change cmds (startup clock))) as [new ->].
    destruct (sales (startup clock)) as [|s log] eqn:Hs; [vm_compute in Hs|]; discriminate. }
  split; [exact Hlog|]. split; [|split].
  - unfold top_n_products.
    pose proof (count_sold_nonempty _ Hlog).
    destruct (count_sold _); [congruence | discriminate].
  - unfold income_report. destruct (sales _); [congruence | discriminate].
  - unfold sales_by_brand.
    pose proof (revenue_by_brand_nonempty _ Hlog).
    destruct (revenue_by_brand _); [congruence|].
    destruct (existsb _ _); discriminate.
Qed.

(** ** Well-formed records *)

Lemma calculate_discount_pct_values (client_type : string) :
  calculate_discount_pct client_type = PyFloat.decimal 0 0 \/
  calculate_discount_pct client_type = PyFloat.decimal 10 0 \/
  calculate_discount_pct client_type = PyFloat.decimal 15 0 \/
  calculate_discount_pct client_type = PyFloat.decimal 30 0.
Proof. unfold calculate_discount_pct. repeat case_decide; auto. Qed.

Lemma change_keeps_sale_fields (st st' : ledger) :
  (forall s, s ∈ sales st ->
     1 <= quantity s /\ client s <> "" /\
     discount_pct s = calculate_discount_pct (client_type s)) ->
  change st st' ->
  forall s, s ∈ sales st' ->
    1 <= quantity s /\ client s <> "" /\
    discount_pct s = calculate_discount_pct (client_type s).
Proof.
  intros Hst Hc.
  destruct Hc as [p Hok Hp | k p n b c pi si wi Hk | k Hk Href
                 | k p s0 Hk _ _ Hq Hcl Hd _ _ _]; simpl; auto.
  intros s [Hs | Hs%list_elem_of_singleton]%elem_of_app; [now apply Hst|].
  subst s. repeat split; auto. lia.
Qed.

(** X12. After any sequence of commands every sale of the log has a
    quantity of at least 1, a client name that is not empty and a discount
    percentage that is the one of its client type, hence one of 0, 10, 15
    and 30. *)
Theorem recorded_sales_well_formed (cmds : list command) (s : sale) :
  s ∈ sales (run_all initial_ledger cmds) ->
  1 <= quantity s /\ client s <> "" /\
  discount_pct s = calculate_discount_pct (client_type s) /\
  (discount_pct s = PyFloat.decimal 0 0 \/ discount_pct s = PyFloat.decimal 10 0 \/
   discount_pct s = PyFloat.decimal 15 0 \/ discount_pct s = PyFloat.decimal 30 0).
Proof.
  intros Hs.
  assert (H : 1 <= quantity s /\ client s <> "" /\
              discount_pct s = calculate_discount_pct (client_type s)).
  { revert s Hs.
    apply (reachable_ind (fun st => forall s, s ∈ sales st ->
             1 <= quantity s /\ client s <> "" /\
             discount_pct s = calculate_discount_pct (client_type s))).
    - intros s Hs. inversion Hs.
    - intros st st' Hst Hc. eapply change_keeps_sale_fields; eauto. }
  destruct H as (Hq & Hc & Hd). repeat split; auto.
  rewrite Hd. apply calculate_discount_pct_values.
Qed.

Lemma recorded_sales_well_formed_witness :
  let cmds := [ PreloadDemoSales (fun _ => 0);
                RegisterSale "Zed" "GOLD" [Some 4] [Some (-2); Some 0; Some 1] 0 ] in
  exists s, sales (run_all initial_ledger cmds) !! 5%nat = Some s /\
            client_type s = "gold" /\ 1 <= quantity s /\
            discount_pct s = calculate_discount_pct "gold".
Proof.
  intros cmds.
  destruct (sales (run_all initial_ledger cmds) !! 5%nat) as [s|] eqn:Hs;
    [|vm_compute in Hs; discriminate].
  destruct (recorded_sales_well_formed cmds s) as (Hq & _ & Hd & _).
  { eapply list_elem_of_lookup_2, Hs. }
  assert (Hct : client_type s = "gold") by (vm_compute in Hs; now injection Hs as <-).
  exists s. rewrite <- Hct. auto.
Defined.

Lemma apply_update_ok (n b c : string) (price_input : field_input float)
    (stock_input warranty_input : field_input Z) (p : product) :
  product_ok p -> product_ok (apply_update n b c price_input stock_input warranty_input p).
Proof.
  intros (Hn & Hb & Hc & Hp & Hw & Hi).
  unfold apply_update, update_text, update_price, update_stock, update_warranty.
  destruct warranty_input as [| |w]; [| |destruct (w <? 0) eqn:Hw'];
    (destruct stock_input as [| |k]; [| |destruct (k <? 0)]);
    (destruct price_input as [| |v]; [| |destruct (PyFloat.ltb v _) eqn:Hv]);
    repeat case_decide; unfold product_ok; simpl;
    repeat split; auto; try lia; now apply round2_not_below_zero.
Qed.

Lemma change_keeps_product_fields (st st' : ledger) :
  (forall pid p, inventory st !! pid = Some p -> product_ok p) ->
  change st st' ->
  forall pid p, inventory st' !! pid = Some p -> product_ok p.
Proof.
  intros Hst Hc.
  destruct Hc as [p0 Hok Hp | k p0 n b c pi si wi Hk | k Hk Href
                 | k p0 s0 Hk _ _ _ _ _ _ _ _]; simpl; intros pid p.
  - rewrite lookup_insert. case_decide; [now intros [= <-] | apply Hst].
  - rewrite lookup_insert. case_decide; [|apply Hst].
    intros [= <-]. apply apply_update_ok. eapply Hst, Hk.
  - rewrite lookup_delete. case_decide; [discriminate | apply Hst].
  - rewrite lookup_insert. case_decide; [|apply Hst].
    intros [= <-]. exact (Hst _ _ Hk).
Qed.

Lemma product_fields_initial (pid : Z) (p : product) :
  inventory initial_ledger !! pid = Some p -> product_ok p.
Proof.
  intros Hp. simpl in Hp. unfold seed_inventory in Hp.
  apply elem_of_list_to_map_2 in Hp.
  repeat (apply elem_of_cons in Hp as [[= -> ->] | Hp];
          [unfold product_ok; simpl; repeat split; try discriminate; try lia; reflexivity|]).
  inversion Hp.
Qed.

(** X13. After any sequence of commands every product of the catalog has a
    name, a brand and a category that are not empty, a price that is not
    below zero, and a warranty and an initial stock of at least zero:
    neither a registration nor an update can store a value that the prompts
    refuse. *)
Theorem catalog_products_well_formed (cmds : list command) (pid : Z) (p : product) :
  inventory (run_all initial_ledger cmds) !! pid = Some p ->
  name p <> "" /\ brand p <> "" /\ category p <> "" /\
  PyFloat.ltb (price p) (PyFloat.decimal 0 0) = false /\
  0 <= warranty_months p /\ 0 <= initial_stock p.
Proof.
  revert pid p.
  apply (reachable_ind (fun st => forall pid p, inventory st !! pid = Some p -> product_ok p)).
  - exact product_fields_initial.
  - intros st st' Hst Hc. eapply change_keeps_product_fields; eauto.
Qed.

Lemma catalog_products_well_formed_witness :
  let cmds := [ RegisterProduct "Lamp" "Lux" "" [Some (PyFloat.decimal (-1) 0);
                                                   Some (PyFloat.decimal 5125 3)]
                                [Some 8] [Some (-1); Some 0];
                UpdateProduct [Some 6] "" "Lumen" "" (Value (PyFloat.decimal (-3) 0))
                              Blank (Value (-12)) ] in
  exists p, inventory (run_all initial_ledger cmds) !! 6 = Some p /\
            brand p = "Lumen" /\ category p = "General" /\
            price p = PyFloat.decimal 512 2 /\ warranty_months p = 0 /\
            PyFloat.ltb (price p) (PyFloat.decimal 0 0) = false.
Proof.
  intros cmds.
  assert (Hp : inventory (run_all initial_ledger cmds) !! 6
               = Some (Product "Lamp" "Lumen" "General" (PyFloat.decimal 512 2) 8 0 8))
    by (vm_compute; reflexivity).
  destruct (catalog_products_well_formed cmds 6 _ Hp) as (_ & _ & _ & Hprice & _).
  eexists. split; [exact Hp|]. repeat split; auto.
Defined.

(** ** Stock, sales and initial stock *)

Lemma units_sold_app (pid : Z) (l1 l2 : list sale) :
  units_sold pid (l1 ++ l2) = units_sold pid l1 + units_sold pid l2.
Proof. induction l1 as [|s l1 IH]; simpl; [reflexivity | rewrite IH; lia]. Qed.

Lemma units_sold_unreferenced (pid : Z) (log : list sale) :
  (forall s, s ∈ log -> product_id s <> pid) -> units_sold pid log = 0.
Proof.
  induction log as [|s log IH]; simpl; intros Hlog; [reflexivity|].
  rewrite decide_False by (apply Hlog, list_elem_of_here).
  rewrite IH; [reflexivity|]. intros s' Hs'. now apply Hlog, list_elem_of_further.
Qed.

Lemma conserved_sale (st : ledger) (pid : Z) (p : product) (s : sale) (np ns : Z) :
  stock_conserved st -> inventory st !! pid = Some p -> product_id s = pid ->
  stock_conserved (Ledger (<[pid := set_stock (stock p - quantity s) p]> (inventory st))
                          (sales st ++ [s]) np ns).
Proof.
  intros Hst Hp Hs k pk. simpl. rewrite units_sold_app. simpl.
  rewrite lookup_insert. case_decide as Hk.
  - intros [= <-]. simpl. subst k. rewrite decide_True by exact Hs.
    specialize (Hst _ _ Hp). lia.
  - intros Hpk. rewrite decide_False by congruence. specialize (Hst _ _ Hpk). lia.
Qed.

Lemma preload_loop_conserved (clock : Z -> Z) (entries : list demo_sale) (st : ledger) :
  stock_conserved st -> stock_conserved (preload_loop clock entries st).1.
Proof.
  revert st. induction entries as [|d rest IH]; intros st Hst; [exact Hst|].
  destruct (preload_loop_cons clock d rest st)
    as [[_ ->] | (p & qty & Hp & _ & _ & _ &
                  [[_ ->] | (s & _ & _ & _ & _ & Hpid & Hq & _ & ->)])].
  - now apply IH.
  - exact Hst.
  - apply IH. rewrite <- Hq. now apply conserved_sale.
Qed.

Lemma apply_update_keeps_stock (n b c : string) (price_input : field_input float)
    (stock_input warranty_input : field_input Z) (p : product) :
  (forall v, stock_input <> Value v) ->
  stock (apply_update n b c price_input stock_input warranty_input p) = stock p /\
  initial_stock (apply_update n b c price_input stock_input warranty_input p)
  = initial_stock p.
Proof.
  intros Hsi.
  unfold apply_update, update_text, update_price, update_stock, update_warranty.
  destruct stock_input as [| |v]; [| |now destruct (Hsi v)];
    (destruct warranty_input as [| |w]; [| |destruct (w <? 0)]);
    (destruct price_input as [| |x]; [| |destruct (PyFloat.ltb x _)]);
    repeat case_decide; split; reflexivity.
Qed.

Lemma run_keeps_conserved (st : ledger) (c : command) :
  (forall pid, is_Some (inventory st !! pid) -> 1 <= pid < next_product_id st) ->
  (forall s, s ∈ sales st -> is_Some (inventory st !! product_id s)) ->
  stock_conserved st -> edits_stock c = false ->
  stock_conserved (run st c).1.
Proof.
  intros Hids Hrefs Hst Hquiet. destruct c; simpl.
  - destruct (register_product_change st name0 brand0 category0 price_lines
                stock_lines warranty_lines) as [-> | (p & -> & _ & Hp & _)];
      [exact Hst|].
    intros k pk. simpl. rewrite lookup_insert. case_decide as Hk; [|apply Hst].
    intros [= <-]. subst k. rewrite units_sold_unreferenced; [lia|].
    intros s Hs Heq. specialize (Hrefs s Hs). rewrite Heq in Hrefs.
    specialize (Hids _ Hrefs). lia.
  - unfold update_product.
    destruct (choose_product_id _ pid_lines) as [[pid ?]|]; [|exact Hst].
    destruct (inventory st !! pid) as [p|] eqn:Hp; [|exact Hst].
    intros k pk. simpl. rewrite lookup_insert. case_decide as Hk; [|apply Hst].
    intros [= <-]. subst k.
    destruct (apply_update_keeps_stock name0 brand0 category0 price_input stock_input
                warranty_input p) as [-> ->]; [|now apply Hst].
    intros v ->. discriminate.
  - unfold delete_product.
    destruct (choose_product_id _ pid_lines) as [[pid ?]|]; [|exact Hst].
    case_decide; [|exact Hst].
    destruct (referenced pid (sales st)); [exact Hst|].
    intros k pk. simpl. rewrite lookup_delete. case_decide; [discriminate | apply Hst].
  - destruct (register_sale_unchanged st client0 raw_client_type pid_lines qty_lines now)
      as [[s Hs] | ->]; [|exact Hst].
    destruct (register_sale st client0 raw_client_type pid_lines qty_lines now)
      as [st' out] eqn:Hrun.
    simpl in Hs. subst out.
    apply register_sale_inv in Hrun as (p & Hp & _ & _ & _ & ->).
    simpl. now apply conserved_sale.
  - now apply preload_loop_conserved.
Qed.

Lemma rtc_change_keeps (P : ledger -> Prop) (st st' : ledger) :
  (forall a b, P a -> change a b -> P b) -> P st -> rtc change st st' -> P st'.
Proof. intros Hstep HP Hrtc. induction Hrtc; eauto. Qed.

Lemma run_all_keeps_conserved (cmds : list command) (st : ledger) :
  Forall (fun c => edits_stock c = false) cmds ->
  (1 <= next_product_id st /\
   forall pid, is_Some (inventory st !! pid) -> 1 <= pid < next_product_id st) ->
  (forall s, s ∈ sales st -> is_Some (inventory st !! product_id s)) ->
  stock_conserved st ->
  stock_conserved (run_all st cmds).
Proof.
  intros Hquiet. revert st.
  induction Hquiet as [|c cmds Hc Hcmds IH]; intros st Hids Hrefs Hst; [exact Hst|].
  simpl. apply IH.
  - apply (rtc_change_keeps
             (fun a => 1 <= next_product_id a /\
                       forall pid, is_Some (inventory a !! pid) ->
                                   1 <= pid < next_product_id a) st);
      [| exact Hids | apply run_change].
    intros a b Ha Hab. eapply change_keeps_product_ids; eauto.
  - apply (rtc_change_keeps
             (fun a => forall s, s ∈ sales a -> is_Some (inventory a !! product_id s)) st);
      [| exact Hrefs | apply run_change].
    intros a b Ha Hab. eapply change_keeps_references; eauto.
  - apply run_keeps_conserved; auto. apply Hids.
Qed.

Lemma stock_conserved_initial : stock_conserved initial_ledger.
Proof.
  intros pid p Hp. simpl in *. unfold seed_inventory in Hp.
  apply elem_of_list_to_map_2 in Hp.
  repeat (apply elem_of_cons in Hp as [[= -> ->] | Hp]; [reflexivity|]).
  inversion Hp.
Qed.

(** X14. As long as no update sets the stock of a product directly, the
    stock of every product is its initial stock less the units of it in the
    sales log, and the units sold of a product never exceed its initial
    stock: sales, registrations, deletions, the demo preload and updates of
    the other fields keep the books balanced. *)
Theorem stock_balances_with_sales (cmds : list command) (pid : Z) (p : product) :
  Forall (fun c => edits_stock c = false) cmds ->
  inventory (run_all initial_ledger cmds) !! pid = Some p ->
  stock p + units_sold pid (sales (run_all initial_ledger cmds)) = initial_stock p /\
  units_sold pid (sales (run_all initial_ledger cmds)) <= initial_stock p.
Proof.
  intros Hquiet Hp.
  assert (Hbal : stock p + units_sold pid (sales (run_all initial_ledger cmds))
                 = initial_stock p).
  { apply (run_all_keeps_conserved cmds initial_ledger Hquiet); auto.
    - exact product_ids_initial.
    - intros s Hs. inversion Hs.
    - exact stock_conserved_initial. }
  split; [exact Hbal|].
  pose proof (run_all_nonneg cmds initial_ledger stock_nonneg_initial pid p Hp). lia.
Qed.

Lemma stock_balances_with_sales_witness :
  let cmds := [ PreloadDemoSales (fun _ => 0);
                RegisterSale "Zed" "vip" [Some 5] [Some 15] 0;
                UpdateProduct [Some 5] "Plug" "" "" (Value (PyFloat.decimal 25 0))
                              Malformed (Value 12);
                RegisterSale "Zed" "" [Some 5] [Some 30] 0 ] in
  exists p, inventory (run_all initial_ledger cmds) !! 5 = Some p /\
            stock p = 25 /\ initial_stock p = 60 /\
            units_sold 5 (sales (run_all initial_ledger cmds)) = 35.
Proof.
  intros cmds.
  assert (Hp : inventory (run_all initial_ledger cmds) !! 5
               = Some (Product "Plug" "HomeSyx" "SmartHome" (PyFloat.decimal 25 0) 25 12 60))
    by (vm_compute; reflexivity).
  assert (Hquiet : Forall (fun c => edits_stock c = false) cmds)
    by (repeat constructor).
  destruct (stock_balances_with_sales cmds 5 _ Hquiet Hp) as [Hbal _].
  remember (units_sold 5 (sales (run_all initial_ledger cmds))) as u eqn:Hu.
  cbn [stock initial_stock] in Hbal.
  eexists. split; [exact Hp|].
  split; [reflexivity|]. split; [reflexivity|]. lia.
Defined.

(** ** Reports without data, and what the reports cover *)

(** X15. The three sales reports answer "No sales to report." exactly when
    the sales log is empty, for any ledger: a log with at least one sale
    always gives a Top-N ranking, income totals and brand totals. *)
Theorem sales_reports_empty_iff (st : ledger) (n : nat) :
  (top_n_products n st = None <-> sales st = []) /\
  (forall v, income_report v st = None <-> sales st = []) /\
  (sales_by_brand st = NoSales <-> sales st = []).
Proof.
  split; [|split].
  - unfold top_n_products. split.
    + destruct (sales st) as [|s log] eqn:Hs; [reflexivity|].
      pose proof (count_sold_nonempty (s :: log) ltac:(discriminate)).
      destruct (count_sold (s :: log)); [congruence | discriminate].
    + now intros ->.
  - unfold income_report. destruct (sales st); split; congruence.
  - unfold sales_by_brand. split.
    + destruct (sales st) as [|s log] eqn:Hs; [reflexivity|].
      pose proof (revenue_by_brand_nonempty (s :: log) ltac:(discriminate)).
      destruct (revenue_by_brand (s :: log)); [congruence|].
      destruct (existsb _ _); discriminate.
    + now intros ->.
Qed.

Lemma performance_loop_ids (sold : list (Z * Z)) (items : list (Z * product)) (pid : Z) :
  pid ∈ (performance_loop sold items).1.*1 -> pid ∈ items.*1.
Proof.
  intros Hin. apply list_elem_of_fmap in Hin as ([k l] & -> & Hin).
  apply performance_loop_elem_of in Hin as (p & Hin & _).
  apply list_elem_of_fmap. now exists (k, p).
Qed.

Lemma performance_loop_sorted (sold : list (Z * Z)) (items : list (Z * product)) :
  StronglySorted Z.lt items.*1 ->
  StronglySorted Z.lt (performance_loop sold items).1.*1.
Proof.
  induction items as [|[k p] items IH]; intros Hsorted; [constructor|].
  rewrite fmap_cons in Hsorted. apply StronglySorted_inv in Hsorted as [Hsorted Hhd].
  simpl. destruct (performance_line sold k p) as [l|]; simpl; [|constructor].
  constructor; [now apply IH|].
  apply Forall_forall. intros pid Hin.
  apply performance_loop_ids in Hin.
  exact (proj1 (Forall_forall _ _) Hhd pid Hin).
Qed.

Lemma catalog_items_ascending (inv : gmap Z product) :
  StronglySorted Z.lt (catalog_items inv).*1.
Proof.
  pose proof (catalog_items_sorted inv) as Hsorted.
  pose proof (catalog_items_NoDup inv) as Hnodup.
  induction (catalog_items inv) as [|[k p] items IH]; [constructor|].
  apply StronglySorted_inv in Hsorted as [Hsorted Hhd].
  rewrite fmap_cons in *. apply NoDup_cons in Hnodup as [Hfresh Hnodup].
  constructor; [now apply IH|].
  apply Forall_forall. intros pid Hin. simpl.
  assert (pid <> k) by (intros ->; contradiction).
  apply list_elem_of_fmap in Hin as ([k' p'] & -> & Hin).
  pose proof (proj1 (Forall_forall _ _) Hhd _ Hin) as Hle.
  unfold id_le in Hle. simpl in *. lia.
Qed.

(** X16. The inventory-performance report answers "No inventory." exactly
    when the catalog is empty. Otherwise its lines are in ascending order of
    product id, without repetition, and each is the line of a product of
    the catalog; and when the units sold of every product are between zero
    and its initial stock, no division overflows: the report does not
    raise and has a line for every product of the catalog, sold or not. *)
Theorem inventory_performance_covers_catalog (st : ledger) :
  (inventory_performance st = NoInventory <-> inventory st = ∅) /\
  (forall lines raised, inventory_performance st = Performance lines raised ->
     StronglySorted Z.lt lines.*1 /\
     (forall pid, pid ∈ lines.*1 -> is_Some (inventory st !! pid)) /\
     ((forall pid p, inventory st !! pid = Some p ->
                     0 <= units_sold pid (sales st) <= initial_stock p) ->
      raised = None /\
      forall pid, is_Some (inventory st !! pid) -> pid ∈ lines.*1)).
Proof.
  unfold inventory_performance. split.
  - case_decide; split; congruence.
  - intros lines raised. case_decide as Hempty; [discriminate|]. intros [= <- <-].
    split; [apply performance_loop_sorted, catalog_items_ascending|].
    split.
    + intros pid Hin. apply performance_loop_ids in Hin.
      apply list_elem_of_fmap in Hin as ([k p] & -> & Hin).
      apply catalog_items_elem_of in Hin. simpl. eauto.
    + intros Hsold.
      assert (Hfine : forall pid p, (pid, p) ∈ catalog_items (inventory st) ->
                performance_line (count_sold (sales st)) pid p <> None).
      { intros pid p Hin Hnone. apply catalog_items_elem_of in Hin.
        apply performance_line_none in Hnone as [Hpos Hover].
        apply (int_true_divide_small _ _ (Hsold pid p Hin) ltac:(lia)). exact Hover. }
      split; [now apply performance_loop_raised|].
      intros pid [p Hp]. apply catalog_items_elem_of in Hp.
      destruct (proj2 (performance_loop_covers (count_sold (sales st)) _ pid p
                         (catalog_items_sorted _) (catalog_items_NoDup _) Hp))
        as [l Hl].
      * intros pid' p' Hin' _. now apply Hfine.
      * apply list_elem_of_fmap. now exists (pid, l).
Qed.

Lemma inventory_performance_covers_catalog_witness :
  let st := (delete_product (startup (fun _ => 0)) [Some 6; Some 3] "n").1 in
  exists lines,
    inventory_performance st = Performance lines None /\
    lines.*1 = [1; 2; 3; 4; 5].
Proof.
  intros st.
  destruct (inventory_performance st) as [|lines raised] eqn:Hrun;
    [vm_compute in Hrun; discriminate|].
  destruct (inventory_performance_covers_catalog st) as [_ Hcover].
  destruct (Hcover lines raised Hrun) as (_ & _ & Hall).
  destruct Hall as [-> _].
  - intros pid p Hp.
    assert (Hin : (pid, p) ∈ map_to_list (inventory st)) by now apply elem_of_map_to_list.
    vm_compute in Hin.
    repeat (apply elem_of_cons in Hin as [[= -> ->] | Hin]; [vm_compute; split; discriminate|]).
    inversion Hin.
  - exists lines. split; [reflexivity|].
    vm_compute in Hrun. injection Hrun as <-. reflexivity.
Defined.

Lemma table_total_add (k q : Z) (d : list (Z * Z)) :
  table_total (dict_add k q d) = table_total d + q.
Proof.
  induction d as [|[k' v] d IH]; unfold table_total in *; simpl; [lia|].
  case_decide; simpl; lia.
Qed.

Lemma table_total_fold (log : list sale) (d : list (Z * Z)) :
  table_total (fold_left (fun d s => dict_add (product_id s) (quantity s) d) log d)
  = table_total d + total_quantity log.
Proof.
  revert d. induction log as [|s log IH]; intros d; simpl; [lia|].
  rewrite IH, table_total_add. unfold total_quantity. lia.
Qed.

Lemma table_total_perm (d d' : list (Z * Z)) : d ≡ₚ d' -> table_total d = table_total d'.
Proof.
  induction 1; simpl; unfold table_total in *; simpl; lia.
Qed.

(** X17. The totals per product that the Top-N report ranks add up to the
    total quantity of the sales log, before and after sorting: the
    aggregation loses no sale and counts none twice. *)
Theorem count_sold_sums_to_total (log : list sale) :
  table_total (count_sold log) = total_quantity log /\
  table_total (sorted_desc (count_sold log)) = total_quantity log.
Proof.
  assert (H : table_total (count_sold log) = total_quantity log).
  { unfold count_sold. rewrite table_total_fold. simpl. lia. }
  split; [exact H|].
  rewrite <- H. apply table_total_perm, sorted_desc_perm.
Qed.

(** ** Sales by brand *)







Lemma insert_amount_desc_perm (x : string * float) (l : list (string * float)) :
  insert_amount_desc x l ≡ₚ x :: l.
Proof.
  induction l as [|y l IH]; simpl; [reflexivity|].
  destruct (PyFloat.ltb x.2 y.2); [|reflexivity].
  rewrite IH. apply Permutation_swap.
Qed.

Lemma sorted_amount_desc_perm (l : list (string * float)) : sorted_amount_desc l ≡ₚ l.
Proof.
  induction l as [|x l IH]; simpl; [reflexivity|].
  now rewrite insert_amount_desc_perm, IH.
Qed.



(** The comparison of two floats that are not NaN is a total preorder:
    "not less than" is transitive. *)
Lemma not_ltb_trans (x y z : float) :
  is_nan y = false ->
  PyFloat.ltb x y = false -> PyFloat.ltb y z = false -> PyFloat.ltb x z = false.
Proof.
  unfold PyFloat.ltb, SFltb, SFcompare.
  destruct x as [sx|sx| |sx mx ex], y as [sy|sy| |sy my ey], z as [sz|sz| |sz mz ez];
    try discriminate; try reflexivity;
    try destruct sx; try destruct sy; try destruct sz;
    try discriminate; try reflexivity; intros _;
    change (Pos.compare_cont Eq) with Pos.compare;
    repeat match goal with
           | |- context [Z.compare ?a ?b] => destruct (Z.compare_spec a b)
           | |- context [Pos.compare ?a ?b] => destruct (Pos.compare_spec a b)
           end;
    simpl; try discriminate; try reflexivity; try lia.
Qed.

Lemma insert_amount_desc_sorted (x : string * float) (l : list (string * float)) :
  is_nan x.2 = false -> Forall (fun y => is_nan y.2 = false) l ->
  StronglySorted by_amount_desc l -> StronglySorted by_amount_desc (insert_amount_desc x l).
Proof.
  intros Hx Hnan. induction l as [|y l IH]; simpl; intros Hl.
  - repeat constructor.
  - apply Forall_cons in Hnan as [Hy Hnan].
    apply StronglySorted_cons in Hl as [Hyl Hl].
    destruct (PyFloat.ltb x.2 y.2) eqn:Hxy.
    + apply StronglySorted_cons. split; [|now apply IH].
      rewrite insert_amount_desc_perm. constructor; [|exact Hyl].
      unfold by_amount_desc.
      destruct (PyFloat.ltb y.2 x.2) eqn:Hyx; [|reflexivity].
      revert Hxy Hyx. unfold PyFloat.ltb, SFltb.
      destruct (SFcompare x.2 y.2) as [[]|] eqn:Hc1; try discriminate.
      destruct (SFcompare y.2 x.2) as [[]|] eqn:Hc2; try discriminate.
      exfalso. revert Hc1 Hc2. unfold SFcompare.
      destruct x.2 as [sx|sx| |sx mx ex], y.2 as [sy|sy| |sy my ey];
        try discriminate; try destruct sx; try destruct sy; try discriminate;
        change (Pos.compare_cont Eq) with Pos.compare;
        repeat match goal with
               | |- context [Z.compare ?a ?b] => destruct (Z.compare_spec a b)
               | |- context [Pos.compare ?a ?b] => destruct (Pos.compare_spec a b)
               end;
        simpl; try discriminate; intros; lia.
    + apply StronglySorted_cons. split; [|now apply StronglySorted_cons].
      constructor; [exact Hxy|].
      apply Forall_forall. intros z Hz.
      apply (not_ltb_trans x.2 y.2 z.2 Hy Hxy).
      rewrite Forall_forall in Hyl. now apply Hyl.
Qed.

Lemma sorted_amount_desc_sorted (l : list (string * float)) :
  Forall (fun y => is_nan y.2 = false) l -> StronglySorted by_amount_desc (sorted_amount_desc l).
Proof.
  induction 1 as [|x l Hx Hl IH]; simpl; [constructor|].
  apply insert_amount_desc_sorted; auto.
  now rewrite sorted_amount_desc_perm.
Qed.

(** X19. When no brand total is a NaN, the lines of the report by brand are
    the brand totals rearranged so that no total is less than the one on a
    later line: the report is in descending order of net revenue and lists
    every brand once. *)
Theorem sales_by_brand_descending (st : ledger) (lines : list (string * float)) :
  sales_by_brand st = BrandTotals lines ->
  lines ≡ₚ revenue_by_brand (sales st) /\
  Forall (fun y => is_nan y.2 = false) lines /\
  StronglySorted by_amount_desc lines.
Proof.
  unfold sales_by_brand. intros Hrun.
  destruct (revenue_by_brand (sales st)) as [|kv d] eqn:Hrev; [discriminate|].
  destruct (existsb (fun kv => is_nan kv.2) (kv :: d)) eqn:Hnan; [discriminate|].
  injection Hrun as <-.
  assert (Hall : Forall (fun y => is_nan y.2 = false) (kv :: d)).
  { apply Forall_forall. intros y Hy.
    destruct (is_nan y.2) eqn:Hy2; [|reflexivity].
    assert (existsb (fun kv => is_nan kv.2) (kv :: d) = true) as Hex
      by (apply existsb_exists; exists y; split; [now apply list_elem_of_In | exact Hy2]).
    congruence. }
  split; [apply (sorted_amount_desc_perm (kv :: d))|].
  split; [|now apply (sorted_amount_desc_sorted (kv :: d))].
  now rewrite (sorted_amount_desc_perm (kv :: d)).
Qed.

Lemma sales_by_brand_descending_witness :
  sales_by_brand (startup (fun _ => 0))
  = BrandTotals [ ("OptiSight", PyFloat.decimal 99800 2); ("HomeSyx", PyFloat.decimal 33983 2);
                  ("Soundix", PyFloat.decimal 21597 2); ("Ampere", PyFloat.decimal 19750 2);
                  ("NovaTech", PyFloat.decimal 17430 2) ] /\
  StronglySorted by_amount_desc
    [ ("OptiSight", PyFloat.decimal 99800 2); ("HomeSyx", PyFloat.decimal 33983 2);
      ("Soundix", PyFloat.decimal 21597 2); ("Ampere", PyFloat.decimal 19750 2);
      ("NovaTech", PyFloat.decimal 17430 2) ].
Proof.
  assert (Hrun : sales_by_brand (startup (fun _ => 0))
                 = BrandTotals [ ("OptiSight", PyFloat.decimal 99800 2);
                                 ("HomeSyx", PyFloat.decimal 33983 2);
                                 ("Soundix", PyFloat.decimal 21597 2);
                                 ("Ampere", PyFloat.decimal 19750 2);
                                 ("NovaTech", PyFloat.decimal 17430 2) ])
    by (vm_compute; reflexivity).
  split; [exact Hrun|].
  exact (proj2 (proj2 (sales_by_brand_descending _ _ Hrun))).
Defined.

(** ** Registration and failed commands *)

(** X20. A registration with a name and a brand, after any sequence of
    commands: the product is stored under the current counter with the
    fields typed at the prompts (the price rounded to two decimals, the
    category "General" when left empty) and with [initial_stock] equal to
    its stock; every product that was in the catalog is still there as it
    was, the catalog has one product more and the counter moves on by one. *)
Theorem register_product_adds_one
    (cmds : list command) (n b c : string)
    (price_lines : list (option float)) (stock_lines warranty_lines : list (option Z))
    (price : float) (stock0 warranty : Z)
    (r1 : list (option float)) (r2 r3 : list (option Z)) :
  n <> "" -> b <> "" ->
  safe_float (Some (PyFloat.decimal 0 0)) None price_lines = Some (price, r1) ->
  safe_int (Some 0) None stock_lines = Some (stock0, r2) ->
  safe_int (Some 0) None warranty_lines = Some (warranty, r3) ->
  let st := run_all initial_ledger cmds in
  let result := register_product st n b c price_lines stock_lines warranty_lines in
  result.2 = ProductRegistered (next_product_id st) /\
  inventory result.1 !! next_product_id st
  = Some (Product n b (if decide (c = "") then "General" else c)
                  (PyFloat.round2 price) stock0 warranty stock0) /\
  (forall pid p, inventory st !! pid = Some p -> inventory result.1 !! pid = Some p) /\
  size (inventory result.1) = S (size (inventory st)) /\
  next_product_id result.1 = next_product_id st + 1 /\
  sales result.1 = sales st.
Proof.
  intros Hn Hb Hprice Hstock Hwarranty st result. subst result.
  assert (Hfresh : inventory st !! next_product_id st = None).
  { destruct (inventory st !! next_product_id st) as [q|] eqn:Hq; [|reflexivity].
    destruct (reachable_product_ids cmds) as [_ Hids].
    specialize (Hids _ (mk_is_Some _ _ Hq)). fold st in Hids. lia. }
  unfold register_product.
  rewrite decide_False by exact Hn. rewrite decide_False by exact Hb.
  rewrite Hprice, Hstock, Hwarranty. simpl.
  split; [reflexivity|]. split; [apply lookup_insert_eq|].
  split; [|split; [now apply map_size_insert_None | split; reflexivity]].
  intros pid p Hp. rewrite lookup_insert_ne; [exact Hp|].
  intros <-. congruence.
Qed.

Lemma register_product_adds_one_witness :
  let cmds := [ DeleteProduct [Some 5] "y" ] in
  let result := register_product (run_all initial_ledger cmds) "Mug" "Clay" ""
                  [Some (PyFloat.decimal 9999 3)] [Some 5] [Some 0] in
  result.2 = ProductRegistered 6 /\
  inventory result.1 !! 6
  = Some (Product "Mug" "Clay" "General" (PyFloat.decimal 1000 2) 5 0 5) /\
  size (inventory result.1) = 5%nat.
Proof.
  intros cmds result.
  destruct (register_product_adds_one cmds "Mug" "Clay" ""
              [Some (PyFloat.decimal 9999 3)] [Some 5] [Some 0]
              (PyFloat.decimal 9999 3) 5 0 [] [] []
              ltac:(discriminate) ltac:(discriminate) eq_refl eq_refl eq_refl)
    as (Hout & Hnew & _ & Hsize & _).
  split; [exact Hout|]. split; [|exact Hsize].
  etransitivity; [exact Hnew|]. vm_compute. reflexivity.
Defined.


(** ** Calculator and addition prompt *)

Lemma eqb_zero_is_zero (b : float) :
  SFeqb b (PyFloat.decimal 0 0) = true <-> exists s, b = S754_zero s.
Proof.
  destruct b as [s|s| |s m e]; unfold SFeqb; simpl; split;
    try discriminate; try (intros [? ?]; discriminate); eauto.
  - destruct s; discriminate.
  - destruct s; discriminate.
Qed.

Lemma division_total (a b : float) : division a b <> None.
Proof.
  unfold division, float_truediv.
  destruct b as [s|s| |s m e]; try destruct s; simpl; discriminate.
Qed.

(** X22. [division] never raises: for a divisor that is a zero of either
    sign it returns the error text, and these are exactly the divisors for
    which the float division would raise [ZeroDivisionError]; for every
    other divisor, infinite or NaN included, it returns the float quotient. *)
Theorem division_never_raises (a b : float) :
  (float_truediv a b = None <-> SFeqb b (PyFloat.decimal 0 0) = true) /\
  division a b = (if SFeqb b (PyFloat.decimal 0 0)
                  then Some (Text "Error: No se puede dividir por 0")
                  else Some (Num (PyFloat.div a b))) /\
  division a b <> None.
Proof.
  assert (Hiff : float_truediv a b = None <-> SFeqb b (PyFloat.decimal 0 0) = true).
  { rewrite eqb_zero_is_zero. unfold float_truediv.
    destruct b; split; try discriminate; eauto; intros [? ?]; discriminate. }
  split; [exact Hiff|]. clear Hiff.
  unfold division, float_truediv.
  destruct b as [s|s| |s m e]; try destruct s; simpl; (split; [reflexivity | discriminate]).
Qed.

Lemma operaciones_valid (opcion : Z) :
  valid_option opcion = true ->
  exists operacion, operaciones opcion = Some operacion /\
                    forall a b, operacion a b <> None.
Proof.
  unfold valid_option, operaciones. intros Hv.
  destruct (opcion =? 1); [eexists; split; [reflexivity | discriminate]|].
  destruct (opcion =? 2); [eexists; split; [reflexivity | discriminate]|].
  destruct (opcion =? 3); [eexists; split; [reflexivity | discriminate]|].
  destruct (opcion =? 4); [|discriminate].
  eexists. split; [reflexivity|]. intros a b. apply division_total.
Qed.

(** X23. A session of the calculator never ends with an exception of an
    operation or of the lookup in [operaciones]: whatever is typed, it ends
    because option 5 was chosen or because the input ran out; and once
    option 5 is read nothing after it is looked at. *)
Theorem calculadora_never_crashes (tape rest : list typed_line) (l : typed_line) :
  ((calculadora tape).2 = Exited \/ (calculadora tape).2 = EndOfInput) /\
  (as_int l = Some 5 -> calculadora (l :: rest) = ([Leaving], Exited)).
Proof.
  split; [|intros Hl; simpl; now rewrite Hl].
  assert (H : forall n (t : list typed_line), (length t <= n)%nat ->
                (calculadora t).2 = Exited \/ (calculadora t).2 = EndOfInput).
  { clear. induction n as [|n IH]; intros [|l0 t] Hlen; simpl in *; auto; try lia.
    destruct (as_int l0) as [opcion|]; [|apply IH; lia].
    destruct (opcion =? 5); [auto|].
    destruct (valid_option opcion) eqn:Hv; simpl; [|apply IH; lia].
    destruct t as [|l1 t1]; [auto|].
    destruct (as_float l1) as [num1|]; [|apply IH; simpl in *; lia].
    destruct t1 as [|l2 t2]; [auto|].
    destruct (as_float l2) as [num2|]; [|apply IH; simpl in *; lia].
    destruct (operaciones_valid opcion Hv) as (operacion & -> & Hop).
    destruct (operacion num1 num2) as [v|] eqn:Hr; [|now destruct (Hop num1 num2)].
    apply IH. simpl in *. lia. }
  apply (H (length tape)). lia.
Qed.

Lemma calculadora_never_crashes_witness :
  let five := Typed (Some 5) (Some (PyFloat.decimal 5 0)) in
  let tape := [ Typed (Some 4) (Some (PyFloat.decimal 4 0));
                Typed (Some 1) (Some (PyFloat.decimal 1 0));
                Typed None (Some (S754_zero true));
                Typed (Some 7) (Some (PyFloat.decimal 7 0));
                five;
                Typed (Some 4) None ] in
  calculadora tape
  = ([ Result (Text "Error: No se puede dividir por 0"); InvalidOption; Leaving ], Exited) /\
  calculadora (five :: tape) = ([Leaving], Exited).
Proof.
  intros five tape. split; [reflexivity|].
  exact (proj2 (calculadora_never_crashes [] tape five) eq_refl).
Defined.

Lemma suma_found (tape : list (option float)) (r : float) :
  suma tape = Some r ->
  exists skipped num1 num2 rest,
    tape = skipped ++ Some num1 :: Some num2 :: rest /\
    failed_attempts skipped /\ r = PyFloat.add num1 num2.
Proof.
  assert (H : forall n (t : list (option float)), (length t <= n)%nat ->
                suma t = Some r ->
                exists skipped num1 num2 rest,
                  t = skipped ++ Some num1 :: Some num2 :: rest /\
                  failed_attempts skipped /\ r = PyFloat.add num1 num2).
  { induction n as [|n IH]; intros [|[a|] t] Hlen; simpl in *; try discriminate; try lia.
    - destruct t as [|[b|] t']; try discriminate.
      + intros [= <-]. exists [], a, b, t'. repeat split. constructor.
      + intros Hr. destruct (IH t') as (sk & x & y & rest & -> & Hsk & ->);
          [simpl in *; lia | exact Hr |].
        exists (Some a :: None :: sk), x, y, rest.
        split; [reflexivity|]. split; [now constructor | reflexivity].
    - intros Hr. destruct (IH t) as (sk & x & y & rest & -> & Hsk & ->); [lia | exact Hr |].
      exists (None :: sk), x, y, rest.
      split; [reflexivity|]. split; [now constructor | reflexivity]. }
  apply (H (length tape)). lia.
Qed.

Lemma suma_after_failed (skipped rest : list (option float)) :
  failed_attempts skipped -> suma (skipped ++ rest) = suma rest.
Proof. induction 1; simpl; auto. Qed.

(** X24. The addition prompt prints the sum of the first two numbers typed
    one after the other in the same attempt: the lines before them are
    attempts that failed, and a first number followed by a malformed second
    one is dropped and has to be typed again. *)
Theorem suma_first_good_attempt (tape : list (option float)) (r : float) :
  suma tape = Some r <->
  exists skipped num1 num2 rest,
    tape = skipped ++ Some num1 :: Some num2 :: rest /\
    failed_attempts skipped /\ r = PyFloat.add num1 num2.
Proof.
  split; [apply suma_found|].
  intros (skipped & num1 & num2 & rest & -> & Hsk & ->).
  now rewrite suma_after_failed.
Qed.

Lemma suma_first_good_attempt_witness :
  suma [ Some (PyFloat.decimal 1 0); None; None;
         Some (PyFloat.decimal 25 1); Some (PyFloat.decimal 5 1); Some (PyFloat.decimal 9 0) ]
  = Some (PyFloat.decimal 3 0).
Proof.
  apply suma_first_good_attempt.
  exists [Some (PyFloat.decimal 1 0); None; None],
         (PyFloat.decimal 25 1), (PyFloat.decimal 5 1), [Some (PyFloat.decimal 9 0)].
  split; [reflexivity|]. split; [repeat constructor | vm_compute; reflexivity].
Defined.
